(** * Credit-gated task orchestrator: a shallow embedding of the server code

    The development follows the TypeScript sources of the server:
    - [server/services/planDDOHelper.ts]  (class [PlanDDOHelper]),
    - [server/services/paymentsService.ts] (ledger bridge and tool gateway),
    - [server/services/llmService.ts]      (router and intent synthesizer),
    - [server/services/promptService.ts]   (the prompt cache),
    - [server/routes.ts]                   (the route handlers),
    - [scripts/buy-plan.ts]                (the purchase script),
    - [client/src/lib/utils.ts]            ([extractApiKeyFromUrl]).

    JavaScript values are embedded as follows.
    - A string is a [string]: one character per code unit (the embedding
      covers code units below 256; a code unit above 255, which only a
      [\uXXXX] escape of a JSON text can introduce, is kept as its UTF-8
      bytes so that distinct escapes stay distinct).
    - A Number is an exact decimal [m * 10^e], an infinity or [NaN]; this is
      what a double holds as long as at most 15 significant decimal digits
      are involved, and theorems about arithmetic carry that bound.
    - [undefined] is [None] of an [option]; optional chaining [a?.b] is the
      bind of the option monad.
    - Calls to collaborators outside the repository (ledger library, chain
      RPC, tool server, completion provider) are fields of a [World] record;
      every call is recorded in a trace of [event]s. *)

From stdpp Require Import base option list strings gmap.
From Stdlib Require Import Ascii ZArith Lia QArith Qpower.
From Stdlib Require DecimalString DecimalN.

Close Scope Q_scope.
Local Open Scope Z_scope.
Set Warnings "-register-all".

(** ** Strings *)

Module JsString.

(** [WhiteSpace] and [LineTerminator] code units below 256: TAB, LF, VT,
    FF, CR, SP and NBSP. *)
Definition isWhiteSpace (c : ascii) : bool :=
  match c with
  | "009" | "010" | "011" | "012" | "013" | " " | "160" => true
  | _ => false
  end%char.

Fixpoint trimStart (s : string) : string :=
  match s with
  | String c s' => if isWhiteSpace c then trimStart s' else s
  | EmptyString => EmptyString
  end.

Fixpoint trimEnd (s : string) : string :=
  match s with
  | String c s' =>
      match trimEnd s' with
      | EmptyString => if isWhiteSpace c then EmptyString else String c EmptyString
      | t => String c t
      end
  | EmptyString => EmptyString
  end.

(** [s.trim()] *)
Definition trim (s : string) : string := trimStart (trimEnd s).

(** [s.startsWith(p)] *)
Definition startsWith (s p : string) : bool := String.prefix p s.

Fixpoint drop (n : nat) (s : string) : string :=
  match n, s with
  | O, _ => s
  | S n', String _ s' => drop n' s'
  | S _, EmptyString => EmptyString
  end.

Fixpoint take (n : nat) (s : string) : string :=
  match n, s with
  | S n', String c s' => String c (take n' s')
  | _, _ => EmptyString
  end.

(** [s.replace(pat, rep)] for a string pattern: the first occurrence only. *)
Fixpoint replace (pat rep s : string) : string :=
  if String.prefix pat s then rep +:+ drop (String.length pat) s
  else match s with
       | String c s' => String c (replace pat rep s')
       | EmptyString => EmptyString
       end.

(** Truthiness of a string: only the empty string is falsy. *)
Definition truthy (s : string) : bool :=
  match s with EmptyString => false | _ => true end.

(** Truthiness of [string | undefined]. *)
Definition truthy_opt (o : option string) : bool :=
  match o with Some s => truthy s | None => false end.

(** [a || b] on [string | undefined] with a string default. *)
Definition or_else (o : option string) (d : string) : string :=
  match o with
  | Some s => if truthy s then s else d
  | None => d
  end.

(** The double quote character, and [dq] to write it as a backquote in
    literals: [dq "{`a`:1}"] is the text [{"a":1}]. *)
Definition dquote : ascii := "034"%char.

Fixpoint dq (s : string) : string :=
  match s with
  | String c s' => String (if Ascii.eqb c "`" then dquote else c) (dq s')
  | EmptyString => EmptyString
  end.

Fixpoint repeat (c : ascii) (n : nat) : string :=
  match n with O => EmptyString | S n' => String c (repeat c n') end.

(** Every character of [s] satisfies [P]. *)
Fixpoint all_chars (P : ascii → bool) (s : string) : bool :=
  match s with
  | String c s' => P c && all_chars P s'
  | EmptyString => true
  end.

Fixpoint contains (c : ascii) (s : string) : bool :=
  match s with
  | String d s' => if Ascii.eqb c d then true else contains c s'
  | EmptyString => false
  end.

End JsString.

(** ** Numbers *)

Module JsNumber.

Inductive number : Type :=
| NaN
| Inf (negative : bool)
| Dec (m e : Z).     (* m * 10^e *)

Definition of_Z (z : Z) : number := Dec z 0.

(** The rational a finite number stands for. *)
Definition value (x : number) : option Q :=
  match x with
  | Dec m e => Some (Qmult (inject_Z m) (Qpower (Qmake 10 1) e))
  | _ => None
  end.

(** Decimal digits of a natural number, most significant first. *)
Definition digits (n : N) : string :=
  DecimalString.NilEmpty.string_of_uint (N.to_uint n).

(** Removes the factors 10 of [s], counting them into [e]; [fuel] bounds
    the number of factors. *)
Fixpoint strip10 (fuel : nat) (s : N) (e : Z) : N * Z :=
  match fuel with
  | O => (s, e)
  | S fuel' =>
      if ((s mod 10 =? 0) && negb (s =? 0))%N
      then strip10 fuel' (s / 10)%N (e + 1)
      else (s, e)
  end.

(** [Number::toString] for a positive finite value [s * 10^e]. *)
Definition toString_pos (m : N) (e : Z) : string :=
  let '(s, e') := strip10 (N.to_nat (N.log2 m)) m e in
  let ds := digits s in
  let k := Z.of_nat (String.length ds) in
  let n := k + e' in
  if (k <=? n) && (n <=? 21) then
    ds +:+ JsString.repeat "0" (Z.to_nat (n - k))
  else if (0 <? n) && (n <=? 21) then
    JsString.take (Z.to_nat n) ds +:+ "." +:+ JsString.drop (Z.to_nat n) ds
  else if (-6 <? n) && (n <=? 0) then
    "0." +:+ JsString.repeat "0" (Z.to_nat (- n)) +:+ ds
  else
    let x := n - 1 in
    let sign := if 0 <=? x then "+" else "-" in
    let mant := match ds with
                | String d EmptyString => ds
                | String d rest => String d ("." +:+ rest)
                | EmptyString => ds
                end in
    mant +:+ "e" +:+ sign +:+ digits (Z.to_N (Z.abs x)).

(** [Number.prototype.toString()] / [String(x)] *)
Definition toString (x : number) : string :=
  match x with
  | NaN => "NaN"
  | Inf false => "Infinity"
  | Inf true => "-Infinity"
  | Dec 0 _ => "0"
  | Dec (Zpos p) e => toString_pos (Npos p) e
  | Dec (Zneg p) e => "-" +:+ toString_pos (Npos p) e
  end.

(** *** [StringToNumber]: the coercion of a string to a Number *)

Definition isDigit (c : ascii) : bool :=
  let n := N_of_ascii c in ((48 <=? n) && (n <=? 57))%N.

(** The longest prefix of decimal digits, and what follows it. *)
Fixpoint span_digits (s : string) : string * string :=
  match s with
  | String c s' =>
      if isDigit c
      then let '(a, r) := span_digits s' in (String c a, r)
      else (EmptyString, s)
  | EmptyString => (EmptyString, EmptyString)
  end.

Fixpoint digits_value_acc (acc : N) (s : string) : N :=
  match s with
  | String c s' => digits_value_acc (acc * 10 + (N_of_ascii c - 48))%N s'
  | EmptyString => acc
  end.

Definition digits_value (s : string) : N := digits_value_acc 0 s.

(** [ExponentPart], optional, up to the end of the text. *)
Definition parse_exponent (rest : string) : option Z :=
  match rest with
  | EmptyString => Some 0
  | String c r =>
      if Ascii.eqb c "e" || Ascii.eqb c "E" then
        let '(neg, r') :=
          match r with
          | String "-" r' => (true, r')
          | String "+" r' => (false, r')
          | _ => (false, r)
          end in
        match span_digits r' with
        | (String d ds, EmptyString) =>
            let x := Z.of_N (digits_value (String d ds)) in
            Some (if neg : bool then - x else x)
        | _ => None
        end
      else None
  end.

(** [StrUnsignedDecimalLiteral] other than [Infinity]; the result is
    [(m, e)] for the value [m * 10^e]. *)
Definition parse_decimal (s : string) : option (N * Z) :=
  match span_digits s with
  | (a, String "." r2) =>
      let '(b, r3) := span_digits r2 in
      match a +:+ b with
      | EmptyString => None
      | ab =>
          x ← parse_exponent r3;
          Some (digits_value ab, x - Z.of_nat (String.length b))
      end
  | (EmptyString, _) => None
  | (a, r1) => x ← parse_exponent r1; Some (digits_value a, x)
  end.

Definition radix_digit (base : N) (c : ascii) : option N :=
  let n := N_of_ascii c in
  let d := if ((48 <=? n) && (n <=? 57))%N then Some (n - 48)%N
           else if ((97 <=? n) && (n <=? 102))%N then Some (n - 87)%N
           else if ((65 <=? n) && (n <=? 70))%N then Some (n - 55)%N
           else None in
  d ≫= λ v, if (v <? base)%N then Some v else None.

Fixpoint radix_value_acc (base acc : N) (s : string) : option N :=
  match s with
  | String c s' =>
      d ← radix_digit base c; radix_value_acc base (acc * base + d)%N s'
  | EmptyString => Some acc
  end.

(** [NonDecimalIntegerLiteral]: [0x..], [0o..], [0b..]. *)
Definition parse_nondecimal (s : string) : option N :=
  match s with
  | String "0" (String p (String d ds)) =>
      let body := String d ds in
      if Ascii.eqb p "x" || Ascii.eqb p "X" then radix_value_acc 16 0 body
      else if Ascii.eqb p "o" || Ascii.eqb p "O" then radix_value_acc 8 0 body
      else if Ascii.eqb p "b" || Ascii.eqb p "B" then radix_value_acc 2 0 body
      else None
  | _ => None
  end.

(** [Number(str)], also the coercion applied to a string operand of [/]. *)
Definition StringToNumber (str : string) : number :=
  match JsString.trim str with
  | EmptyString => Dec 0 0
  | String c r as t =>
      match parse_nondecimal t with
      | Some n => Dec (Z.of_N n) 0
      | None =>
          let '(neg, body) :=
            if Ascii.eqb c "-" then (true, r)
            else if Ascii.eqb c "+" then (false, r)
            else (false, t) in
          if String.eqb body "Infinity" then Inf neg
          else match parse_decimal body with
               | Some (m, e) => Dec (if neg : bool then - Z.of_N m else Z.of_N m) e
               | None => NaN
               end
      end
  end.

(** [ToNumber] of [string | undefined]: [undefined] gives [NaN]. *)
Definition ToNumber (o : option string) : number :=
  match o with Some s => StringToNumber s | None => NaN end.

(** [x <= y]; false as soon as one side is [NaN]. *)
Definition leb (x y : number) : bool :=
  match x, y with
  | Dec m1 e1, Dec m2 e2 =>
      let e := Z.min e1 e2 in
      m1 * 10 ^ (e1 - e) <=? m2 * 10 ^ (e2 - e)
  | Inf true, (Dec _ _ | Inf _) => true
  | Dec _ _, Inf false | Inf false, Inf false => true
  | _, _ => false
  end.

(** [x < y]; false as soon as one side is [NaN]. *)
Definition ltb (x y : number) : bool :=
  match x, y with
  | Dec m1 e1, Dec m2 e2 =>
      let e := Z.min e1 e2 in
      m1 * 10 ^ (e1 - e) <? m2 * 10 ^ (e2 - e)
  | Inf true, (Dec _ _ | Inf false) => true
  | Dec _ _, Inf false => true
  | _, _ => false
  end.

(** [x / 10 ** k] *)
Definition div_pow10 (x : number) (k : Z) : number :=
  match x with
  | Dec m e => Dec m (e - k)
  | other => other
  end.

End JsNumber.

(** ** JSON values, [JSON.stringify] and [JSON.parse] *)

Module Json.

Inductive value : Type :=
| JNull
| JBool (b : bool)
| JNum (x : JsNumber.number)
| JStr (s : string)
| JArr (items : list value)
| JObj (props : list (string * value)).   (* own properties, in key order *)

(** [typeof v] *)
Definition typeof (v : value) : string :=
  match v with
  | JNull | JArr _ | JObj _ => "object"
  | JBool _ => "boolean"
  | JNum _ => "number"
  | JStr _ => "string"
  end.

(** [typeof] of a property read, where [None] is [undefined]. *)
Definition typeof_opt (o : option value) : string :=
  match o with Some v => typeof v | None => "undefined" end.

Definition truthy (v : value) : bool :=
  match v with
  | JNull => false
  | JBool b => b
  | JNum (JsNumber.Dec 0 _) | JNum JsNumber.NaN => false
  | JNum _ => true
  | JStr s => JsString.truthy s
  | JArr _ | JObj _ => true
  end.

Definition truthy_opt (o : option value) : bool :=
  match o with Some v => truthy v | None => false end.

Fixpoint assoc (k : string) (props : list (string * value)) : option value :=
  match props with
  | [] => None
  | (k', v) :: rest => if String.eqb k k' then Some v else assoc k rest
  end.

(** [v.k] (or [v?.k]) for a key that is no built-in property of arrays,
    strings, numbers or booleans: only an object can hold it. *)
Definition get (k : string) (v : value) : option value :=
  match v with
  | JObj props => assoc k props
  | _ => None
  end.

Definition isArray (o : option value) : bool :=
  match o with Some (JArr _) => true | _ => false end.

(** [String(v)]; for an object, one without a [toString] property of its
    own (with one, which is no function, [String] throws). *)
Fixpoint ToString (v : value) : string :=
  match v with
  | JNull => "null"
  | JBool true => "true"
  | JBool false => "false"
  | JNum x => JsNumber.toString x
  | JStr s => s
  | JArr items =>
      (fix go (l : list value) : string :=
         match l with
         | [] => ""
         | [x] => match x with JNull => "" | _ => ToString x end
         | x :: rest =>
             match x with JNull => "" | _ => ToString x end +:+ "," +:+ go rest
         end) items
  | JObj _ => "[object Object]"
  end.

(** *** Serialization *)

Import JsString (dquote, dq).

Definition hex_digit (n : N) : ascii :=
  match n with
  | 0 => "0" | 1 => "1" | 2 => "2" | 3 => "3" | 4 => "4" | 5 => "5"
  | 6 => "6" | 7 => "7" | 8 => "8" | 9 => "9" | 10 => "a" | 11 => "b"
  | 12 => "c" | 13 => "d" | 14 => "e" | _ => "f"
  end%N%char.

(** [QuoteJSONString], without the enclosing quotes. *)
Fixpoint quote_chars (s : string) : string :=
  match s with
  | EmptyString => EmptyString
  | String c s' =>
      let n := N_of_ascii c in
      (if (n =? 34)%N then String "\" (String dquote "")
       else if (n =? 92)%N then "\\"
       else if (n =? 8)%N then "\b"
       else if (n =? 9)%N then "\t"
       else if (n =? 10)%N then "\n"
       else if (n =? 12)%N then "\f"
       else if (n =? 13)%N then "\r"
       else if (n <? 32)%N then
         "\u00" +:+ String (hex_digit (n / 16)) (String (hex_digit (n mod 16)) "")
       else String c "") +:+ quote_chars s'
  end.

Definition quote (s : string) : string :=
  String dquote (quote_chars s +:+ String dquote "").

Fixpoint join (sep : string) (l : list string) : string :=
  match l with
  | [] => ""
  | [x] => x
  | x :: rest => x +:+ sep +:+ join sep rest
  end.

(** [JSON.stringify(v)] on a JSON value (no indentation). *)
Fixpoint stringify (v : value) : string :=
  match v with
  | JNull => "null"
  | JBool true => "true"
  | JBool false => "false"
  | JNum (JsNumber.Dec m e) => JsNumber.toString (JsNumber.Dec m e)
  | JNum _ => "null"
  | JStr s => quote s
  | JArr items => "[" +:+ join "," (List.map stringify items) +:+ "]"
  | JObj props =>
      "{" +:+
      join "," (List.map (fun kv => quote (fst kv) +:+ ":" +:+ stringify (snd kv)) props)
      +:+ "}"
  end.

(** *** Parsing

    [JSON.parse] is a one-pass scanner (a finite automaton over the
    characters, producing tokens) followed by a pushdown automaton over
    the tokens, so that both are total on every text. *)

Inductive token : Type :=
| TLBrace | TRBrace | TLBrack | TRBrack | TColon | TComma
| TStr (s : string)
| TNum (x : JsNumber.number)
| TLit (v : value).

(** The phases of the number grammar: an optional minus sign; a zero or a
    nonzero digit with more digits; optionally a dot and digits; optionally
    an exponent mark, a sign and digits. *)
Inductive nphase : Type :=
| NMinus | NZero | NInt | NDot | NFrac | NE | NESign | NExp.

Record numacc : Type := NumAcc {
  n_neg : bool; n_mant : N; n_frac : Z; n_eneg : bool; n_exp : N
}.

Inductive lstate : Type :=
| LTop
| LStr (acc : string)                       (* inside a string; reversed *)
| LEsc (acc : string)                       (* after a backslash *)
| LUni (acc : string) (k : nat) (code : N)  (* k hex digits still to come *)
| LNum (ph : nphase) (a : numacc)
| LLit (rest : string) (v : value).         (* inside true, false, null *)

Definition num_finish (a : numacc) : JsNumber.number :=
  JsNumber.Dec
    (if n_neg a then - Z.of_N (n_mant a) else Z.of_N (n_mant a))
    ((if n_eneg a then - Z.of_N (n_exp a) else Z.of_N (n_exp a)) - n_frac a).

Definition accepting (ph : nphase) : bool :=
  match ph with
  | NZero | NInt | NFrac | NExp => true
  | _ => false
  end.

Definition digit_of (c : ascii) : option N :=
  if JsNumber.isDigit c then Some (N_of_ascii c - 48)%N else None.

Definition is_e (c : ascii) : bool := Ascii.eqb c "e" || Ascii.eqb c "E".

Definition push_mant (a : numacc) (d : N) : numacc :=
  NumAcc (n_neg a) (n_mant a * 10 + d) (n_frac a) (n_eneg a) (n_exp a).
Definition push_frac (a : numacc) (d : N) : numacc :=
  NumAcc (n_neg a) (n_mant a * 10 + d) (n_frac a + 1) (n_eneg a) (n_exp a).
Definition push_exp (a : numacc) (d : N) : numacc :=
  NumAcc (n_neg a) (n_mant a) (n_frac a) (n_eneg a) (n_exp a * 10 + d).
Definition set_eneg (a : numacc) : numacc :=
  NumAcc (n_neg a) (n_mant a) (n_frac a) true (n_exp a).

(** One more character of a number; [None] when [c] cannot continue it. *)
Definition num_step (ph : nphase) (a : numacc) (c : ascii)
  : option (nphase * numacc) :=
  match ph, digit_of c with
  | NMinus, Some 0%N => Some (NZero, a)
  | NMinus, Some d => Some (NInt, push_mant a d)
  | NInt, Some d => Some (NInt, push_mant a d)
  | NDot, Some d | NFrac, Some d => Some (NFrac, push_frac a d)
  | NE, Some d | NESign, Some d | NExp, Some d => Some (NExp, push_exp a d)
  | (NZero | NInt), None =>
      if Ascii.eqb c "." then Some (NDot, a)
      else if is_e c then Some (NE, a) else None
  | NFrac, None => if is_e c then Some (NE, a) else None
  | NE, None =>
      if Ascii.eqb c "+" then Some (NESign, a)
      else if Ascii.eqb c "-" then Some (NESign, set_eneg a) else None
  | _, _ => None
  end.

Definition num0 (neg : bool) (d : N) : numacc := NumAcc neg d 0 false 0.

(** A character met between tokens. JSON white space is SP, TAB, LF, CR. *)
Definition top_step (c : ascii) : option (list token * lstate) :=
  match c with
  | " " | "009" | "010" | "013" => Some ([], LTop)
  | "{" => Some ([TLBrace], LTop)
  | "}" => Some ([TRBrace], LTop)
  | "[" => Some ([TLBrack], LTop)
  | "]" => Some ([TRBrack], LTop)
  | ":" => Some ([TColon], LTop)
  | "," => Some ([TComma], LTop)
  | "034" => Some ([], LStr "")
  | "-" => Some ([], LNum NMinus (num0 true 0))
  | "0" => Some ([], LNum NZero (num0 false 0))
  | "t" => Some ([], LLit "rue" (JBool true))
  | "f" => Some ([], LLit "alse" (JBool false))
  | "n" => Some ([], LLit "ull" JNull)
  | _ => d ← digit_of c; Some ([], LNum NInt (num0 false d))
  end%char.

Definition hex_of (c : ascii) : option N := JsNumber.radix_digit 16 c.

(** Appends the code unit [code] to the reversed string [acc]. *)
Definition push_unit (code : N) (acc : string) : string :=
  if (code <? 256)%N then String (ascii_of_N code) acc
  else if (code <? 2048)%N then
    String (ascii_of_N (128 + code mod 64))
      (String (ascii_of_N (192 + code / 64)) acc)
  else
    String (ascii_of_N (128 + code mod 64))
      (String (ascii_of_N (128 + (code / 64) mod 64))
         (String (ascii_of_N (224 + code / 4096)) acc)).

Definition lex_step (st : lstate) (c : ascii) : option (list token * lstate) :=
  match st with
  | LTop => top_step c
  | LStr acc =>
      if Ascii.eqb c dquote then Some ([TStr (String.rev acc)], LTop)
      else if Ascii.eqb c "\" then Some ([], LEsc acc)
      else if (N_of_ascii c <? 32)%N then None
      else Some ([], LStr (String c acc))
  | LEsc acc =>
      match c with
      | "034" | "\" | "/" => Some ([], LStr (String c acc))
      | "b" => Some ([], LStr (String "008" acc))
      | "f" => Some ([], LStr (String "012" acc))
      | "n" => Some ([], LStr (String "010" acc))
      | "r" => Some ([], LStr (String "013" acc))
      | "t" => Some ([], LStr (String "009" acc))
      | "u" => Some ([], LUni acc 4 0%N)
      | _ => None
      end%char
  | LUni acc k code =>
      h ← hex_of c;
      let code' := (code * 16 + h)%N in
      match k with
      | 1%nat => Some ([], LStr (push_unit code' acc))
      | _ => Some ([], LUni acc (Nat.pred k) code')
      end
  | LNum ph a =>
      match num_step ph a c with
      | Some (ph', a') => Some ([], LNum ph' a')
      | None =>
          if accepting ph
          then '(toks, st') ← top_step c; Some (TNum (num_finish a) :: toks, st')
          else None
      end
  | LLit rest v =>
      match rest with
      | String d EmptyString => if Ascii.eqb c d then Some ([TLit v], LTop) else None
      | String d rest' => if Ascii.eqb c d then Some ([], LLit rest' v) else None
      | EmptyString => None
      end
  end.

(** The scanner: [out] holds the tokens so far, last first. *)
Fixpoint lex_go (st : lstate) (s : string) (out : list token) : option (list token) :=
  match s with
  | String c s' =>
      '(toks, st') ← lex_step st c;
      lex_go st' s' (List.rev_append toks out)
  | EmptyString =>
      match st with
      | LTop => Some (List.rev out)
      | LNum ph a =>
          if accepting ph then Some (List.rev (TNum (num_finish a) :: out)) else None
      | _ => None
      end
  end.

Definition lex (s : string) : option (list token) := lex_go LTop s [].

(** Own property keys are listed with array indices first, ascending, then
    the other keys in creation order; a key met again keeps its place and
    takes the new value. *)
Definition array_index (k : string) : option N :=
  match k with
  | String "0" EmptyString => Some 0%N
  | String "0" _ | EmptyString => None
  | _ =>
      match JsNumber.span_digits k with
      | (ds, EmptyString) =>
          let n := JsNumber.digits_value ds in
          if (String.length ds <=? 10)%nat && (n <? 4294967295)%N then Some n else None
      | _ => None
      end
  end.

Fixpoint replace_val (k : string) (v : value) (props : list (string * value))
  : list (string * value) :=
  match props with
  | [] => []
  | (k', v') :: rest =>
      if String.eqb k k' then (k, v) :: rest else (k', v') :: replace_val k v rest
  end.

Fixpoint insert_index (i : N) (k : string) (v : value)
  (props : list (string * value)) : list (string * value) :=
  match props with
  | [] => [(k, v)]
  | (k', v') :: rest =>
      match array_index k' with
      | Some j => if (j <? i)%N then (k', v') :: insert_index i k v rest
                  else (k, v) :: props
      | None => (k, v) :: props
      end
  end.

Definition obj_set (props : list (string * value)) (k : string) (v : value)
  : list (string * value) :=
  match assoc k props with
  | Some _ => replace_val k v props
  | None =>
      match array_index k with
      | Some i => insert_index i k v props
      | None => props ++ [(k, v)]
      end
  end.

Inductive frame : Type :=
| FArr (items : list value)                         (* reversed *)
| FObj (props : list (string * value)) (key : string).

Inductive pstate : Type :=
| PValue (stk : list frame)
| PArrFirst (stk : list frame)
| PArrNext (items : list value) (stk : list frame)
| PObjFirst (stk : list frame)
| PObjKey (props : list (string * value)) (stk : list frame)
| PObjColon (props : list (string * value)) (key : string) (stk : list frame)
| PObjNext (props : list (string * value)) (stk : list frame)
| PDone (v : value).

(** A value is complete: hand it to the enclosing array or object. *)
Definition complete (v : value) (stk : list frame) : pstate :=
  match stk with
  | [] => PDone v
  | FArr items :: stk' => PArrNext (v :: items) stk'
  | FObj props key :: stk' => PObjNext (obj_set props key v) stk'
  end.

Definition value_start (tok : token) (stk : list frame) : option pstate :=
  match tok with
  | TStr s => Some (complete (JStr s) stk)
  | TNum x => Some (complete (JNum x) stk)
  | TLit v => Some (complete v stk)
  | TLBrack => Some (PArrFirst stk)
  | TLBrace => Some (PObjFirst stk)
  | _ => None
  end.

Definition pstep (st : pstate) (tok : token) : option pstate :=
  match st, tok with
  | PValue stk, _ => value_start tok stk
  | PArrFirst stk, TRBrack => Some (complete (JArr []) stk)
  | PArrFirst stk, _ => value_start tok (FArr [] :: stk)
  | PArrNext items stk, TComma => Some (PValue (FArr items :: stk))
  | PArrNext items stk, TRBrack => Some (complete (JArr (List.rev items)) stk)
  | PObjFirst stk, TRBrace => Some (complete (JObj []) stk)
  | PObjFirst stk, TStr k => Some (PObjColon [] k stk)
  | PObjKey props stk, TStr k => Some (PObjColon props k stk)
  | PObjColon props k stk, TColon => Some (PValue (FObj props k :: stk))
  | PObjNext props stk, TComma => Some (PObjKey props stk)
  | PObjNext props stk, TRBrace => Some (complete (JObj props) stk)
  | _, _ => None
  end.

Fixpoint parse_go (st : pstate) (toks : list token) : option value :=
  match toks with
  | tok :: rest => st' ← pstep st tok; parse_go st' rest
  | [] => match st with PDone v => Some v | _ => None end
  end.

(** [JSON.parse(text)]; [None] stands for the [SyntaxError] it throws. A
    number is kept as the decimal that is written, which is the double
    [JSON.parse] gives for an integer below [2^53] and for a decimal of at
    most 15 significant digits. *)
Definition parse (text : string) : option value :=
  toks ← lex text; parse_go (PValue []) toks.

End Json.

(** ** Effects: calls to collaborators, exceptions and the trace *)

Module Effects.

(** What a [throw] or a rejected promise carries: an error object, which
    has a message. *)
Inductive error : Type :=
| JsError (message : string)      (* [new Error(message)] of this code *)
| JsSyntaxError                   (* thrown by [JSON.parse] *)
| JsTypeError (message : string)  (* thrown by [new URL] *)
| Rejected (message : string).    (* failure of a collaborator *)

(** [error.message]; the message of a [SyntaxError] is engine-specific,
    non-empty. *)
Definition error_message (e : error) : string :=
  match e with
  | JsError m | JsTypeError m | Rejected m => m
  | JsSyntaxError => "Unexpected token in JSON"
  end.

Inductive outcome (A : Type) : Type :=
| Return (a : A)
| Throw (e : error).
Global Arguments Return {A} a.
Global Arguments Throw {A} e.

Record ChainEvent : Type := { txHash : string; value : string }.

Inductive event : Type :=
| EGetPlan (planId : string)
| EGetPlanBalance (planId : string)
| EGetAgentAccessToken (planId agentDid : string)
| EBalanceOf (token wallet : string)
| EGetBlockNumber
| EOrderPlan (planId : string)
| EFindMintEvent (contract wallet tokenId : string) (fromBlock : Z)
| EFindBurnEvent (contract wallet tokenId : string) (fromBlock : Z)
| EDelay (ms : Z)
| EMcpConnect (endpoint accessToken : string)
| EMcpListTools
| EMcpCallTool (name : string) (arguments : Json.value)
| EMcpClose
| ECompletion (system user : string) (max_tokens : Z)
| ELogError (what : string).

Abbreviation trace := (list event).

(** A computation reads the trace so far and extends it. *)
Definition M (A : Type) : Type := trace → outcome A * trace.

Global Instance M_ret : MRet M := λ A a t, (Return a, t).
Global Instance M_bind : MBind M := λ A B f m t,
  match m t with
  | (Return a, t') => f a t'
  | (Throw e, t') => (Throw e, t')
  end.

Definition throw {A} (e : error) : M A := λ t, (Throw e, t).

(** Records [ev] and answers with what the collaborator gave. *)
Definition call {A} (ev : event) (answer : outcome A) : M A :=
  λ t, (answer, t ++ [ev]).

(** A call whose answer depends on how often it was made before. *)
Definition call_nth {A} (same : event → bool) (ev : event)
  (answer : nat → outcome A) : M A :=
  λ t, (answer (length (filter (λ e, same e = true) t)), t ++ [ev]).

Definition log (what : string) : M unit := call (ELogError what) (Return ()).

(** [try { body } catch (e) { handler(e) }] *)
Definition try_catch {A} (body : M A) (handler : error → M A) : M A :=
  λ t, match body t with
       | (Return a, t') => (Return a, t')
       | (Throw e, t') => handler e t'
       end.

(** [try { body } finally { cleanup }] where [cleanup] cannot throw. *)
Definition try_finally {A} (body : M A) (cleanup : M unit) : M A :=
  λ t, match body t with
       | (r, t') => (r, snd (cleanup t'))
       end.

(** [try { body } catch {}] *)
Definition swallow (body : M unit) : M unit :=
  try_catch body (λ _, mret ()).

Definition run {A} (m : M A) : outcome A * trace := m [].

(** Evaluating a computation on a trace, one layer at a time. *)
Ltac run_unfold :=
  unfold mbind, M_bind, mret, M_ret, call, call_nth, throw, try_catch,
    try_finally, swallow, log.

End Effects.

(** ** The collaborators *)

Module Collab.
Import Effects.

(** The plan descriptor (DDO), with the fields the code reads. *)
Record Price : Type := { tokenAddress : option string; amounts : option (list Z) }.
Record Credits : Type := { amount : option Z; nftAddress : option string }.
Record Registry : Type := { price : option Price; credits : option Credits }.
Record PublicKey : Type := { owner : option string }.
Record DDO : Type := { registry : option Registry; publicKey : option (list PublicKey) }.

Record World : Type := {
  (** [process.env] *)
  env : gmap string string;
  (** [new URL(s)] accepts [s] *)
  urlValid : string → bool;
  (** [Payments.getInstance({nvmApiKey, environment}).isLoggedIn] *)
  isLoggedIn : string → string → bool;
  (** [payments.getAccountAddress()] *)
  accountAddress : option string;
  (** [payments.plans.getPlan(planId)], by the number of earlier fetches;
      [None] is a falsy answer *)
  getPlan : nat → string → outcome (option DDO);
  (** [payments.plans.getPlanBalance(planId)]: the [balance] field *)
  getPlanBalance : string → outcome Z;
  (** [payments.agents.getAgentAccessToken(planId, agentDid)] *)
  agentAccessToken : string → string → outcome string;
  (** ERC20 [balanceOf(wallet)] of a token, in the units of the plan price *)
  erc20Balance : string → string → outcome JsNumber.number;
  (** chain height *)
  blockNumber : outcome Z;
  (** [payments.plans.orderPlan(planId)]: the [success] field *)
  orderPlan : string → outcome bool;
  (** Event Locator, mint; single shot *)
  mintEvent : string → string → string → Z → outcome (option ChainEvent);
  (** Event Locator, burn, by the number of earlier polls *)
  burnEvent : nat → string → string → string → Z → outcome (option ChainEvent);
  (** tool server session *)
  mcpConnect : string → string → outcome ();
  mcpListTools : outcome Json.value;
  mcpCallTool : string → Json.value → outcome Json.value;
  mcpClose : outcome ();
  (** [openai.chat.completions.create]: [choices[0]?.message?.content] *)
  completion : string → string → Z → outcome (option string);
  (** [loadPrompt("llm-router.prompt")]; it never throws *)
  routerPrompt : string
}.

(** Optional chaining [o?.f]. *)
Definition chain {A B : Type} (o : option A) (f : A → option B) : option B :=
  match o with Some a => f a | None => None end.

(** [process.env.NAME] with its truthiness: unset and empty are falsy. *)
Definition getenv (w : World) (name : string) : option string :=
  env w !! name.

End Collab.

Notation "o ?. f" := (Collab.chain o f) (at level 39, left associativity).

(** ** [planDDOHelper.ts] *)

Module PlanDDOHelper.
Import Effects Collab.

(** An instance: [planId] and the cached [ddo] ([None]: not loaded). *)
Record t : Type := { planId : string; ddo : option DDO }.

Definition usdcAddress : string := "0x036CbD53842c5426634e7929541eC2318f3dCF7e".

(** [new PlanDDOHelper(payments, planId)] *)
Definition new (planId : string) : t := {| planId := planId; ddo := None |}.

Definition is_getPlan (e : event) : bool :=
  match e with EGetPlan _ => true | _ => false end.

(** [loadDDO()]: the answer and the instance afterwards. *)
Definition loadDDO (w : World) (h : t) : M (option DDO * t) :=
  match ddo h with
  | Some d => mret (Some d, h)
  | None =>
      d ← call_nth is_getPlan (EGetPlan (planId h)) (λ n, getPlan w n (planId h));
      mret (d, {| planId := planId h; ddo := d |})
  end.

(** The bodies of the accessors, after [const ddo = await this.loadDDO()]. *)

Definition tokenAddressOf (d : option DDO) : option string :=
  d ?. registry ?. price ?. tokenAddress.

(** [amounts?.reduce((acc, curr) => Number(acc) + Number(curr), 0)]: the
    exact sum, which is the sum of the doubles while every partial sum
    stays below [2^53] in absolute value. *)
Definition reduce_amounts (l : list Z) : Z := fold_left (λ acc curr, acc + curr) l 0.

Definition planPriceOf (d : option DDO) : option string :=
  let weiPrice : option string :=
    (λ l, JsNumber.toString (JsNumber.of_Z (reduce_amounts l)))
      <$> (d ?. registry ?. price ?. amounts) in
  if decide (d ?. registry ?. price ?. tokenAddress = Some usdcAddress)
  then Some (JsNumber.toString (JsNumber.div_pow10 (JsNumber.ToNumber weiPrice) 6))
  else weiPrice.

(** [amount || 0] *)
Definition planCreditsOf (d : option DDO) : Z :=
  match d ?. registry ?. credits ?. amount with
  | Some a => if a =? 0 then 0 else a
  | None => 0
  end.

Definition agentWalletOf (d : option DDO) : option string :=
  d ?. publicKey ?. head ?. owner.

Definition contractAddressOf (d : option DDO) : option string :=
  d ?. registry ?. credits ?. nftAddress.

Definition getTokenAddress (w : World) (h : t) : M (option string * t) :=
  '(d, h') ← loadDDO w h; mret (tokenAddressOf d, h').

Definition getPlanPrice (w : World) (h : t) : M (option string * t) :=
  '(d, h') ← loadDDO w h; mret (planPriceOf d, h').

Definition getPlanCredits (w : World) (h : t) : M (Z * t) :=
  '(d, h') ← loadDDO w h; mret (planCreditsOf d, h').

Definition getAgentWallet (w : World) (h : t) : M (option string * t) :=
  '(d, h') ← loadDDO w h; mret (agentWalletOf d, h').

(** The token id is the plan id. *)
Definition getTokenId (w : World) (h : t) : M (string * t) :=
  mret (planId h, h).

Definition get1155ContractAddress (w : World) (h : t) : M (option string * t) :=
  '(d, h') ← loadDDO w h; mret (contractAddressOf d, h').

(** A caller's view of the six accessors, to speak about any sequence of
    calls on one instance. *)
Inductive method : Type :=
| LoadDDO | GetTokenAddress | GetPlanPrice | GetPlanCredits
| GetTokenId | Get1155ContractAddress.

Inductive answer : Type :=
| ADDO (d : option DDO)
| AText (s : option string)
| ANumber (n : Z).

Definition invoke (w : World) (m : method) (h : t) : M (answer * t) :=
  match m with
  | LoadDDO => '(d, h') ← loadDDO w h; mret (ADDO d, h')
  | GetTokenAddress => '(a, h') ← getTokenAddress w h; mret (AText a, h')
  | GetPlanPrice => '(a, h') ← getPlanPrice w h; mret (AText a, h')
  | GetPlanCredits => '(a, h') ← getPlanCredits w h; mret (ANumber a, h')
  | GetTokenId => '(a, h') ← getTokenId w h; mret (AText (Some a), h')
  | Get1155ContractAddress => '(a, h') ← get1155ContractAddress w h; mret (AText a, h')
  end.

(** What a method answers from the record [d] of the plan [planId]. *)
Definition derived (planId : string) (d : DDO) (m : method) : answer :=
  match m with
  | LoadDDO => ADDO (Some d)
  | GetTokenAddress => AText (tokenAddressOf (Some d))
  | GetPlanPrice => AText (planPriceOf (Some d))
  | GetPlanCredits => ANumber (planCreditsOf (Some d))
  | GetTokenId => AText (Some planId)
  | Get1155ContractAddress => AText (contractAddressOf (Some d))
  end.

(** Calls in sequence on one instance; a caller that catches a failure
    goes on with the instance as the failed call left it. *)
Fixpoint invoke_all (w : World) (ms : list method) (h : t) (tr : trace)
  : list (outcome answer) * t * trace :=
  match ms with
  | [] => ([], h, tr)
  | m :: rest =>
      match invoke w m h tr with
      | (Return (a, h'), tr') =>
          let '(answers, h'', tr'') := invoke_all w rest h' tr' in
          (Return a :: answers, h'', tr'')
      | (Throw e, tr') =>
          let '(answers, h'', tr'') := invoke_all w rest h tr' in
          (Throw e :: answers, h'', tr'')
      end
  end.

End PlanDDOHelper.

(** ** [blockchainService.ts] *)

Module BlockchainService.
Import Effects Collab.

(** Modelled from the spec: [hasSufficientERC20Balance] (the file
    [blockchainService.ts] is not among the sources). It verifies that
    "the wallet holds sufficient balance of the settlement token to cover
    price": it reads the balance and answers whether the price, taken as
    a Number, is at most the balance. *)
Definition hasSufficientERC20Balance (w : World)
  (tokenAddress wallet : string) (price : option string) : M bool :=
  balance ← call (EBalanceOf tokenAddress wallet) (erc20Balance w tokenAddress wallet);
  mret (JsNumber.leb (JsNumber.ToNumber price) balance).

(** Modelled from the spec: [getCurrentBlockNumber], the chain height. *)
Definition getCurrentBlockNumber (w : World) : M Z :=
  call EGetBlockNumber (blockNumber w).

(** Modelled from the spec: [findMintEvent], a single-shot query of the
    Event Locator. *)
Definition findMintEvent (w : World) (contract wallet tokenId : string)
  (fromBlock : Z) : M (option ChainEvent) :=
  call (EFindMintEvent contract wallet tokenId fromBlock)
       (mintEvent w contract wallet tokenId fromBlock).

Definition is_findBurn (e : event) : bool :=
  match e with EFindBurnEvent _ _ _ _ => true | _ => false end.

(** Modelled from the spec: [findBurnEvent], a single-shot query of the
    Event Locator; the chain may answer differently from poll to poll. *)
Definition findBurnEvent (w : World) (contract wallet tokenId : string)
  (fromBlock : Z) : M (option ChainEvent) :=
  call_nth is_findBurn (EFindBurnEvent contract wallet tokenId fromBlock)
           (λ n, burnEvent w n contract wallet tokenId fromBlock).

End BlockchainService.

(** ** [paymentsService.ts] *)

Module PaymentsService.
Import Effects Collab BlockchainService.

(** [initializePayments]: the instance is the [World]; only the login
    check can fail. *)
Definition initializePayments (w : World) (nvmApiKey environment : string) : M () :=
  if isLoggedIn w nvmApiKey environment then mret ()
  else throw (JsError "Failed to log in to the Nevermined Payments Library").

(** [parseInt(balanceResult.balance.toString())] of an integer balance
    (below [2^53], where [parseInt] gives the integer itself). *)
Definition getUserCredits (w : World) (nvmApiKey : string) : M JsNumber.number :=
  let environment := JsString.or_else (getenv w "NVM_ENVIRONMENT") "testing" in
  let planId := getenv w "PLAN_ID" in
  if negb (JsString.truthy nvmApiKey) || negb (JsString.truthy_opt planId)
  then throw (JsError "Missing Nevermined API key or plan DID")
  else
    let planId := default "" planId in
    _ ← initializePayments w nvmApiKey environment;
    balance ← call (EGetPlanBalance planId) (getPlanBalance w planId);
    mret (JsNumber.of_Z balance).

Definition getAgentAccessToken (w : World) (nvmApiKey : string) : M (string * string) :=
  let environment := JsString.or_else (getenv w "NVM_ENVIRONMENT") "testing" in
  let planId := getenv w "PLAN_ID" in
  let agentDid := getenv w "AGENT_DID" in
  if negb (JsString.truthy nvmApiKey) || negb (JsString.truthy_opt planId)
     || negb (JsString.truthy_opt agentDid)
  then throw (JsError "Missing config: nvmApiKey, planId, or agentDid")
  else
    let planId := default "" planId in
    let agentDid := default "" agentDid in
    _ ← initializePayments w nvmApiKey environment;
    accessToken ← call (EGetAgentAccessToken planId agentDid)
                       (agentAccessToken w planId agentDid);
    mret (accessToken, agentDid).

(** [new StreamableHTTPClientTransport(new URL(mcpEndpoint), ...)] *)
Definition newTransport (w : World) (mcpEndpoint : string) : M () :=
  if urlValid w mcpEndpoint then mret () else throw (JsTypeError "Invalid URL").

(** [try { await client.close(); } catch {}] *)
Definition closeClient (w : World) : M () :=
  swallow (call EMcpClose (mcpClose w)).

(** The text extraction shared by [createTask] and [callMcpTool]. *)
Definition is_text_block (c : Json.value) : bool :=
  Json.truthy c && String.eqb (Json.typeof c) "object"
  && match Json.get "type" c with
     | Some (Json.JStr ty) => String.eqb ty "text"
     | _ => false
     end.

Definition extract_output (result : Json.value) : string :=
  let outputText :=
    match Json.get "content" result with
    | Some (Json.JArr content) =>
        match List.find is_text_block content with
        | Some textItem =>
            match Json.get "text" textItem with
            | Some (Json.JStr s) => s
            | Some other => Json.stringify other
            | None => ""
            end
        | None => ""
        end
    | _ => ""
    end in
  if negb (JsString.truthy outputText)
  then match result with
       | Json.JStr s => s
       | _ => Json.stringify result
       end
  else outputText.

Record TaskResult : Type := { task_output : string }.

(** [createTask(input, nvmApiKey)] *)
Definition createTask (w : World) (input : Json.value) (nvmApiKey : string)
  : M TaskResult :=
  let mcpEndpoint := JsString.or_else (getenv w "MCP_ENDPOINT") "http://localhost:3001/mcp" in
  '(accessToken, _) ← getAgentAccessToken w nvmApiKey;
  _ ← newTransport w mcpEndpoint;
  try_finally
    (try_catch
       (_ ← call (EMcpConnect mcpEndpoint accessToken) (mcpConnect w mcpEndpoint accessToken);
        let '(toolName, toolArgs) :=
          match input, Json.get "tool" input with
          | Json.JObj _, Some (Json.JStr tool) =>
              (tool,
               match Json.get "args" input with
               | Some a => if Json.truthy a then a else Json.JObj []
               | None => Json.JObj []
               end)
          | _, _ =>
              let toolName :=
                JsString.or_else (getenv w "MCP_TOOL")
                  (if JsString.truthy_opt (getenv w "RAW")
                   then "weather.today.raw" else "weather.today") in
              let inputQuery := if Json.truthy input then Json.ToString input else "" in
              (toolName,
               if JsString.truthy inputQuery
               then Json.JObj [("city", Json.JStr inputQuery)]
               else Json.JObj [])
          end in
        result ← call (EMcpCallTool toolName toolArgs) (mcpCallTool w toolName toolArgs);
        mret {| task_output := extract_output result |})
       (λ error,
          _ ← log "Error creating task:";
          mret {| task_output := "Error creating task" |}))
    (closeClient w).

(** [listMcpTools(nvmApiKey)] *)
Definition listMcpTools (w : World) (nvmApiKey : string) : M Json.value :=
  let mcpEndpoint := JsString.or_else (getenv w "MCP_ENDPOINT") "http://localhost:3001/mcp" in
  '(accessToken, _) ← getAgentAccessToken w nvmApiKey;
  _ ← newTransport w mcpEndpoint;
  try_finally
    (try_catch
       (_ ← call (EMcpConnect mcpEndpoint accessToken) (mcpConnect w mcpEndpoint accessToken);
        call EMcpListTools (mcpListTools w))
       (λ error,
          _ ← log "Error listing MCP tools:";
          mret (Json.JArr [])))
    (closeClient w).

Record ToolOutput : Type := { output : string; content : option Json.value }.

(** [callMcpTool(toolName, args, nvmApiKey)] *)
Definition callMcpTool (w : World) (toolName : string) (args : Json.value)
  (nvmApiKey : string) : M ToolOutput :=
  let mcpEndpoint := JsString.or_else (getenv w "MCP_ENDPOINT") "http://localhost:3001/mcp" in
  '(accessToken, _) ← getAgentAccessToken w nvmApiKey;
  _ ← newTransport w mcpEndpoint;
  try_finally
    (_ ← call (EMcpConnect mcpEndpoint accessToken) (mcpConnect w mcpEndpoint accessToken);
     result ← call (EMcpCallTool toolName args) (mcpCallTool w toolName args);
     mret {| output := extract_output result; content := Json.get "content" result |})
    (closeClient w).

Record OrderResult : Type := {
  success : bool;
  order_txHash : option string;
  order_credits : option string;
  message : string
}.

Definition failed (msg : string) : OrderResult :=
  {| success := false; order_txHash := None; order_credits := None; message := msg |}.

(** [orderPlanCredits(planId, nvmApiKey)]. A [return] from inside the
    [try] block is the [Some] of the block's value. *)
Definition orderPlanCredits (w : World) (planId nvmApiKey : string) : M OrderResult :=
  let environment := getenv w "NVM_ENVIRONMENT" in
  if negb (JsString.truthy nvmApiKey) || negb (JsString.truthy_opt environment)
  then throw (JsError "Missing Nevermined API key or environment")
  else
    _ ← initializePayments w nvmApiKey (default "" environment);
    let planHelper := PlanDDOHelper.new planId in
    '(_, planHelper) ← PlanDDOHelper.loadDDO w planHelper;
    (* 1. Get plan price and token address *)
    '(planPrice, planHelper) ← PlanDDOHelper.getPlanPrice w planHelper;
    '(tokenAddress, planHelper) ← PlanDDOHelper.getTokenAddress w planHelper;
    if negb (JsString.truthy_opt tokenAddress)
    then mret (failed "Token address not found in plan DDO")
    else
      let tokenAddress := default "" tokenAddress in
      (* 2. Get our wallet address *)
      let ourWallet := JsString.or_else (accountAddress w) "" in
      if negb (JsString.truthy ourWallet)
      then mret (failed "Wallet address not found")
      else
        (* 3. Check if we have enough USDC *)
        hasBalance ← hasSufficientERC20Balance w tokenAddress ourWallet planPrice;
        if negb hasBalance
        then mret (failed "Insufficient USDC balance to purchase credits")
        else
          (* 4. Call orderPlan *)
          fromBlock ← getCurrentBlockNumber w;
          returned ← try_catch
            (orderResult ← call (EOrderPlan planId) (orderPlan w planId);
             if negb orderResult
             then mret (Some (failed "Failed to order credits for plan"))
             else mret None)
            (λ error,
               _ ← log "Error ordering plan credits:";
               mret (Some (failed (JsString.or_else (Some (error_message error))
                                     "Failed to order credits for plan"))));
          match returned with
          | Some r => mret r
          | None =>
              (* 5. Find mint event *)
              '(contractAddress, planHelper) ←
                PlanDDOHelper.get1155ContractAddress w planHelper;
              '(tokenId, planHelper) ← PlanDDOHelper.getTokenId w planHelper;
              mintEvent ←
                (if JsString.truthy_opt contractAddress
                 then findMintEvent w (default "" contractAddress) ourWallet tokenId fromBlock
                 else mret None);
              (* 6. Return result *)
              match mintEvent with
              | Some ev =>
                  mret {| success := true;
                          order_txHash := Some (txHash ev);
                          order_credits := Some (value ev);
                          message := "Credits purchased and added to your balance. (tx: "
                                     +:+ txHash ev +:+ ")" |}
              | None =>
                  mret {| success := true; order_txHash := None; order_credits := None;
                          message := "Credits purchased and added to your balance." |}
              end
          end.

Record BurnInfo : Type := { burn_txHash : string; burn_credits : string; burn_planId : string }.

(** The polling loop of [getBurnTransactionInfo], entered with
    [burnEvent = null]; [remaining] is [10 - attempts], so that
    [attempts < 10] reads [remaining > 0]. *)
Fixpoint pollBurnEvent (w : World) (contract wallet tokenId : string)
  (fromBlock : Z) (remaining : nat) : M (option ChainEvent) :=
  match remaining with
  | O => mret None
  | S remaining' =>
      burnEvent ← findBurnEvent w contract wallet tokenId fromBlock;
      match burnEvent with
      | Some ev => mret (Some ev)
      | None =>
          _ ← (match remaining' with
               | O => mret ()
               | S _ => call (EDelay 5000) (Return ())
               end);
          pollBurnEvent w contract wallet tokenId fromBlock remaining'
      end
  end.

(** [getBurnTransactionInfo(fromBlock, nvmApiKey)] *)
Definition getBurnTransactionInfo (w : World) (fromBlock : Z) (nvmApiKey : string)
  : M (option BurnInfo) :=
  let environment := JsString.or_else (getenv w "NVM_ENVIRONMENT") "testing" in
  let planId := getenv w "PLAN_ID" in
  if negb (JsString.truthy nvmApiKey) || negb (JsString.truthy_opt planId)
  then throw (JsError "Missing config")
  else
    let planId := default "" planId in
    _ ← initializePayments w nvmApiKey environment;
    let planHelper := PlanDDOHelper.new planId in
    '(_, planHelper) ← PlanDDOHelper.loadDDO w planHelper;
    '(contractAddress, planHelper) ← PlanDDOHelper.get1155ContractAddress w planHelper;
    '(tokenId, planHelper) ← PlanDDOHelper.getTokenId w planHelper;
    let ourWallet := JsString.or_else (accountAddress w) "" in
    if negb (JsString.truthy_opt contractAddress) || negb (JsString.truthy tokenId)
       || negb (JsString.truthy ourWallet)
    then throw (JsError "Missing contract, tokenId or wallet")
    else
      burnEvent ← pollBurnEvent w (default "" contractAddress) ourWallet tokenId fromBlock 10;
      match burnEvent with
      | Some ev =>
          mret (Some {| burn_txHash := txHash ev; burn_credits := value ev;
                        burn_planId := planId |})
      | None => mret None
      end.

Record PlanCost : Type := { planPrice : option string; planCredits : Z }.

(** [getPlanCost(nvmApiKey)] *)
Definition getPlanCost (w : World) (nvmApiKey : string) : M PlanCost :=
  let environment := JsString.or_else (getenv w "NVM_ENVIRONMENT") "testing" in
  let planId := getenv w "PLAN_ID" in
  if negb (JsString.truthy nvmApiKey) || negb (JsString.truthy_opt planId)
  then throw (JsError "Missing config")
  else
    let planId := default "" planId in
    _ ← initializePayments w nvmApiKey environment;
    let planHelper := PlanDDOHelper.new planId in
    '(_, planHelper) ← PlanDDOHelper.loadDDO w planHelper;
    '(planPrice, planHelper) ← PlanDDOHelper.getPlanPrice w planHelper;
    '(planCredits, planHelper) ← PlanDDOHelper.getPlanCredits w planHelper;
    mret {| planPrice := planPrice; planCredits := planCredits |}.

End PaymentsService.

(** ** [llmService.ts] *)

Module LlmService.
Import Effects Collab.
Import JsString (dq, dquote).

Definition nl : string := String "010" EmptyString.

(** [text.match(/\{[\s\S]*\}/)]: from the first opening brace to the last
    closing brace after it. *)
Fixpoint from_first (c : ascii) (s : string) : option string :=
  match s with
  | EmptyString => None
  | String d s' => if Ascii.eqb c d then Some s else from_first c s'
  end.

Fixpoint upto_last (c : ascii) (s : string) : option string :=
  match s with
  | EmptyString => None
  | String d s' =>
      match upto_last c s' with
      | Some t => Some (String d t)
      | None => if Ascii.eqb c d then Some (String d EmptyString) else None
      end
  end.

Definition match_braces (text : string) : option string :=
  from_first "{" text ≫= upto_last "}".

Definition router_system : string :=
  "You are an assistant that decides how to process messages in a chat with a Nevermined agent. Only respond with a valid JSON with the action and a reason if applicable.".

Definition router_prompt (basePrompt message : string) (history : option Json.value)
  (credits : JsNumber.number) : string :=
  basePrompt +:+ nl +:+ nl +:+
  "Conversation history (for context):" +:+ nl +:+
  Json.stringify (match history with
                  | Some h => if Json.truthy h then h else Json.JArr []
                  | None => Json.JArr []
                  end) +:+ nl +:+ nl +:+
  "User message:" +:+ nl +:+
  String dquote message +:+ String dquote nl +:+ nl +:+
  "User credits: " +:+ JsNumber.toString credits +:+ nl +:+ nl +:+
  "Response:".

(** [completion.choices[0]?.message?.content?.trim() || ""] *)
Definition content_text (content : option string) : string :=
  JsString.or_else (JsString.trim <$> content) "".

(** The parsing policy of [llmRouter], on the trimmed text. *)
Definition parse_decision (text : string) : outcome Json.value :=
  match Json.parse text with
  | Some json => Return json
  | None =>
      match match_braces text with
      | Some m =>
          match Json.parse m with
          | Some json => Return json
          | None => Throw JsSyntaxError
          end
      | None => Throw (JsError "LLM did not return valid JSON")
      end
  end.

(** [llmRouter(message, history, credits)] *)
Definition llmRouter (w : World) (message : string) (history : option Json.value)
  (credits : JsNumber.number) : M Json.value :=
  let basePrompt := routerPrompt w in
  let prompt := router_prompt basePrompt message history credits in
  content ← call (ECompletion router_system prompt 512)
                 (completion w router_system prompt 512);
  let text := content_text content in
  match parse_decision text with
  | Return json => mret json
  | Throw e => throw e
  end.

Record ConversationMessage : Type := { role : string; content : string }.

Definition history_lines (history : list ConversationMessage) : string :=
  Json.join nl
    (List.map (λ msg, (if String.eqb (role msg) "user" then "User" else "Assistant")
                      +:+ ": " +:+ content msg) history).

Definition tools_system : string :=
  "You convert conversation intent into a strict JSON tool call that adheres to the provided MCP tools' input schemas. Return ONLY valid JSON with tool and args.".

Definition sentence_system : string :=
  "You synthesize the user's intent from a conversation into a single, clear English sentence suitable as an instruction for the given agent context. Be concise and specific.".

Definition toolsSection (toolsCatalog : option Json.value) : string :=
  match toolsCatalog with
  | Some catalog =>
      if Json.truthy catalog then
        nl +:+ nl +:+ "Available MCP tools (with input schemas):" +:+ nl +:+
        Json.stringify catalog +:+ nl +:+ nl +:+
        "Task: Choose the most appropriate tool and produce ONLY a JSON object with this shape:"
        +:+ nl +:+
        dq "{ `tool`: `<tool_name>`, `args`: { /* keys and values matching the tool's inputSchema */ } }"
        +:+ nl +:+
        "- Ensure args strictly follow the inputSchema types and required fields." +:+ nl +:+
        "- Do NOT add fields that are not in the schema." +:+ nl +:+
        "- If multiple tools apply, pick the most specific." +:+ nl +:+
        "- Do not include any explanations, only the JSON."
      else
        nl +:+ nl +:+
        "Task: Synthesize ONE clear English sentence that captures the user's intent suitable as an instruction for the agent above. Do not include system text, disclaimers, or extra commentary. Return only the sentence."
  | None =>
      nl +:+ nl +:+
      "Task: Synthesize ONE clear English sentence that captures the user's intent suitable as an instruction for the agent above. Do not include system text, disclaimers, or extra commentary. Return only the sentence."
  end.

Definition synth_prompt (history : list ConversationMessage) (agentContext : string)
  (toolsCatalog : option Json.value) : string :=
  "Agent Context (domain and behavior):" +:+ nl +:+ agentContext +:+ nl +:+ nl +:+
  "Conversation history:" +:+ nl +:+ history_lines history +:+
  toolsSection toolsCatalog +:+ nl +:+ nl +:+ "Response:".

(** What the synthesizer resolves to: the raw text or the parsed object. *)
Inductive Intent : Type :=
| IText (text : string)
| ITool (obj : Json.value).

(** [obj && typeof obj.tool === "string" && typeof obj.args === "object"] *)
Definition has_tool_shape (obj : Json.value) : bool :=
  Json.truthy obj
  && String.eqb (Json.typeof_opt (Json.get "tool" obj)) "string"
  && String.eqb (Json.typeof_opt (Json.get "args" obj)) "object".

(** The tail of [llmIntentSynthesizer], on the trimmed text. *)
Definition select_intent (toolsCatalog : option Json.value) (text : string) : Intent :=
  if Json.truthy_opt toolsCatalog then
    match Json.parse text with
    | Some obj => if has_tool_shape obj then ITool obj else IText text
    | None => IText text
    end
  else IText text.

(** [llmIntentSynthesizer(history, agentContext, toolsCatalog)] *)
Definition llmIntentSynthesizer (w : World) (history : list ConversationMessage)
  (agentContext : string) (toolsCatalog : option Json.value) : M Intent :=
  let system := if Json.truthy_opt toolsCatalog then tools_system else sentence_system in
  let prompt := synth_prompt history agentContext toolsCatalog in
  content ← call (ECompletion system prompt 64) (completion w system prompt 64);
  let text := content_text content in
  mret (select_intent toolsCatalog text).

End LlmService.

(** ** [routes.ts]: [POST /api/llm-router] *)

Module Routes.
Import Effects Collab.

Record Request : Type := {
  body_message : option Json.value;
  body_history : option Json.value;
  authorization : option string
}.

Record Response : Type := { status : Z; body : Json.value }.

Definition error_body (msg : string) : Json.value :=
  Json.JObj [("error", Json.JStr msg)].

(** The credits the router is called with. *)
Definition resolve_credits (w : World) (authHeader : option string) : M JsNumber.number :=
  match authHeader with
  | Some auth =>
      if JsString.truthy auth && JsString.startsWith auth "Bearer " then
        let nvmApiKey := JsString.trim (JsString.replace "Bearer " "" auth) in
        if JsString.truthy nvmApiKey then
          try_catch (PaymentsService.getUserCredits w nvmApiKey)
                    (λ e, mret (JsNumber.of_Z 0))
        else mret (JsNumber.of_Z 0)
      else mret (JsNumber.of_Z 0)
  | None => mret (JsNumber.of_Z 0)
  end.

Definition llm_router (w : World) (req : Request) : M Response :=
  match body_message req with
  | Some (Json.JStr message) =>
      try_catch
        (credits ← resolve_credits w (authorization req);
         result ← LlmService.llmRouter w message (body_history req) credits;
         mret {| status := 200; body := result |})
        (λ err,
           mret {| status := 500;
                   body := error_body "Failed to call LLM or get credits" |})
  | _ => mret {| status := 400; body := error_body "Missing message" |}
  end.

End Routes.

(** ** Concrete worlds, used by the examples *)

Module Sample.
Import Effects Collab.
Import JsString (dq).

Definition usdcPlan (l : list Z) : DDO :=
  {| registry := Some {|
       price := Some {| tokenAddress := Some PlanDDOHelper.usdcAddress;
                        amounts := Some l |};
       credits := Some {| amount := Some 100; nftAddress := Some "0xNFT" |} |};
     publicKey := Some [ {| owner := Some "0xOwner" |} ] |}.

Definition otherPlan (l : list Z) : DDO :=
  {| registry := Some {|
       price := Some {| tokenAddress := Some "0xOtherToken"; amounts := Some l |};
       credits := Some {| amount := Some 100; nftAddress := Some "0xNFT" |} |};
     publicKey := None |}.

Definition textResult (s : string) : Json.value :=
  Json.JObj [("content", Json.JArr [Json.JObj [("type", Json.JStr "text");
                                               ("text", Json.JStr s)]])].

(** A world in which every collaborator answers. *)
Definition world : World :=
  {| env := {[ "NVM_ENVIRONMENT" := "sandbox"; "PLAN_ID" := "plan-1";
               "AGENT_DID" := "did:nv:agent" ]};
     urlValid := λ _, true;
     isLoggedIn := λ _ _, true;
     accountAddress := Some "0xWallet";
     getPlan := λ _ _, Return (Some (usdcPlan [5000000]));
     getPlanBalance := λ _, Return 7;
     agentAccessToken := λ _ _, Return "token";
     erc20Balance := λ _ _, Return (JsNumber.Dec 3 0);
     blockNumber := Return 1000;
     orderPlan := λ _, Return true;
     mintEvent := λ _ _ _ _, Return None;
     burnEvent := λ n _ _ _ _,
       if (n <? 2)%nat then Return None
       else Return (Some {| txHash := "0xburn"; value := "1" |});
     mcpConnect := λ _ _, Return ();
     mcpListTools := Return (Json.JObj [("tools", Json.JArr [])]);
     mcpCallTool := λ _ _, Return (textResult "72F");
     mcpClose := Return ();
     completion := λ _ _ _, Return (Some (dq "{`action`:`forward`}"));
     routerPrompt := "Decide." |}.

Definition with_env (e : gmap string string) (w : World) : World :=
  {| env := e; urlValid := urlValid w; isLoggedIn := isLoggedIn w;
     accountAddress := accountAddress w; getPlan := getPlan w;
     getPlanBalance := getPlanBalance w; agentAccessToken := agentAccessToken w;
     erc20Balance := erc20Balance w; blockNumber := blockNumber w;
     orderPlan := orderPlan w; mintEvent := mintEvent w; burnEvent := burnEvent w;
     mcpConnect := mcpConnect w; mcpListTools := mcpListTools w;
     mcpCallTool := mcpCallTool w; mcpClose := mcpClose w;
     completion := completion w; routerPrompt := routerPrompt w |}.

Definition with_plan (d : DDO) (w : World) : World :=
  {| env := env w; urlValid := urlValid w; isLoggedIn := isLoggedIn w;
     accountAddress := accountAddress w; getPlan := λ _ _, Return (Some d);
     getPlanBalance := getPlanBalance w; agentAccessToken := agentAccessToken w;
     erc20Balance := erc20Balance w; blockNumber := blockNumber w;
     orderPlan := orderPlan w; mintEvent := mintEvent w; burnEvent := burnEvent w;
     mcpConnect := mcpConnect w; mcpListTools := mcpListTools w;
     mcpCallTool := mcpCallTool w; mcpClose := mcpClose w;
     completion := completion w; routerPrompt := routerPrompt w |}.

Definition with_burn (f : nat → option ChainEvent) (w : World) : World :=
  {| env := env w; urlValid := urlValid w; isLoggedIn := isLoggedIn w;
     accountAddress := accountAddress w; getPlan := getPlan w;
     getPlanBalance := getPlanBalance w; agentAccessToken := agentAccessToken w;
     erc20Balance := erc20Balance w; blockNumber := blockNumber w;
     orderPlan := orderPlan w; mintEvent := mintEvent w;
     burnEvent := λ n _ _ _ _, Return (f n);
     mcpConnect := mcpConnect w; mcpListTools := mcpListTools w;
     mcpCallTool := mcpCallTool w; mcpClose := mcpClose w;
     completion := completion w; routerPrompt := routerPrompt w |}.

Definition with_balance (b : outcome Z) (w : World) : World :=
  {| env := env w; urlValid := urlValid w; isLoggedIn := isLoggedIn w;
     accountAddress := accountAddress w; getPlan := getPlan w;
     getPlanBalance := λ _, b; agentAccessToken := agentAccessToken w;
     erc20Balance := erc20Balance w; blockNumber := blockNumber w;
     orderPlan := orderPlan w; mintEvent := mintEvent w; burnEvent := burnEvent w;
     mcpConnect := mcpConnect w; mcpListTools := mcpListTools w;
     mcpCallTool := mcpCallTool w; mcpClose := mcpClose w;
     completion := completion w; routerPrompt := routerPrompt w |}.

Definition with_connect (c : outcome ()) (w : World) : World :=
  {| env := env w; urlValid := urlValid w; isLoggedIn := isLoggedIn w;
     accountAddress := accountAddress w; getPlan := getPlan w;
     getPlanBalance := getPlanBalance w; agentAccessToken := agentAccessToken w;
     erc20Balance := erc20Balance w; blockNumber := blockNumber w;
     orderPlan := orderPlan w; mintEvent := mintEvent w; burnEvent := burnEvent w;
     mcpConnect := λ _ _, c; mcpListTools := mcpListTools w;
     mcpCallTool := mcpCallTool w; mcpClose := mcpClose w;
     completion := completion w; routerPrompt := routerPrompt w |}.

Definition with_tool (r : outcome Json.value) (w : World) : World :=
  {| env := env w; urlValid := urlValid w; isLoggedIn := isLoggedIn w;
     accountAddress := accountAddress w; getPlan := getPlan w;
     getPlanBalance := getPlanBalance w; agentAccessToken := agentAccessToken w;
     erc20Balance := erc20Balance w; blockNumber := blockNumber w;
     orderPlan := orderPlan w; mintEvent := mintEvent w; burnEvent := burnEvent w;
     mcpConnect := mcpConnect w; mcpListTools := r;
     mcpCallTool := λ _ _, r; mcpClose := mcpClose w;
     completion := completion w; routerPrompt := routerPrompt w |}.

Definition with_completion (c : outcome (option string)) (w : World) : World :=
  {| env := env w; urlValid := urlValid w; isLoggedIn := isLoggedIn w;
     accountAddress := accountAddress w; getPlan := getPlan w;
     getPlanBalance := getPlanBalance w; agentAccessToken := agentAccessToken w;
     erc20Balance := erc20Balance w; blockNumber := blockNumber w;
     orderPlan := orderPlan w; mintEvent := mintEvent w; burnEvent := burnEvent w;
     mcpConnect := mcpConnect w; mcpListTools := mcpListTools w;
     mcpCallTool := mcpCallTool w; mcpClose := mcpClose w;
     completion := λ _ _ _, c; routerPrompt := routerPrompt w |}.

End Sample.


(** ** Notions used to state the properties *)

Module Spec.
Import Effects Collab.

(** [k] polls of the Event Locator with a delay of 5000 ms between two
    consecutive polls. *)
Fixpoint schedule (poll : event) (k : nat) : trace :=
  match k with
  | O => []
  | S O => [poll]
  | S k' => poll :: EDelay 5000 :: schedule poll k'
  end.

Definition is_delay (e : event) : bool :=
  match e with EDelay _ => true | _ => false end.

Definition is_orderPlan (e : event) : bool :=
  match e with EOrderPlan _ => true | _ => false end.

Definition is_callTool (e : event) : bool :=
  match e with EMcpCallTool _ _ => true | _ => false end.

(** The default tool: the one configured in [MCP_TOOL], else
    ["weather.today.raw"] when [RAW] is set, else ["weather.today"]; a
    variable set to the empty string counts as unset. *)
Definition default_tool (mcp_tool raw : option string) : string :=
  match mcp_tool, raw with
  | Some (String c s), _ => String c s
  | _, Some (String _ _) => "weather.today.raw"
  | _, _ => "weather.today"
  end.

(** The arguments made from a plain text input. *)
Definition city_args (input : string) : Json.value :=
  match input with
  | EmptyString => Json.JObj []
  | _ => Json.JObj [("city", Json.JStr input)]
  end.

(** The endpoint of the tool server. *)
Definition endpoint (w : World) : string :=
  JsString.or_else (getenv w "MCP_ENDPOINT") "http://localhost:3001/mcp".

(** The conditions under which a session with the tool server is opened:
    the configuration is complete, the principal is logged in, the ledger
    issues an access token and the endpoint is a URL. *)
Record session_opens (w : World) (nvmApiKey planId agentDid accessToken : string)
  : Prop := {
  so_key : JsString.truthy nvmApiKey = true;
  so_plan : getenv w "PLAN_ID" = Some planId;
  so_plan_set : JsString.truthy planId = true;
  so_agent : getenv w "AGENT_DID" = Some agentDid;
  so_agent_set : JsString.truthy agentDid = true;
  so_login : isLoggedIn w nvmApiKey
               (JsString.or_else (getenv w "NVM_ENVIRONMENT") "testing") = true;
  so_token : agentAccessToken w planId agentDid = Return accessToken;
  so_url : urlValid w (endpoint w) = true
}.

(** The session cannot be used: connecting fails with [e], or it succeeds
    and every request on the session fails with [e]. *)
Definition transport_fails (w : World) (accessToken : string) (e : error) : Prop :=
  mcpConnect w (endpoint w) accessToken = Throw e
  ∨ (mcpConnect w (endpoint w) accessToken = Return ()
     ∧ mcpListTools w = Throw e
     ∧ ∀ name args, mcpCallTool w name args = Throw e).

(** The API key read from an [Authorization] header. *)
Definition api_key (auth : string) : string :=
  JsString.trim (JsString.replace "Bearer " "" auth).

(** No credential is supplied: no header, no bearer scheme or no key. *)
Definition no_credential (auth : option string) : Prop :=
  match auth with
  | None => True
  | Some a => JsString.startsWith a "Bearer " = false ∨ JsString.truthy (api_key a) = false
  end.

(** A credential is supplied and the credit lookup fails. *)
Definition lookup_fails (w : World) (auth : option string) : Prop :=
  ∃ a e, auth = Some a
         ∧ JsString.startsWith a "Bearer " = true
         ∧ JsString.truthy (api_key a) = true
         ∧ (run (PaymentsService.getUserCredits w (api_key a))).1 = Throw e.

(** What the router gives for the answer of the completion provider. *)
Definition router_outcome (w : World) (message : string) (history : option Json.value)
  (credits : JsNumber.number) : outcome Json.value :=
  match completion w LlmService.router_system
          (LlmService.router_prompt (routerPrompt w) message history credits) 512 with
  | Return content => LlmService.parse_decision (LlmService.content_text content)
  | Throw e => Throw e
  end.

(** The response of the handler to an outcome of the router. *)
Definition router_response (o : outcome Json.value) : Routes.Response :=
  match o with
  | Return json => {| Routes.status := 200; Routes.body := json |}
  | Throw _ => {| Routes.status := 500;
                  Routes.body := Routes.error_body "Failed to call LLM or get credits" |}
  end.

(** The value has the shape [{tool: text, args: object}], where an array
    and [null] are objects too. *)
Definition tool_shape (obj : Json.value) : Prop :=
  ∃ tool args, Json.get "tool" obj = Some (Json.JStr tool)
               ∧ Json.get "args" obj = Some args
               ∧ Json.typeof args = "object".

(** The text [{"action":"no_credit"}] and the decision it denotes. *)
Definition no_credit_text : string := JsString.dq "{`action`:`no_credit`}".
Definition no_credit : Json.value := Json.JObj [("action", Json.JStr "no_credit")].

(** The characters of a decimal numeral in scientific notation. *)
Definition numchar (c : ascii) : bool :=
  JsNumber.isDigit c || Ascii.eqb c "." || Ascii.eqb c "e"
  || Ascii.eqb c "+" || Ascii.eqb c "-".

(** What follows a run of digits: nothing, or a character that is no digit. *)
Definition ends_digits (rest : string) : Prop :=
  match rest with
  | String c _ => JsNumber.isDigit c = false
  | EmptyString => True
  end.

(** Two finite numbers with the same value. *)
Definition same_value (x y : JsNumber.number) : Prop :=
  match JsNumber.value x, JsNumber.value y with
  | Some a, Some b => Qeq a b
  | _, _ => False
  end.

(** The text [s] denotes the rational [q]. *)
Definition denotes (s : string) (q : Q) : Prop :=
  ∃ q', JsNumber.value (JsNumber.StringToNumber s) = Some q' ∧ Qeq q' q.

(** The price components of a plan descriptor. *)
Definition price_components (d : DDO) : option (list Z) :=
  Some d ?. registry ?. price ?. amounts.

(** The plan is priced in the designated stablecoin. *)
Definition in_stablecoin (d : DDO) : Prop :=
  PlanDDOHelper.tokenAddressOf (Some d) = Some PlanDDOHelper.usdcAddress.

(** The sum of the price components. *)
Definition total (l : list Z) : Z := foldr Z.add 0 l.

End Spec.

(** ** [paymentsService.ts]: [getTask] *)

Module PaymentsTasks.
Import Effects Collab.

(** [getTask(task_id, _nvmApiKey)]: a no-op result, kept for compatibility. *)
Definition getTask (task_id _nvmApiKey : string) : M Json.value :=
  mret (Json.JObj [("ok", Json.JBool true); ("task_id", Json.JStr task_id)]).

End PaymentsTasks.

(** ** [llmService.ts]: [llmTitleSummarizer] *)

Module TitleService.
Import Effects Collab LlmService.

Definition title_system : string :=
  "You create short, professional titles for financial advice and market analysis chats. Favor assets, markets, timeframes, or actions. Use Title Case, avoid emojis and terminal punctuation.".

Definition title_prompt (history : list ConversationMessage) : string :=
  "You are generating a concise title for a financial advice/analysis conversation. Produce a short, clear title (6-10 words) that captures the user's financial goal or topic. Prefer including concrete assets/tickers (e.g., BTC, ETH, AAPL), markets (crypto, stocks), timeframe (short/long term) or action (analyze, compare, portfolio). Use Title Case, no emojis, and no trailing period."
  +:+ nl +:+ nl +:+ "Conversation history:" +:+ nl +:+ history_lines history
  +:+ nl +:+ nl +:+ "Title:".

(** [llmTitleSummarizer(history)]; the result is
    [completion.choices[0]?.message?.content?.trim() || "Untitled"]. *)
Definition llmTitleSummarizer (w : World) (history : list ConversationMessage) : M string :=
  let prompt := title_prompt history in
  content ← call (ECompletion title_system prompt 16) (completion w title_system prompt 16);
  mret (JsString.or_else (JsString.trim <$> content) "Untitled").

End TitleService.

(** ** [routes.ts]: the handlers of the other routes *)

Module Handlers.
Import Effects Collab.

(** What a handler reads of a request. *)
Record Request : Type := {
  req_body : option Json.value;        (* [req.body]; [None] is [undefined] *)
  req_query : gmap string string;      (* [req.query], parameters given once *)
  req_authorization : option string    (* [req.headers.authorization] *)
}.

(** [res.status(s).json(b)]; [res.json(b)] is [respond 200 b]. *)
Definition respond (s : Z) (b : Json.value) : Routes.Response :=
  {| Routes.status := s; Routes.body := b |}.

(** A property whose value may be [undefined]: [JSON.stringify] leaves it out. *)
Definition optional (k : string) (o : option Json.value) : list (string * Json.value) :=
  match o with Some v => [(k, v)] | None => [] end.

(** [const { k } = req.body]: destructuring [undefined] or [null] throws. *)
Definition destructure (body : option Json.value) : M Json.value :=
  match body with
  | None | Some Json.JNull => throw (JsTypeError "Cannot destructure property of req.body")
  | Some b => mret b
  end.

(** The block every protected handler repeats: the API key of the
    [Authorization] header, or the 401 response. *)
Definition bearer (authHeader : option string) : Routes.Response + string :=
  match authHeader with
  | Some auth =>
      if JsString.truthy auth && JsString.startsWith auth "Bearer " then
        let nvmApiKey := JsString.trim (JsString.replace "Bearer " "" auth) in
        if JsString.truthy nvmApiKey then inr nvmApiKey
        else inl (respond 401 (Routes.error_body "Missing API Key"))
      else inl (respond 401 (Routes.error_body "Missing or invalid Authorization header"))
  | None => inl (respond 401 (Routes.error_body "Missing or invalid Authorization header"))
  end.

(** [GET /api/credit] *)
Definition api_credit (w : World) (req : Request) : M Routes.Response :=
  try_catch
    (match bearer (req_authorization req) with
     | inl r => mret r
     | inr nvmApiKey =>
         credit ← PaymentsService.getUserCredits w nvmApiKey;
         mret (respond 200 (Json.JObj [("credit", Json.JNum credit)]))
     end)
    (λ err,
       _ ← log "Error fetching credit:";
       mret (respond 500 (Routes.error_body "Failed to fetch credit"))).

(** [POST /api/order-plan] *)
Definition api_order_plan (w : World) (req : Request) : M Routes.Response :=
  let planId := getenv w "PLAN_ID" in
  if negb (JsString.truthy_opt planId)
  then mret (respond 500 (Routes.error_body "Missing plan DID"))
  else
    let planId := default "" planId in
    match bearer (req_authorization req) with
    | inl r => mret r
    | inr nvmApiKey =>
        result ← PaymentsService.orderPlanCredits w planId nvmApiKey;
        if PaymentsService.success result then
          mret (respond 200
                  (Json.JObj
                     ([("message",
                        Json.JStr (JsString.or_else (Some (PaymentsService.message result))
                                     "Plan purchased successfully. You now have credits!"))]
                      ++ optional "txHash" (Json.JStr <$> PaymentsService.order_txHash result)
                      ++ optional "credits" (Json.JStr <$> PaymentsService.order_credits result)
                      ++ [("planId", Json.JStr planId)])))
        else mret (respond 402 (Routes.error_body (PaymentsService.message result)))
    end.

(** [POST /api/agent] *)
Definition api_agent (w : World) (req : Request) : M Routes.Response :=
  body ← destructure (req_body req);
  let inputQuery := Json.get "input_query" body in
  if negb (String.eqb (Json.typeof_opt inputQuery) "string")
     && negb (Json.truthy_opt inputQuery
              && String.eqb (Json.typeof_opt inputQuery) "object"
              && String.eqb (Json.typeof_opt (inputQuery ≫= Json.get "tool")) "string")
  then mret (respond 400 (Routes.error_body "Missing or invalid input_query"))
  else
    match bearer (req_authorization req) with
    | inl r => mret r
    | inr nvmApiKey =>
        try_catch
          ((* the check above passed: [inputQuery] is defined *)
           agentResponse ← PaymentsService.createTask w (default Json.JNull inputQuery) nvmApiKey;
           mret (respond 200
                   (Json.JObj [("output",
                                Json.JStr (PaymentsService.task_output agentResponse))])))
          (λ error,
             _ ← log "Error creating task:";
             mret (respond 500 (Routes.error_body "Failed to call agent")))
    end.

(** [GET /api/mcp/tools] *)
Definition api_mcp_tools (w : World) (req : Request) : M Routes.Response :=
  match bearer (req_authorization req) with
  | inl r => mret r
  | inr nvmApiKey =>
      try_catch
        (tools ← PaymentsService.listMcpTools w nvmApiKey;
         mret (respond 200 tools))
        (λ err,
           _ ← log "Error listing MCP tools:";
           mret (respond 500 (Routes.error_body "Failed to list MCP tools")))
  end.

(** [x || {}] on a value that may be [undefined]. *)
Definition or_empty (o : option Json.value) : Json.value :=
  match o with
  | Some v => if Json.truthy v then v else Json.JObj []
  | None => Json.JObj []
  end.

(** [POST /api/mcp/tool] *)
Definition api_mcp_tool (w : World) (req : Request) : M Routes.Response :=
  let body := or_empty (req_body req) in
  let tool := Json.get "tool" body in
  let args := Json.get "args" body in
  match tool with
  | Some (Json.JStr tool) =>
      if Json.truthy_opt args && negb (String.eqb (Json.typeof_opt args) "object")
      then mret (respond 400 (Routes.error_body "Invalid args"))
      else
        match bearer (req_authorization req) with
        | inl r => mret r
        | inr nvmApiKey =>
            try_catch
              (result ← PaymentsService.callMcpTool w tool (or_empty args) nvmApiKey;
               mret (respond 200
                       (Json.JObj
                          ([("output", Json.JStr (PaymentsService.output result))]
                           ++ optional "content" (PaymentsService.content result)))))
              (λ err,
                 _ ← log "Error calling MCP tool:";
                 mret (respond 500 (Routes.error_body "Failed to call MCP tool")))
        end
  | _ => mret (respond 400 (Routes.error_body "Missing tool"))
  end.

(** [GET /api/latest-block] *)
Definition api_latest_block (w : World) (req : Request) : M Routes.Response :=
  try_catch
    (blockNumber ← BlockchainService.getCurrentBlockNumber w;
     mret (respond 200 (Json.JObj [("blockNumber", Json.JNum (JsNumber.of_Z blockNumber))])))
    (λ err, mret (respond 500 (Routes.error_body "Failed to fetch latest block"))).

(** [GET /api/task] *)
Definition api_task (w : World) (req : Request) : M Routes.Response :=
  let task_id := req_query req !! "task_id" in
  if negb (JsString.truthy_opt task_id)
  then mret (respond 400 (Routes.error_body "Missing task_id"))
  else
    match bearer (req_authorization req) with
    | inl r => mret r
    | inr nvmApiKey =>
        task ← PaymentsTasks.getTask (default "" task_id) nvmApiKey;
        mret (respond 200 task)
    end.

(** [GET /api/plan/cost] *)
Definition api_plan_cost (w : World) (req : Request) : M Routes.Response :=
  match bearer (req_authorization req) with
  | inl r => mret r
  | inr nvmApiKey =>
      try_catch
        (result ← PaymentsService.getPlanCost w nvmApiKey;
         mret (respond 200
                 (Json.JObj
                    (optional "planPrice" (Json.JStr <$> PaymentsService.planPrice result)
                     ++ [("planCredits",
                          Json.JNum (JsNumber.of_Z (PaymentsService.planCredits result)))]))))
        (λ err,
           mret (respond 500 (Routes.error_body "Failed to get plan price and credits")))
  end.

End Handlers.

(** ** [promptService.ts] *)

Module PromptService.

Record CachedPrompt : Type := { content : string; lastModified : Z }.

(** The prompt files as one call finds them, by file name ([process.cwd()]
    is fixed): [statSync(path).mtime.getTime()] and
    [readFileSync(path, "utf-8")]; [None] when the call throws. *)
Record Files : Type := {
  mtime : string → option Z;
  readFile : string → option string
}.

(** The module's state: the [promptCache] map, and the files read so far
    (every [readFileSync], in order). *)
Record State : Type := {
  promptCache : gmap string CachedPrompt;
  reads : list string
}.

Definition empty : State := {| promptCache := ∅; reads := [] |}.

Definition nl : string := String "010" EmptyString.

(** The text returned when the file cannot be loaded. *)
Definition fallback (filename : string) : string :=
  if String.eqb filename "agent.prompt" then
    "You are a helpful AI assistant. Please provide accurate and helpful responses to user queries."
    +:+ nl +:+ nl +:+
    "If you cannot access the specific prompt file, please respond with general helpful information while noting that the specialized prompt could not be loaded."
  else if String.eqb filename "llm-router.prompt" then
    "You are an assistant that routes user messages. If you cannot access the specific prompt file, respond with 'no_action' and ask the user to clarify their request."
  else "Default prompt for " +:+ filename +:+ ". Please provide helpful responses.".

(** [cached && stats.mtime.getTime() <= cached.lastModified]: the cached
    text when the file has not changed since it was read. *)
Definition unchanged (modified : Z) (cached : option CachedPrompt) : option string :=
  match cached with
  | Some c => if modified <=? lastModified c then Some (content c) else None
  | None => None
  end.

(** [loadPrompt(filename)]: the prompt and the state afterwards. Whatever
    throws inside is caught and answered with the fallback text. *)
Definition loadPrompt (fs : Files) (filename : string) (st : State) : string * State :=
  match mtime fs filename with
  | None => (fallback filename, st)
  | Some modified =>
      match unchanged modified (promptCache st !! filename) with
      | Some text => (text, st)
      | None =>
          match readFile fs filename with
          | Some prompt =>
              (prompt,
               {| promptCache := <[filename := {| content := prompt;
                                                  lastModified := modified |}]>
                                   (promptCache st);
                  reads := reads st ++ [filename] |})
          | None =>
              (fallback filename,
               {| promptCache := promptCache st; reads := reads st ++ [filename] |})
          end
      end
  end.

Definition loadAgentPrompt (fs : Files) (st : State) : string * State :=
  loadPrompt fs "agent.prompt" st.

Definition loadLLMRouterPrompt (fs : Files) (st : State) : string * State :=
  loadPrompt fs "llm-router.prompt" st.

(** [reloadPrompt(filename)]: [promptCache.delete(filename)], then a load. *)
Definition reloadPrompt (fs : Files) (filename : string) (st : State) : string * State :=
  loadPrompt fs filename
    {| promptCache := delete filename (promptCache st); reads := reads st |}.

Definition reloadAgentPrompt (fs : Files) (st : State) : string * State :=
  reloadPrompt fs "agent.prompt" st.

Definition reloadLLMRouterPrompt (fs : Files) (st : State) : string * State :=
  reloadPrompt fs "llm-router.prompt" st.

(** [getCachedPrompt(filename)]; [None] is [null]. *)
Definition getCachedPrompt (filename : string) (st : State) : option string :=
  content <$> promptCache st !! filename.

Definition getCachedAgentPrompt (st : State) : option string :=
  getCachedPrompt "agent.prompt" st.

Definition getCachedLLMRouterPrompt (st : State) : option string :=
  getCachedPrompt "llm-router.prompt" st.

(** Loads in sequence, each with the files as they are at that moment. *)
Fixpoint loadAll (calls : list (Files * string)) (st : State) : list string * State :=
  match calls with
  | [] => ([], st)
  | (fs, filename) :: rest =>
      let '(p, st') := loadPrompt fs filename st in
      let '(ps, st'') := loadAll rest st' in
      (p :: ps, st'')
  end.

End PromptService.

(** ** JSON texts: the values that are written and read back unchanged *)

Module JsonText.
Import Json.

(** Keys that an object keeps in the order of their insertion: pairwise
    distinct, and none of them an array index. *)
Fixpoint plain_keys (ks : list string) : bool :=
  match ks with
  | [] => true
  | k :: rest =>
      negb (existsb (String.eqb k) rest)
      && match array_index k with None => true | Some _ => false end
      && plain_keys rest
  end.

(** A value as [JSON.parse] builds it from the text [JSON.stringify]
    writes for it: its numbers are integers below [2^53] in absolute value
    (the integers a double holds exactly and writes with all their
    digits), and the keys of each of its objects are plain. *)
Fixpoint canonical (v : value) : bool :=
  match v with
  | JNull | JBool _ | JStr _ => true
  | JNum (JsNumber.Dec m 0) => Z.abs m <? 2 ^ 53
  | JNum _ => false
  | JArr items => forallb canonical items
  | JObj props =>
      forallb (λ kv, canonical (snd kv)) props && plain_keys (List.map fst props)
  end.

(** The token sequences of a list of members, separated by commas. *)
Fixpoint commas (members : list (list token)) : list token :=
  match members with
  | [] => []
  | [m] => m
  | m :: rest => m ++ TComma :: commas rest
  end.

(** The tokens of the text [JSON.stringify] writes for a value. *)
Fixpoint tokens (v : value) : list token :=
  match v with
  | JNull => [TLit JNull]
  | JBool b => [TLit (JBool b)]
  | JNum x => [TNum x]
  | JStr s => [TStr s]
  | JArr items => TLBrack :: commas (List.map tokens items) ++ [TRBrack]
  | JObj props =>
      TLBrace
      :: commas (List.map (λ kv, TStr (fst kv) :: TColon :: tokens (snd kv)) props)
      ++ [TRBrace]
  end.

(** What may follow a value inside a text: nothing, a comma or a closing
    bracket or brace. *)
Definition delimited (rest : string) : Prop :=
  match rest with
  | EmptyString => True
  | String c _ => c = ","%char ∨ c = "]"%char ∨ c = "}"%char
  end.

End JsonText.

(** ** [paymentsService.ts]: [redeemCredits], and [POST /api/burn-credits] *)

Module Redemption.
Import Effects Collab.

(** What [payments.plans.redeemCredits] resolves to: the truthiness of
    [success], and [txHash] and [message] when they are there. *)
Record Receipt : Type := {
  receipt_success : bool;
  receipt_txHash : option string;
  receipt_message : option string
}.

(** The redeeming side of the ledger:
    [payments.plans.redeemCredits(agentId, planId, redeemFrom, creditsAmount)];
    [None] is a falsy answer. *)
Record Ledger : Type := {
  redeemAnswer : string → string → string → string → outcome (option Receipt)
}.

(** The trace, with the redeem requests next to the events known so far. *)
Inductive action : Type :=
| Earlier (e : event)
| ERedeemCredits (agentId planId redeemFrom creditsAmount : string).

Definition R (A : Type) : Type := list action → outcome A * list action.

Global Instance R_ret : MRet R := λ A a t, (Return a, t).
Global Instance R_bind : MBind R := λ A B f m t,
  match m t with
  | (Return a, t') => f a t'
  | (Throw e, t') => (Throw e, t')
  end.

Definition fail {A} (e : error) : R A := λ t, (Throw e, t).

(** Records the request and answers with what the ledger gave. *)
Definition request {A} (a : action) (answer : outcome A) : R A :=
  λ t, (answer, t ++ [a]).

(** [try { body } catch (e) { handler(e) }] *)
Definition attempt {A} (body : R A) (handler : error → R A) : R A :=
  λ t, match body t with
       | (Return a, t') => (Return a, t')
       | (Throw e, t') => handler e t'
       end.

(** The events of a trace that are no redeem requests. *)
Definition earlier (t : list action) : trace :=
  omap (λ a, match a with Earlier e => Some e | ERedeemCredits _ _ _ _ => None end) t.

(** A computation of the other services, run in this trace. *)
Definition lift {A} (m : M A) : R A :=
  λ t, match m (earlier t) with
       | (o, t') => (o, t ++ (Earlier <$> drop (length (earlier t)) t'))
       end.

Definition execute {A} (m : R A) : outcome A * list action := m [].

Record RedeemResult : Type := {
  redeem_success : bool;
  redeem_txHash : option string;
  redeem_message : string
}.

(** [redeemCredits(planId, creditsAmount, nvmApiKey)] *)
Definition redeemCredits (w : World) (l : Ledger)
  (planId creditsAmount nvmApiKey : string) : R RedeemResult :=
  let environment := JsString.or_else (getenv w "NVM_ENVIRONMENT") "testing" in
  let agentId := getenv w "AGENT_DID" in
  if negb (JsString.truthy nvmApiKey) || negb (JsString.truthy planId)
     || negb (JsString.truthy_opt agentId)
  then fail (JsError "Missing Nevermined API key or plan DID")
  else
    let agentId := default "" agentId in
    _ ← lift (PaymentsService.initializePayments w nvmApiKey environment);
    let redeemFrom := accountAddress w in
    if negb (JsString.truthy_opt redeemFrom)
    then fail (JsError "Wallet address not found")
    else
      let redeemFrom := default "" redeemFrom in
      attempt
        (result ← request (ERedeemCredits agentId planId redeemFrom creditsAmount)
                          (redeemAnswer l agentId planId redeemFrom creditsAmount);
         match result with
         | Some r =>
             if receipt_success r then
               mret {| redeem_success := true;
                       redeem_txHash := receipt_txHash r;
                       redeem_message := JsString.or_else (receipt_message r)
                                           "Credits redeemed successfully." |}
             else
               mret {| redeem_success := false; redeem_txHash := None;
                       redeem_message := JsString.or_else (receipt_message r)
                                           "Failed to redeem credits." |}
         | None =>
             mret {| redeem_success := false; redeem_txHash := None;
                     redeem_message := "Failed to redeem credits." |}
         end)
        (λ err,
           mret {| redeem_success := false; redeem_txHash := None;
                   redeem_message := JsString.or_else (Some (error_message err))
                                       "Error redeeming credits." |}).

(** A decimal [m * 10^e] so close to zero that the nearest double is
    zero: it is at most [2^-1075], half the least positive double (at the
    half, the tie goes to zero, whose significand is even). *)
Definition underflows (m e : Z) : bool :=
  if 0 <=? e then m =? 0 else Z.abs m * 2 ^ 1075 <=? 10 ^ (- e).

(** A decimal [m * 10^e] so large that the nearest double is an infinity:
    it is at least [2^1024 - 2^970], half way from the largest double to
    [2^1024]. *)
Definition overflows (m e : Z) : bool :=
  if 0 <=? e then 2 ^ 1024 - 2 ^ 970 <=? Z.abs m * 10 ^ e
  else (2 ^ 1024 - 2 ^ 970) * 10 ^ (- e) <=? Z.abs m.

(** The double a decimal is read as, as far as zero and the infinities go:
    a decimal that underflows is zero and one that overflows is an
    infinity. Any other decimal stands for the double nearest to it, which
    is a number on the same side of zero. *)
Definition to_double (x : JsNumber.number) : JsNumber.number :=
  match x with
  | JsNumber.Dec m e =>
      if underflows m e then JsNumber.Dec 0 0
      else if overflows m e then JsNumber.Inf (m <? 0)
      else x
  | other => other
  end.

(** [Number(v)] for a value of a JSON body; an object or an array goes
    through [String(v)]. *)
Definition ToNumber (v : Json.value) : JsNumber.number :=
  to_double
    match v with
    | Json.JNull => JsNumber.Dec 0 0
    | Json.JBool true => JsNumber.Dec 1 0
    | Json.JBool false => JsNumber.Dec 0 0
    | Json.JNum x => x
    | Json.JStr s => JsNumber.StringToNumber s
    | Json.JArr _ | Json.JObj _ => JsNumber.StringToNumber (Json.ToString v)
    end.

Definition isNaN (x : JsNumber.number) : bool :=
  match x with JsNumber.NaN => true | _ => false end.

(** [POST /api/burn-credits] *)
Definition api_burn_credits (w : World) (l : Ledger) (req : Handlers.Request)
  : R Routes.Response :=
  body ← lift (Handlers.destructure (Handlers.req_body req));
  let credits := Json.get "credits" body in
  if negb (Json.truthy_opt credits)
     || isNaN (ToNumber (default Json.JNull credits))
     || JsNumber.leb (ToNumber (default Json.JNull credits)) (JsNumber.Dec 0 0)
  then mret (Handlers.respond 400 (Routes.error_body "Missing or invalid credits amount"))
  else
    let planId := getenv w "PLAN_ID" in
    if negb (JsString.truthy_opt planId)
    then mret (Handlers.respond 500 (Routes.error_body "Missing plan DID"))
    else
      let planId := default "" planId in
      match Handlers.bearer (Handlers.req_authorization req) with
      | inl r => mret r
      | inr nvmApiKey =>
          result ← redeemCredits w l planId
                     (Json.ToString (default Json.JNull credits)) nvmApiKey;
          if redeem_success result then
            mret (Handlers.respond 200
                    (Json.JObj
                       ([("success", Json.JBool true)]
                        ++ Handlers.optional "txHash" (Json.JStr <$> redeem_txHash result)
                        ++ [("message", Json.JStr (redeem_message result))])))
          else
            mret (Handlers.respond 400 (Routes.error_body (redeem_message result)))
      end.

End Redemption.

(** ** [scripts/buy-plan.ts] *)

Module BuyPlan.
Import Effects Collab.

(** What [payments.plans.orderPlan] resolves to, as the script reads it. *)
Record OrderReceipt : Type := {
  receipt_success : bool;
  receipt_message : option string;
  receipt_txHash : option string
}.

(** How the process ends: [main] ran to its end, or [process.exit(code)]. *)
Inductive ending : Type :=
| Completed
| Exit (code : Z).

Definition is_getPlan (e : event) : bool :=
  match e with EGetPlan _ => true | _ => false end.

(** [main()], with [argv2] for [process.argv[2]] and [order] for the
    answer of [payments.plans.orderPlan]; [Some code] when the process
    was ended by [process.exit(code)] on the way. Only what the script
    writes with [console.error] is recorded; the price and the credits it
    displays are computed inside the [try] block, whose every failure is
    caught the same way, and [payments.getAccountAddress()] is taken to
    return. *)
Definition main (w : World) (order : string → outcome (option OrderReceipt))
  (argv2 : option string) : M (option Z) :=
  let apiKey := JsString.trim (JsString.or_else (getenv w "CLIENT_NVM_API_KEY") "") in
  let planIdArg := JsString.trim <$> argv2 in
  let planId :=
    match planIdArg with
    | Some a => if JsString.truthy a then a
                else JsString.trim (JsString.or_else (getenv w "PLAN_ID") "")
    | None => JsString.trim (JsString.or_else (getenv w "PLAN_ID") "")
    end in
  let environment :=
    let e := JsString.trim (JsString.or_else (getenv w "NVM_ENVIRONMENT") "staging_sandbox") in
    if JsString.truthy e then e else "staging_sandbox" in
  if negb (JsString.truthy apiKey) then
    _ ← log "Missing CLIENT_NVM_API_KEY. Please export your Nevermined API key as CLIENT_NVM_API_KEY.";
    mret (Some 1)
  else if negb (JsString.truthy planId) then
    _ ← log "Missing plan DID. Provide it as CLI arg or set PLAN_ID in the environment.";
    mret (Some 1)
  else if negb (isLoggedIn w apiKey environment) then
    throw (JsError "Failed to log in to the Nevermined Payments Library")
  else
    (* Optional: display plan price and credits *)
    _ ← try_catch
          (ddo ← call_nth is_getPlan (EGetPlan planId) (λ n, getPlan w n planId);
           mret ())
          (λ e, mret ());
    (* Place the order *)
    result ← call (EOrderPlan planId) (order planId);
    match result with
    | Some r =>
        if receipt_success r then mret None
        else throw (JsError (JsString.or_else (receipt_message r)
                               "Failed to order credits for plan"))
    | None => throw (JsError "Failed to order credits for plan")
    end.

(** [main().catch((err) => { console.error(err?.message || err);
    process.exit(1); })] *)
Definition script (w : World) (order : string → outcome (option OrderReceipt))
  (argv2 : option string) : M ending :=
  try_catch
    (code ← main w order argv2;
     mret (match code with Some c => Exit c | None => Completed end))
    (λ err,
       _ ← log (error_message err);
       mret (Exit 1)).

End BuyPlan.

(** ** [client/src/lib/utils.ts]: [extractApiKeyFromUrl] *)

Module ClientUtils.

(** A URL as the [URL] class presents it: [searchParams] are the decoded
    pairs of the query, in order. *)
Record Url : Type := {
  origin : string;
  pathname : string;
  searchParams : list (string * string);
  hash : string
}.

(** [url.searchParams.get(name)]: the first value of that name. *)
Fixpoint get (name : string) (params : list (string * string)) : option string :=
  match params with
  | [] => None
  | (k, v) :: rest => if String.eqb k name then Some v else get name rest
  end.

(** [url.searchParams.delete(name)]: every pair of that name goes. *)
Definition delete (name : string) (params : list (string * string))
  : list (string * string) :=
  List.filter (λ kv, negb (String.eqb (fst kv) name)) params.

(** [a || b] on [string | null] operands. *)
Definition or_null (a b : option string) : option string :=
  match a with
  | Some s => if JsString.truthy s then a else b
  | None => b
  end.

(** [extractApiKeyFromUrl(cleanUrl)]. [location] is the parsed
    [window.location.href], [None] when reading or parsing it throws;
    [serialize] writes a query, as the [URL] class does, and
    [window.history.replaceState] is taken to succeed. The result is the
    key ([None] is [null]) and the URL handed to [replaceState], if
    any. *)
Definition extractApiKeyFromUrl (serialize : list (string * string) → string)
  (location : option Url) (cleanUrl : bool) : option string * option string :=
  match location with
  | None => (None, None)
  | Some url =>
      let apiKey :=
        or_null (or_null (get "api_key" (searchParams url))
                         (get "nvmApiKey" (searchParams url)))
          (get "nvm_api_key" (searchParams url)) in
      if JsString.truthy_opt apiKey && cleanUrl then
        let params :=
          delete "nvm_api_key" (delete "nvmApiKey" (delete "api_key" (searchParams url))) in
        let search := match params with [] => "" | _ => "?" +:+ serialize params end in
        let newUrl := origin url +:+ pathname url +:+ search +:+ hash url in
        (apiKey, Some newUrl)
      else (apiKey, None)
  end.

End ClientUtils.

(** ** More notions used to state the properties *)

Module Notions.
Import Effects Collab.

(** How many events of a trace satisfy [p]. *)
Definition count (p : event → bool) (t : trace) : nat :=
  length (filter (λ e, p e = true) t).

Definition is_balanceOf (e : event) : bool :=
  match e with EBalanceOf _ _ => true | _ => false end.

Definition is_mint (e : event) : bool :=
  match e with EFindMintEvent _ _ _ _ => true | _ => false end.

Definition is_connect (e : event) : bool :=
  match e with EMcpConnect _ _ => true | _ => false end.

Definition is_close (e : event) : bool :=
  match e with EMcpClose => true | _ => false end.

Definition is_log (e : event) : bool :=
  match e with ELogError _ => true | _ => false end.

Definition is_request (e : event) : bool :=
  match e with EMcpCallTool _ _ | EMcpListTools => true | _ => false end.

(** Every event of [t] that satisfies [q] has an event that satisfies [p]
    somewhere before it. *)
Definition follows (p q : event → bool) (t : trace) : Prop :=
  ∀ (before : trace) (e : event) (later : trace),
    t = before ++ e :: later → q e = true →
    ∃ e', e' ∈ before ∧ p e' = true.

(** No event of [t] concerns the tool server. *)
Definition offline (t : trace) : Prop :=
  count is_connect t = 0%nat ∧ count is_request t = 0%nat ∧ count is_close t = 0%nat.

(** A trace that either never reaches the tool server, or holds exactly
    one session with it: what comes before the connect does not concern
    the tool server, at most one request is sent and it is sent between the
    connect and the close, and the close is the last event of the trace. *)
Definition bracketed (t : trace) : Prop :=
  offline t
  ∨ ∃ (before : trace) (endpoint token : string) (inside : trace),
      t = before ++ EMcpConnect endpoint token :: inside ++ [EMcpClose]
      ∧ offline before
      ∧ count is_connect inside = 0%nat ∧ count is_close inside = 0%nat
      ∧ (count is_request inside ≤ 1)%nat.

(** A text of ASCII characters only: every code unit is below 128. *)
Definition ascii_text (s : string) : bool :=
  JsString.all_chars (λ c, (N_of_ascii c <? 128)%N) s.

(** A value whose [String(v)] and [Number(v)] the embedding computes as
    the code does: [null], a boolean, an ASCII string, or a number of at
    most 15 significant digits that is no closer to zero than [10^-300]
    and below [10^305] (such a decimal is the shortest text of its
    double). *)
Definition plain_scalar (v : Json.value) : bool :=
  match v with
  | Json.JNull | Json.JBool _ => true
  | Json.JStr s => ascii_text s
  | Json.JNum (JsNumber.Dec m e) => (Z.abs m <? 10 ^ 15) && (-300 <=? e) && (e <=? 290)
  | _ => false
  end.

(** The [credits] of a request body, when there is one, is a plain scalar. *)
Definition plain_credits (req : Handlers.Request) : bool :=
  match Handlers.req_body req ≫= Json.get "credits" with
  | Some credits => plain_scalar credits
  | None => true
  end.

(** The accessors of [PlanDDOHelper] that go through [loadDDO]: all but
    [getTokenId]. *)
Definition loads (m : PlanDDOHelper.method) : bool :=
  match m with PlanDDOHelper.GetTokenId => false | _ => true end.

(** The handlers that ask for a bearer key. *)
Definition protected : list (World → Handlers.Request → M Routes.Response) :=
  [Handlers.api_credit; Handlers.api_order_plan; Handlers.api_agent;
   Handlers.api_mcp_tools; Handlers.api_mcp_tool; Handlers.api_task;
   Handlers.api_plan_cost].

(** The handlers whose body is wrapped in a [try] with a [catch], or
    cannot throw. *)
Definition guarded : list (World → Handlers.Request → M Routes.Response) :=
  [Handlers.api_credit; Handlers.api_mcp_tools; Handlers.api_mcp_tool;
   Handlers.api_latest_block; Handlers.api_task; Handlers.api_plan_cost].

(** The query parameters that carry an API key. *)
Definition key_names : list string := ["api_key"; "nvmApiKey"; "nvm_api_key"].

(** What [buy-plan.ts] works with: the buyer's key, the plan (the
    command-line argument when it is not blank, else [PLAN_ID]) and the
    environment, all trimmed. *)
Definition buyer_key (w : World) : string :=
  JsString.trim (JsString.or_else (getenv w "CLIENT_NVM_API_KEY") "").

Definition buyer_plan (w : World) (argv2 : option string) : string :=
  match argv2 with
  | Some a => if JsString.truthy (JsString.trim a) then JsString.trim a
              else JsString.trim (JsString.or_else (getenv w "PLAN_ID") "")
  | None => JsString.trim (JsString.or_else (getenv w "PLAN_ID") "")
  end.

Definition buyer_environment (w : World) : string :=
  let e := JsString.trim (JsString.or_else (getenv w "NVM_ENVIRONMENT") "staging_sandbox") in
  if JsString.truthy e then e else "staging_sandbox".

(** The conditions under which [orderPlanCredits] reaches the ledger: the
    configuration is complete, the principal is logged in, the plan record
    [d] names the settlement token, the wallet is known and its balance
    covers the price. *)
Record order_ready (w : World) (planId nvmApiKey : string) (d : DDO)
  (token wallet : string) : Prop := {
  or_key : JsString.truthy nvmApiKey = true;
  or_env : JsString.truthy_opt (getenv w "NVM_ENVIRONMENT") = true;
  or_login : isLoggedIn w nvmApiKey (default "" (getenv w "NVM_ENVIRONMENT")) = true;
  or_plan : getPlan w 0 planId = Return (Some d);
  or_token : PlanDDOHelper.tokenAddressOf (Some d) = Some token;
  or_token_set : JsString.truthy token = true;
  or_wallet : accountAddress w = Some wallet;
  or_wallet_set : JsString.truthy wallet = true;
  or_covered : ∃ balance, erc20Balance w token wallet = Return balance
                 ∧ JsNumber.leb (JsNumber.ToNumber (PlanDDOHelper.planPriceOf (Some d)))
                                balance = true
}.

End Notions.

(** ** More concrete worlds *)

Module Scenario.
Import Effects Collab.

(** [Sample.world] with the chain and the ledger answering as given. *)
Definition chain (balance : outcome JsNumber.number) (block : outcome Z)
  (order : outcome bool) (mint : outcome (option ChainEvent)) (w : World) : World :=
  {| env := env w; urlValid := urlValid w; isLoggedIn := isLoggedIn w;
     accountAddress := accountAddress w; getPlan := getPlan w;
     getPlanBalance := getPlanBalance w; agentAccessToken := agentAccessToken w;
     erc20Balance := λ _ _, balance; blockNumber := block;
     orderPlan := λ _, order; mintEvent := λ _ _ _ _, mint; burnEvent := burnEvent w;
     mcpConnect := mcpConnect w; mcpListTools := mcpListTools w;
     mcpCallTool := mcpCallTool w; mcpClose := mcpClose w;
     completion := completion w; routerPrompt := routerPrompt w |}.

(** A wallet that holds 9 units of the token, at block 1000. *)
Definition funded (order : outcome bool) (mint : outcome (option ChainEvent)) : World :=
  chain (Return (JsNumber.Dec 9 0)) (Return 1000) order mint Sample.world.

(** The plan is fetched with the answers [f], by the number of earlier fetches. *)
Definition with_getPlan (f : nat → outcome (option DDO)) (w : World) : World :=
  {| env := env w; urlValid := urlValid w; isLoggedIn := isLoggedIn w;
     accountAddress := accountAddress w; getPlan := λ n _, f n;
     getPlanBalance := getPlanBalance w; agentAccessToken := agentAccessToken w;
     erc20Balance := erc20Balance w; blockNumber := blockNumber w;
     orderPlan := orderPlan w; mintEvent := mintEvent w; burnEvent := burnEvent w;
     mcpConnect := mcpConnect w; mcpListTools := mcpListTools w;
     mcpCallTool := mcpCallTool w; mcpClose := mcpClose w;
     completion := completion w; routerPrompt := routerPrompt w |}.

(** Prompt files: every file was modified at [m] and holds [text]; and a
    directory without files. *)
Definition disk (m : Z) (text : string) : PromptService.Files :=
  {| PromptService.mtime := λ _, Some m; PromptService.readFile := λ _, Some text |}.

Definition no_disk : PromptService.Files :=
  {| PromptService.mtime := λ _, None; PromptService.readFile := λ _, None |}.

(** A ledger that gives every redeem request the same answer. *)
Definition ledger (answer : outcome (option Redemption.Receipt)) : Redemption.Ledger :=
  {| Redemption.redeemAnswer := λ _ _ _ _, answer |}.

(** A buyer's shell: [Sample.world] with [CLIENT_NVM_API_KEY] set. *)
Definition buyer : World :=
  Sample.with_env {[ "CLIENT_NVM_API_KEY" := " key "; "PLAN_ID" := "plan-1" ]} Sample.world.

(** The page a checkout returns to, with the key in its query. *)
Definition returned : ClientUtils.Url :=
  {| ClientUtils.origin := "http://localhost:3000";
     ClientUtils.pathname := "/chat";
     ClientUtils.searchParams :=
       [("tab", "1"); ("nvmApiKey", "k-1"); ("api_key", ""); ("lang", "en")];
     ClientUtils.hash := "#top" |}.

(** A query written without escaping, enough for plain names and values. *)
Fixpoint plain_query (params : list (string * string)) : string :=
  match params with
  | [] => ""
  | [(k, v)] => k +:+ "=" +:+ v
  | (k, v) :: rest => k +:+ "=" +:+ v +:+ "&" +:+ plain_query rest
  end.

End Scenario.

(** * Properties *)

(** ** Running computations *)

Module RunFacts.
Import Effects.

Lemma bind_eq {A B} (m : M A) (f : A → M B) (t : trace) :
  (m ≫= f) t = match m t with
               | (Return a, t') => f a t'
               | (Throw e, t') => (Throw e, t')
               end.
Proof. reflexivity. Qed.

Lemma count_snoc (same : event → bool) (t : trace) (e : event) :
  length (filter (λ x, same x = true) (t ++ [e]))
  = (length (filter (λ x, same x = true) t) + (if same e then 1 else 0))%nat.
Proof.
  rewrite filter_app, length_app. f_equal.
  rewrite filter_cons. by destruct (same e).
Qed.

End RunFacts.

(** ** Burn confirmation: the polling loop *)

Module BurnFacts.
Import Effects Collab BlockchainService PaymentsService Spec RunFacts.

Section Polling.
Variables (w : World) (contract wallet tokenId : string) (fromBlock : Z).

Let poll : event := EFindBurnEvent contract wallet tokenId fromBlock.
Let polls (t : trace) : nat := length (filter (λ x, is_findBurn x = true) t).

Lemma findBurnEvent_run (t : trace) :
  findBurnEvent w contract wallet tokenId fromBlock t
  = (burnEvent w (polls t) contract wallet tokenId fromBlock, t ++ [poll]).
Proof. reflexivity. Qed.

Lemma pollBurnEvent_run (remaining : nat) :
  ∀ (k : nat) (found : option ChainEvent) (t : trace),
    (1 ≤ k ≤ remaining)%nat →
    (∀ i, (i < k - 1)%nat →
          burnEvent w (polls t + i) contract wallet tokenId fromBlock = Return None) →
    burnEvent w (polls t + (k - 1)) contract wallet tokenId fromBlock = Return found →
    (found = None → k = remaining) →
    pollBurnEvent w contract wallet tokenId fromBlock remaining t
    = (Return found, t ++ schedule poll k).
Proof.
  induction remaining as [|r IH]; intros k found t Hk Hnone Hlast Hend; [lia|].
  cbn [pollBurnEvent]. rewrite bind_eq, findBurnEvent_run.
  destruct (decide (k = 1%nat)) as [->|Hk1].
  - rewrite Nat.add_0_r in Hlast. rewrite Hlast.
    destruct found as [ev|]; [reflexivity|].
    assert (r = 0%nat) as -> by (specialize (Hend eq_refl); lia). reflexivity.
  - rewrite <- (Nat.add_0_r (polls t)), (Hnone 0%nat) by lia.
    destruct r as [|r']; [lia|].
    rewrite bind_eq. unfold call at 1.
    rewrite (IH (k - 1)%nat found).
    + destruct k as [|[|k']]; try lia.
      replace (S (S k') - 1)%nat with (S k') by lia.
      by rewrite <- !app_assoc.
    + lia.
    + intros i Hi. unfold polls. rewrite !count_snoc. simpl.
      replace (_ + 1 + 0 + i)%nat with (polls t + S i)%nat by (unfold polls; lia).
      apply Hnone. lia.
    + unfold polls. rewrite !count_snoc. simpl.
      replace (_ + 1 + 0 + (k - 1 - 1))%nat with (polls t + (k - 1))%nat
        by (unfold polls; lia).
      exact Hlast.
    + intros H. specialize (Hend H). lia.
Qed.

Lemma schedule_polls (k : nat) :
  length (filter (λ x, is_findBurn x = true) (schedule poll k)) = k.
Proof.
  induction k as [|k IH]; [done|]. destruct k as [|k']; [done|].
  change (schedule poll (S (S k'))) with (poll :: EDelay 5000 :: schedule poll (S k')).
  rewrite filter_cons_True by reflexivity.
  rewrite filter_cons_False by (simpl; congruence).
  cbn [length]. by rewrite IH.
Qed.

Lemma schedule_delays (k : nat) :
  filter (λ x, is_delay x = true) (schedule poll k) = replicate (k - 1) (EDelay 5000).
Proof.
  induction k as [|k IH]; [done|]. destruct k as [|k']; [done|].
  change (schedule poll (S (S k'))) with (poll :: EDelay 5000 :: schedule poll (S k')).
  rewrite filter_cons_False by (subst poll; simpl; congruence).
  rewrite filter_cons_True by reflexivity. rewrite IH.
  by replace (S (S k') - 1)%nat with (S (S k' - 1)) by lia.
Qed.

End Polling.

(** C2. [getBurnTransactionInfo] polls the Event Locator at most 10 times
    with a delay of 5000 ms between consecutive polls. When the Locator
    answers the first [k - 1] polls with no event and the [k]-th poll
    ([1 <= k <= 10]) with [found], which is either a match or, for
    [k = 10], again no event, the operation makes exactly [k] polls and
    [k - 1] delays and returns normally: the match, or [null] after the
    tenth poll. *)
Theorem getBurnTransactionInfo_polling
  (w : World) (fromBlock : Z) (nvmApiKey planId contract wallet : string)
  (d : DDO) (k : nat) (found : option ChainEvent) :
  JsString.truthy nvmApiKey = true →
  getenv w "PLAN_ID" = Some planId →
  JsString.truthy planId = true →
  isLoggedIn w nvmApiKey (JsString.or_else (getenv w "NVM_ENVIRONMENT") "testing") = true →
  getPlan w 0 planId = Return (Some d) →
  PlanDDOHelper.contractAddressOf (Some d) = Some contract →
  JsString.truthy contract = true →
  accountAddress w = Some wallet →
  JsString.truthy wallet = true →
  (1 ≤ k ≤ 10)%nat →
  (∀ i, (i < k - 1)%nat →
        burnEvent w i contract wallet planId fromBlock = Return None) →
  burnEvent w (k - 1) contract wallet planId fromBlock = Return found →
  (found = None → k = 10%nat) →
  let poll := EFindBurnEvent contract wallet planId fromBlock in
  let r := run (getBurnTransactionInfo w fromBlock nvmApiKey) in
  r.1 = Return ((λ ev, {| burn_txHash := txHash ev; burn_credits := value ev;
                          burn_planId := planId |}) <$> found)
  ∧ r.2 = EGetPlan planId :: schedule poll k
  ∧ length (filter (λ e, is_findBurn e = true) r.2) = k
  ∧ filter (λ e, is_delay e = true) r.2 = replicate (k - 1) (EDelay 5000).
Proof.
  intros Hkey Hplan Hpid Hlog Hddo Hc Hct Hw Hwt Hk Hnone Hlast Hend poll r.
  assert (Hr : r = (Return ((λ ev, {| burn_txHash := txHash ev; burn_credits := value ev;
                                      burn_planId := planId |}) <$> found),
                    EGetPlan planId :: schedule poll k)).
  { subst r. unfold run, getBurnTransactionInfo.
    rewrite Hkey, Hplan. cbn -[pollBurnEvent]. rewrite Hpid. cbn -[pollBurnEvent].
    unfold initializePayments. rewrite Hlog.
    unfold PlanDDOHelper.get1155ContractAddress, PlanDDOHelper.getTokenId,
      PlanDDOHelper.loadDDO.
    run_unfold. cbn -[pollBurnEvent]. rewrite Hddo. cbn -[pollBurnEvent].
    rewrite Hc, Hw. cbn -[pollBurnEvent].
    repeat (rewrite ?Hct, ?Hwt, ?Hpid; progress cbn -[pollBurnEvent]).
    rewrite (pollBurnEvent_run w contract wallet planId fromBlock 10 k found); auto.
    by destruct found. }
  rewrite Hr. cbn [fst snd]. split; [done|]. split; [done|]. split.
  - rewrite filter_cons_False by (simpl; congruence). apply schedule_polls.
  - rewrite filter_cons_False by (simpl; congruence). apply schedule_delays.
Qed.

Lemma getBurnTransactionInfo_polling_witness :
  (let r := run (getBurnTransactionInfo Sample.world 5 "key") in
   r.1 = Return (Some {| burn_txHash := "0xburn"; burn_credits := "1";
                         burn_planId := "plan-1" |})
   ∧ r.2 = EGetPlan "plan-1"
           :: schedule (EFindBurnEvent "0xNFT" "0xWallet" "plan-1" 5) 3
   ∧ length (filter (λ e, is_findBurn e = true) r.2) = 3%nat
   ∧ filter (λ e, is_delay e = true) r.2 = replicate 2 (EDelay 5000))
  ∧
  (let r := run (getBurnTransactionInfo
                   (Sample.with_burn (λ _, None) Sample.world) 5 "key") in
   r.1 = Return None
   ∧ r.2 = EGetPlan "plan-1"
           :: schedule (EFindBurnEvent "0xNFT" "0xWallet" "plan-1" 5) 10
   ∧ length (filter (λ e, is_findBurn e = true) r.2) = 10%nat
   ∧ filter (λ e, is_delay e = true) r.2 = replicate 9 (EDelay 5000)).
Proof.
  split.
  - apply (getBurnTransactionInfo_polling Sample.world 5 "key" "plan-1" "0xNFT"
             "0xWallet" (Sample.usdcPlan [5000000]) 3
             (Some {| txHash := "0xburn"; value := "1" |}));
      try (vm_compute; reflexivity); try lia.
    + intros i Hi. destruct i as [|[|i]]; [reflexivity| reflexivity| lia].
    + discriminate.
  - apply (getBurnTransactionInfo_polling (Sample.with_burn (λ _, None) Sample.world)
             5 "key" "plan-1" "0xNFT" "0xWallet" (Sample.usdcPlan [5000000]) 10 None);
      try (vm_compute; reflexivity); lia.
Defined.

End BurnFacts.

(** ** Ordering a plan: the balance check *)

Module OrderFacts.
Import Effects Collab BlockchainService PaymentsService Spec RunFacts.

Lemma ltb_not_leb (x y : JsNumber.number) :
  JsNumber.ltb x y = true → JsNumber.leb y x = false.
Proof.
  destruct x as [|[]|m1 e1], y as [|[]|m2 e2]; simpl; try done.
  rewrite (Z.min_comm e2 e1). intros H%Z.ltb_lt. apply Z.leb_gt. exact H.
Qed.

(** C1. When the wallet's balance of the settlement token is strictly less
    than the plan price, [orderPlanCredits] returns [success: false] with
    the insufficient-balance message, and [payments.plans.orderPlan] is
    never called. *)
Theorem orderPlanCredits_insufficient_balance
  (w : World) (planId nvmApiKey environment token wallet : string)
  (d : DDO) (balance : JsNumber.number) :
  JsString.truthy nvmApiKey = true →
  getenv w "NVM_ENVIRONMENT" = Some environment →
  JsString.truthy environment = true →
  isLoggedIn w nvmApiKey environment = true →
  getPlan w 0 planId = Return (Some d) →
  PlanDDOHelper.tokenAddressOf (Some d) = Some token →
  JsString.truthy token = true →
  accountAddress w = Some wallet →
  JsString.truthy wallet = true →
  erc20Balance w token wallet = Return balance →
  JsNumber.ltb balance (JsNumber.ToNumber (PlanDDOHelper.planPriceOf (Some d))) = true →
  let r := run (orderPlanCredits w planId nvmApiKey) in
  r.1 = Return {| success := false; order_txHash := None; order_credits := None;
                  message := "Insufficient USDC balance to purchase credits" |}
  ∧ r.2 = [EGetPlan planId; EBalanceOf token wallet]
  ∧ filter (λ e, is_orderPlan e = true) r.2 = [].
Proof.
  intros Hkey Henv Henvt Hlog Hddo Htok Htokt Hw Hwt Hbal Hlt r.
  assert (Hr : r = (Return (failed "Insufficient USDC balance to purchase credits"),
                    [EGetPlan planId; EBalanceOf token wallet])).
  { subst r. unfold run, orderPlanCredits.
    rewrite Hkey, Henv. cbn. rewrite Henvt. cbn.
    unfold initializePayments. rewrite Hlog.
    unfold PlanDDOHelper.getPlanPrice, PlanDDOHelper.getTokenAddress,
      PlanDDOHelper.loadDDO, hasSufficientERC20Balance.
    run_unfold. cbn -[PlanDDOHelper.planPriceOf PlanDDOHelper.tokenAddressOf].
    rewrite Hddo. cbn -[PlanDDOHelper.planPriceOf PlanDDOHelper.tokenAddressOf].
    rewrite Htok, Hw. cbn -[PlanDDOHelper.planPriceOf].
    repeat (rewrite ?Htokt, ?Hwt; progress cbn -[PlanDDOHelper.planPriceOf]).
    rewrite Hbal. rewrite (ltb_not_leb _ _ Hlt). reflexivity. }
  rewrite Hr. cbn [fst snd]. repeat split.
Qed.

Lemma orderPlanCredits_insufficient_balance_witness :
  let r := run (orderPlanCredits Sample.world "plan-1" "key") in
  r.1 = Return {| success := false; order_txHash := None; order_credits := None;
                  message := "Insufficient USDC balance to purchase credits" |}
  ∧ r.2 = [EGetPlan "plan-1"; EBalanceOf PlanDDOHelper.usdcAddress "0xWallet"]
  ∧ filter (λ e, is_orderPlan e = true) r.2 = [].
Proof.
  apply (orderPlanCredits_insufficient_balance Sample.world "plan-1" "key" "sandbox"
           PlanDDOHelper.usdcAddress "0xWallet" (Sample.usdcPlan [5000000])
           (JsNumber.Dec 3 0)); vm_compute; reflexivity.
Defined.

End OrderFacts.

(** ** The plan record is cached per instance *)

Module HelperFacts.
Import Effects Collab PlanDDOHelper RunFacts.

Lemma loadDDO_cached (w : World) (h : t) (d : DDO) (tr : trace) :
  ddo h = Some d → loadDDO w h tr = (Return (Some d, h), tr).
Proof. intros H. unfold loadDDO. by rewrite H. Qed.

(** A call on an instance that holds a record answers from that record,
    fetches nothing and leaves the instance as it is. *)
Lemma invoke_cached (w : World) (m : method) (h : t) (d : DDO) (tr : trace) :
  ddo h = Some d →
  invoke w m h tr = (Return (derived (planId h) d m, h), tr).
Proof.
  intros H. destruct m; unfold invoke, getTokenAddress, getPlanPrice, getPlanCredits,
    getTokenId, get1155ContractAddress; rewrite ?bind_eq, ?(loadDDO_cached w h d tr H);
    reflexivity.
Qed.

Lemma invoke_all_cached (w : World) (ms : list method) (h : t) (d : DDO) (tr : trace) :
  ddo h = Some d →
  invoke_all w ms h tr = (List.map (λ m, Return (derived (planId h) d m)) ms, h, tr).
Proof.
  intros H. induction ms as [|m ms IH]; [reflexivity|].
  cbn [invoke_all List.map]. rewrite (invoke_cached w m h d tr H), IH. reflexivity.
Qed.

(** A load that answers with a record leaves that record in the instance,
    after at most one fetch. *)
Lemma loadDDO_loaded (w : World) (h h1 : t) (d : DDO) (tr tr1 : trace) :
  loadDDO w h tr = (Return (Some d, h1), tr1) →
  ddo h1 = Some d ∧ planId h1 = planId h
  ∧ (tr1 = tr ∨ tr1 = tr ++ [EGetPlan (planId h)]).
Proof.
  unfold loadDDO. destruct (ddo h) as [d0|] eqn:Hd.
  - intros [= <- <- <-]. auto.
  - rewrite bind_eq. unfold call_nth.
    destruct (getPlan w _ (planId h)) as [a|e]; [|discriminate].
    intros [= -> <- <-]. auto.
Qed.

(** C9. Once [loadDDO] has answered with a record, every later call of
    [loadDDO], [getTokenAddress], [getPlanPrice], [getPlanCredits],
    [getTokenId] or [get1155ContractAddress] on that instance, in any
    number and order, fetches nothing more (the trace stays as it is),
    leaves the cached record unchanged and answers from that record; the
    load itself made at most one fetch, and the token id is the plan id in
    every state of the instance. *)
Theorem plan_record_fetched_once
  (w : World) (h h1 : t) (d : DDO) (tr tr1 : trace) (ms : list method) :
  loadDDO w h tr = (Return (Some d, h1), tr1) →
  (length (filter (λ e, is_getPlan e = true) tr1)
   ≤ length (filter (λ e, is_getPlan e = true) tr) + 1)%nat
  ∧ invoke_all w ms h1 tr1
    = (List.map (λ m, Return (derived (planId h) d m)) ms, h1, tr1)
  ∧ ddo h1 = Some d
  ∧ (∀ (h' : t) (tr' : trace), getTokenId w h' tr' = (Return (planId h', h'), tr')).
Proof.
  intros Hload. destruct (loadDDO_loaded w h h1 d tr tr1 Hload) as (Hd & Hid & Htr).
  split; [|split; [|split]].
  - destruct Htr as [-> | ->]; [lia|]. rewrite count_snoc. simpl. lia.
  - rewrite <- Hid. apply invoke_all_cached. exact Hd.
  - exact Hd.
  - reflexivity.
Qed.

Lemma plan_record_fetched_once_witness :
  let h1 := {| planId := "plan-1"; ddo := Some (Sample.usdcPlan [5000000]) |} in
  let ms := [GetPlanPrice; GetTokenId; LoadDDO; GetPlanCredits; GetTokenAddress;
             Get1155ContractAddress; GetPlanPrice] in
  loadDDO Sample.world (new "plan-1") []
  = (Return (Some (Sample.usdcPlan [5000000]), h1), [EGetPlan "plan-1"])
  ∧ invoke_all Sample.world ms h1 [EGetPlan "plan-1"]
    = (List.map (λ m, Return (derived "plan-1" (Sample.usdcPlan [5000000]) m)) ms,
       h1, [EGetPlan "plan-1"]).
Proof.
  split; [reflexivity|].
  apply (plan_record_fetched_once Sample.world (new "plan-1") _
           (Sample.usdcPlan [5000000]) [] [EGetPlan "plan-1"]).
  reflexivity.
Defined.

End HelperFacts.

(** ** The tool gateway *)

Module GatewayFacts.
Import Effects Collab PaymentsService Spec RunFacts.

Lemma getAgentAccessToken_run w key planId agentDid accessToken (tr : trace) :
  session_opens w key planId agentDid accessToken →
  getAgentAccessToken w key tr
  = (Return (accessToken, agentDid), tr ++ [EGetAgentAccessToken planId agentDid]).
Proof.
  intros [Hk Hp Hpt Ha Hat Hl Ht Hu]. unfold getAgentAccessToken.
  rewrite Hk, Hp, Ha. cbn. rewrite Hpt, Hat. cbn.
  unfold initializePayments. rewrite Hl. run_unfold. by rewrite Ht.
Qed.

Lemma default_tool_eq (w : World) :
  JsString.or_else (getenv w "MCP_TOOL")
    (if JsString.truthy_opt (getenv w "RAW") then "weather.today.raw" else "weather.today")
  = default_tool (getenv w "MCP_TOOL") (getenv w "RAW").
Proof.
  destruct (getenv w "MCP_TOOL") as [[|c s]|], (getenv w "RAW") as [[|c' s']|];
    reflexivity.
Qed.

(** C10. Given a plain string, [createTask] calls the default tool (the
    one configured in [MCP_TOOL], else ["weather.today.raw"] when [RAW] is
    set, else ["weather.today"]) exactly once, with the arguments
    [{city: input}] when the string is not empty and [{}] when it is. *)
Theorem createTask_plain_text
  (w : World) (input nvmApiKey planId agentDid accessToken : string) :
  session_opens w nvmApiKey planId agentDid accessToken →
  mcpConnect w (endpoint w) accessToken = Return () →
  filter (λ e, is_callTool e = true)
         (run (createTask w (Json.JStr input) nvmApiKey)).2
  = [EMcpCallTool (default_tool (getenv w "MCP_TOOL") (getenv w "RAW"))
                  (city_args input)].
Proof.
  intros Hs Hc. unfold run, createTask. fold (endpoint w).
  rewrite bind_eq, (getAgentAccessToken_run _ _ _ _ _ _ Hs).
  rewrite bind_eq. unfold newTransport. rewrite (so_url _ _ _ _ _ Hs).
  cbn [mret M_ret]. unfold try_finally, try_catch.
  rewrite bind_eq. unfold call at 1. rewrite Hc.
  rewrite default_tool_eq.
  set (tool := default_tool _ _).
  assert (Hargs :
    (if JsString.truthy (if Json.truthy (Json.JStr input)
                         then Json.ToString (Json.JStr input) else "")
     then Json.JObj [("city", Json.JStr (if Json.truthy (Json.JStr input)
                                         then Json.ToString (Json.JStr input) else ""))]
     else Json.JObj []) = city_args input) by (by destruct input).
  cbn [Json.get]. rewrite Hargs. rewrite bind_eq. unfold call at 1.
  destruct (mcpCallTool w tool (city_args input)) as [result|e];
    unfold closeClient, swallow, try_catch, call, log; run_unfold;
    destruct (mcpClose w); reflexivity.
Qed.

Lemma createTask_plain_text_witness :
  filter (λ e, is_callTool e = true)
         (run (createTask Sample.world (Json.JStr "Lima weather") "key")).2
  = [EMcpCallTool "weather.today" (Json.JObj [("city", Json.JStr "Lima weather")])].
Proof.
  apply (createTask_plain_text Sample.world "Lima weather" "key" "plan-1"
           "did:nv:agent" "token"); [|reflexivity].
  split; vm_compute; reflexivity.
Defined.




End GatewayFacts.

(** ** The router and the intent synthesizer *)

Module RouterFacts.
Import Effects Collab LlmService Routes Spec RunFacts.

Lemma llmRouter_run (w : World) (message : string) (history : option Json.value)
  (credits : JsNumber.number) (tr : trace) :
  llmRouter w message history credits tr
  = (router_outcome w message history credits,
     tr ++ [ECompletion router_system
              (router_prompt (routerPrompt w) message history credits) 512]).
Proof.
  unfold llmRouter, router_outcome. rewrite bind_eq. unfold call.
  destruct (completion w _ _ _) as [c|e]; [|reflexivity].
  by destruct (parse_decision _).
Qed.

(** Without a usable credential, or when the lookup fails, the credits
    resolve to 0 and nothing is thrown. *)
Lemma resolve_credits_fallback (w : World) (auth : option string) :
  no_credential auth ∨ lookup_fails w auth →
  ∃ tr, run (resolve_credits w auth) = (Return (JsNumber.of_Z 0), tr).
Proof.
  unfold run, resolve_credits. intros [Hno | (a & e & -> & Hb & Hk & Hf)].
  - destruct auth as [a|]; [|by eexists]. fold (api_key a).
    destruct Hno as [-> | ->]; [rewrite andb_false_r|destruct (_ && _)]; by eexists.
  - fold (api_key a). rewrite Hb, Hk, andb_true_r.
    assert (JsString.truthy a = true) as -> by (by destruct a).
    unfold try_catch. unfold run in Hf.
    destruct (PaymentsService.getUserCredits w (api_key a) []) as [[c|e'] tr];
      [discriminate|]. by eexists.
Qed.

(** C7. For every message, when no credential is supplied or the credit
    lookup fails, the handler of [/api/llm-router] calls the router with
    [credits = 0]: the completion request carries the prompt built for 0
    credits, and the response is the one the router's outcome determines,
    whatever the ledger did. *)
Theorem llm_router_credits_fallback (w : World) (req : Request) (message : string) :
  body_message req = Some (Json.JStr message) →
  no_credential (authorization req) ∨ lookup_fails w (authorization req) →
  let r := run (llm_router w req) in
  r.1 = Return (router_response
                  (router_outcome w message (body_history req) (JsNumber.of_Z 0)))
  ∧ ∃ lookup : trace,
      r.2 = lookup ++ [ECompletion router_system
                         (router_prompt (routerPrompt w) message (body_history req)
                            (JsNumber.of_Z 0)) 512].
Proof.
  intros Hm Hc r. subst r. unfold run, llm_router. rewrite Hm.
  destruct (resolve_credits_fallback w _ Hc) as [tr Hr]. unfold run in Hr.
  unfold try_catch. rewrite bind_eq, Hr, bind_eq, llmRouter_run.
  destruct (router_outcome _ _ _ _); (split; [reflexivity|by exists tr]).
Qed.

Lemma llm_router_credits_fallback_witness :
  let w := Sample.with_balance (Throw (Rejected "ledger down")) Sample.world in
  let req := {| body_message := Some (Json.JStr "hi"); body_history := None;
                authorization := Some "Bearer abc" |} in
  let r := run (llm_router w req) in
  r.1 = Return {| status := 200; body := Json.JObj [("action", Json.JStr "forward")] |}
  ∧ ∃ lookup : trace,
      r.2 = lookup ++ [ECompletion router_system
                         (router_prompt "Decide." "hi" None (JsNumber.of_Z 0)) 512].
Proof.
  apply (llm_router_credits_fallback
           (Sample.with_balance (Throw (Rejected "ledger down")) Sample.world)
           {| body_message := Some (Json.JStr "hi"); body_history := None;
              authorization := Some "Bearer abc" |} "hi"); [reflexivity|].
  right. exists "Bearer abc", (Rejected "ledger down").
  repeat split; vm_compute; reflexivity.
Defined.

(** *** The intent synthesizer *)

Lemma has_tool_shape_spec (obj : Json.value) :
  has_tool_shape obj = true ↔ tool_shape obj.
Proof.
  unfold has_tool_shape, tool_shape. split.
  - intros H. apply andb_prop in H as [H Ha]. apply andb_prop in H as [_ Ht].
    destruct (Json.get "tool" obj) as [[]|]; try discriminate.
    destruct (Json.get "args" obj) as [a|]; [|discriminate].
    exists s, a. repeat split. by apply String.eqb_eq.
  - intros (tool & args & Ht & Ha & Hty).
    assert (Json.truthy obj = true) as ->.
    { destruct obj; try discriminate. reflexivity. }
    rewrite Ht, Ha. simpl. by rewrite Hty.
Qed.

Lemma llmIntentSynthesizer_run (w : World) (history : list ConversationMessage)
  (agentContext : string) (toolsCatalog : option Json.value) (content : option string) :
  let system := if Json.truthy_opt toolsCatalog then tools_system else sentence_system in
  let prompt := synth_prompt history agentContext toolsCatalog in
  completion w system prompt 64 = Return content →
  run (llmIntentSynthesizer w history agentContext toolsCatalog)
  = (Return (select_intent toolsCatalog (content_text content)),
     [ECompletion system prompt 64]).
Proof.
  intros system prompt H. unfold run, llmIntentSynthesizer.
  rewrite bind_eq. unfold call. fold system prompt. by rewrite H.
Qed.

(** C6, as stated, fails: with a catalog supplied, an output that is no
    JSON, or a JSON object without [args], is returned as raw text and no
    error is raised. *)
Lemma synthesizer_returns_raw_text :
  let catalog := Json.JArr [Json.JObj [("name", Json.JStr "weather.today")]] in
  let history := [ {| role := "user"; content := "weather in Lima?" |} ] in
  let prose := Sample.with_completion (Return (Some "Use weather.today")) Sample.world in
  let partial :=
    Sample.with_completion
      (Return (Some (JsString.dq "{`tool`:`weather.today`}"))) Sample.world in
  Json.parse "Use weather.today" = None
  ∧ (run (llmIntentSynthesizer prose history "agent" (Some catalog))).1
    = Return (IText "Use weather.today")
  ∧ (run (llmIntentSynthesizer partial history "agent" (Some catalog))).1
    = Return (IText (JsString.dq "{`tool`:`weather.today`}")).
Proof. vm_compute. repeat split. Qed.

(** C6, amended. When a tool catalog is supplied, for every completion
    output that fails to parse as JSON or whose value lacks the shape
    [{tool: text, args: object}], the synthesizer returns the raw output
    text, trimmed, and raises no error. *)
Theorem synthesizer_falls_back_to_text
  (w : World) (history : list ConversationMessage) (agentContext : string)
  (catalog : Json.value) (content : option string) :
  Json.truthy catalog = true →
  completion w tools_system (synth_prompt history agentContext (Some catalog)) 64
  = Return content →
  (Json.parse (content_text content) = None
   ∨ ∃ obj, Json.parse (content_text content) = Some obj ∧ ¬ tool_shape obj) →
  (run (llmIntentSynthesizer w history agentContext (Some catalog))).1
  = Return (IText (content_text content)).
Proof.
  intros Hc Hcompl Hbad.
  pose proof (llmIntentSynthesizer_run w history agentContext (Some catalog) content) as H.
  cbn [Json.truthy_opt] in H. rewrite Hc in H. rewrite (H Hcompl). cbn [fst].
  unfold select_intent. cbn [Json.truthy_opt]. rewrite Hc.
  destruct Hbad as [-> | (obj & -> & Hshape)]; [reflexivity|].
  destruct (has_tool_shape obj) eqn:E; [|reflexivity].
  by apply has_tool_shape_spec in E.
Qed.

Lemma synthesizer_falls_back_to_text_witness :
  let catalog := Json.JArr [Json.JObj [("name", Json.JStr "weather.today")]] in
  let history := [ {| role := "user"; content := "weather in Lima?" |} ] in
  let prose := Sample.with_completion (Return (Some " Use weather.today ")) Sample.world in
  (run (llmIntentSynthesizer prose history "agent" (Some catalog))).1
  = Return (IText "Use weather.today").
Proof.
  apply (synthesizer_falls_back_to_text
           (Sample.with_completion (Return (Some " Use weather.today ")) Sample.world)
           [ {| role := "user"; content := "weather in Lima?" |} ] "agent"
           (Json.JArr [Json.JObj [("name", Json.JStr "weather.today")]])
           (Some " Use weather.today "));
    [reflexivity | reflexivity | left; vm_compute; reflexivity].
Defined.

End RouterFacts.

(** ** Trimming and brace matching *)

Module StringFacts.
Import JsString LlmService.

Lemma app_cons (c : ascii) (a b : string) : String c a +:+ b = String c (a +:+ b).
Proof. reflexivity. Qed.

Lemma app_nil_l (s : string) : "" +:+ s = s.
Proof. reflexivity. Qed.

Lemma app_nil_r (s : string) : s +:+ "" = s.
Proof. induction s as [|c s IH]; [done|]. by rewrite app_cons, IH. Qed.

Lemma app_assoc (a b c : string) : (a +:+ b) +:+ c = a +:+ b +:+ c.
Proof. induction a as [|x a IH]; [done|]. by rewrite !app_cons, IH. Qed.

Lemma trimStart_app (c : ascii) (p r : string) :
  isWhiteSpace c = false →
  trimStart (p +:+ String c r) = trimStart p +:+ String c r.
Proof.
  intros Hc. induction p as [|d p IH]; rewrite ?app_cons, ?app_nil_l; cbn [trimStart].
  - by rewrite Hc.
  - destruct (isWhiteSpace d); [exact IH|reflexivity].
Qed.

Lemma trimEnd_app (c : ascii) (x s : string) :
  isWhiteSpace c = false →
  trimEnd (x +:+ String c s) = x +:+ String c (trimEnd s).
Proof.
  intros Hc. induction x as [|d x IH]; rewrite ?app_cons, ?app_nil_l; cbn [trimEnd].
  - rewrite Hc. by destruct (trimEnd s).
  - rewrite IH. by destruct x.
Qed.

Lemma contains_trimStart (c : ascii) (p : string) :
  contains c p = false → contains c (trimStart p) = false.
Proof.
  induction p as [|d p IH]; [done|]. cbn [contains trimStart].
  destruct (Ascii.eqb c d) eqn:E; [done|]. intros H.
  destruct (isWhiteSpace d); [auto|]. cbn [contains]. by rewrite E.
Qed.

Lemma contains_trimEnd (c : ascii) (s : string) :
  contains c s = false → contains c (trimEnd s) = false.
Proof.
  induction s as [|d s IH]; [done|]. cbn [contains trimEnd].
  destruct (Ascii.eqb c d) eqn:E; [done|]. intros H. specialize (IH H).
  destruct (trimEnd s) as [|e t].
  - destruct (isWhiteSpace d); [done|]. cbn [contains]. by rewrite E.
  - cbn [contains] in *. by rewrite E.
Qed.

Lemma from_first_app (c : ascii) (p r : string) :
  contains c p = false → from_first c (p +:+ String c r) = Some (String c r).
Proof.
  induction p as [|d p IH]; rewrite ?app_cons, ?app_nil_l; cbn [from_first contains].
  - by rewrite Ascii.eqb_refl.
  - destruct (Ascii.eqb c d); [done|]. exact IH.
Qed.

Lemma upto_last_none (c : ascii) (s : string) :
  contains c s = false → upto_last c s = None.
Proof.
  induction s as [|d s IH]; [done|]. cbn [contains upto_last].
  destruct (Ascii.eqb c d); [done|]. intros H. by rewrite (IH H).
Qed.

Lemma upto_last_app (c : ascii) (x s : string) :
  contains c s = false → upto_last c (x +:+ String c s) = Some (x +:+ String c "").
Proof.
  intros Hs. induction x as [|d x IH]; rewrite ?app_cons, ?app_nil_l; cbn [upto_last].
  - by rewrite (upto_last_none c s Hs), Ascii.eqb_refl.
  - by rewrite IH.
Qed.

(** The match of [/\{[\s\S]*\}/] in a text whose braces all lie in a
    middle part that begins with [{] and ends with [}]. *)
Lemma match_braces_middle (p mid s : string) :
  contains "{" p = false → contains "}" s = false →
  match_braces (p +:+ String "{" (mid +:+ String "}" s))
  = Some (String "{" (mid +:+ "}")).
Proof.
  intros Hp Hs. unfold match_braces. rewrite (from_first_app _ _ _ Hp).
  cbn [mbind option_bind].
  change (String "{" (mid +:+ String "}" s)) with (String "{" mid +:+ String "}" s).
  by rewrite (upto_last_app _ _ _ Hs).
Qed.

Lemma content_text_some (c : string) : content_text (Some c) = trim c.
Proof. unfold content_text. cbn. by destruct (trim c). Qed.

End StringFacts.

(** ** The parsing policy of the router *)

Module ParsingFacts.
Import Effects Collab LlmService Spec RunFacts StringFacts.
Import JsString (trim, contains, dq).

Lemma trim_around_braces (p mid s : string) :
  trim (p +:+ String "{" (mid +:+ String "}" s))
  = JsString.trimStart p +:+ String "{" (mid +:+ String "}" (JsString.trimEnd s)).
Proof.
  unfold trim.
  change (p +:+ String "{" (mid +:+ String "}" s))
    with (p +:+ (String "{" mid +:+ String "}" s)).
  rewrite <- app_assoc, trimEnd_app by reflexivity.
  rewrite app_assoc, app_cons. by rewrite trimStart_app by reflexivity.
Qed.

(** C4, as stated, fails: the span taken is greedy, from the first [{] to
    the last [}], so a decision embedded in prose that has a brace of its
    own is not extracted and a [SyntaxError] is thrown; and a response
    that is valid JSON but no object, such as [42], is returned as the
    decision instead of failing. *)
Lemma router_misses_embedded_decision :
  let braces :=
    Sample.with_completion
      (Return (Some (dq "Reply {ok}: {`action`:`no_credit`}"))) Sample.world in
  let number := Sample.with_completion (Return (Some "42")) Sample.world in
  match_braces (dq "Reply {ok}: {`action`:`no_credit`}")
  = Some (dq "{ok}: {`action`:`no_credit`}")
  ∧ (run (llmRouter braces "hi" None (JsNumber.of_Z 0))).1 = Throw JsSyntaxError
  ∧ (run (llmRouter number "hi" None (JsNumber.of_Z 0))).1
    = Return (Json.JNum (JsNumber.Dec 42 0)).
Proof. vm_compute. repeat split. Qed.

(** C4, amended. The router first parses the whole trimmed response and
    returns whatever JSON value that gives. When that fails it takes the
    span from the first [{] to the last [}] of the response and parses it:
    whenever [{"action":"no_credit"}] is embedded in prose with no [{]
    before it and no [}] after it, the decision [no_credit] is returned;
    a span that is no JSON makes the parse error propagate; and a
    response without any such span fails with "LLM did not return valid
    JSON". *)
Theorem llmRouter_parsing_policy
  (w : World) (message : string) (history : option Json.value)
  (credits : JsNumber.number) (content : string) :
  completion w router_system (router_prompt (routerPrompt w) message history credits) 512
  = Return (Some content) →
  let text := trim content in
  let r := (run (llmRouter w message history credits)).1 in
  (∀ json, Json.parse text = Some json → r = Return json)
  ∧ (Json.parse text = None →
     (∀ p s, content = p +:+ no_credit_text +:+ s →
             contains "{" p = false → contains "}" s = false →
             r = Return no_credit)
     ∧ (∀ m json, match_braces text = Some m → Json.parse m = Some json →
                  r = Return json)
     ∧ (∀ m, match_braces text = Some m → Json.parse m = None →
             r = Throw JsSyntaxError)
     ∧ (match_braces text = None →
        r = Throw (JsError "LLM did not return valid JSON"))).
Proof.
  intros Hc text r.
  assert (Hr : r = parse_decision text).
  { subst r text. unfold run. rewrite RouterFacts.llmRouter_run. cbn [fst].
    unfold router_outcome. by rewrite Hc, content_text_some. }
  rewrite Hr. unfold parse_decision. split.
  - by intros json ->.
  - intros ->. repeat split.
    + intros p s -> Hp Hs. subst text.
      change no_credit_text
        with (String "{" (dq "`action`:`no_credit`" +:+ String "}" "")).
      rewrite app_cons, app_assoc, app_cons, app_nil_l.
      rewrite trim_around_braces, match_braces_middle
        by auto using contains_trimStart, contains_trimEnd.
      reflexivity.
    + by intros m json -> ->.
    + by intros m -> ->.
    + by intros ->.
Qed.

Lemma llmRouter_parsing_policy_witness :
  let w := Sample.with_completion
             (Return (Some (dq "Sure! {`action`:`no_credit`} thanks"))) Sample.world in
  (run (llmRouter w "hi" None (JsNumber.of_Z 0))).1 = Return no_credit.
Proof.
  refine (proj1 (proj2 (llmRouter_parsing_policy
                          (Sample.with_completion
                             (Return (Some (dq "Sure! {`action`:`no_credit`} thanks")))
                             Sample.world)
                          "hi" None (JsNumber.of_Z 0)
                          (dq "Sure! {`action`:`no_credit`} thanks") _) _)
                "Sure! " " thanks" _ _ _); vm_compute; reflexivity.
Defined.

End ParsingFacts.

(** ** Decimal numerals: printing and reading back *)

Module DigitFacts.
Import JsString JsNumber Spec StringFacts.
Import DecimalString.

Lemma all_chars_app (P : ascii → bool) (a b : string) :
  all_chars P (a +:+ b) = all_chars P a && all_chars P b.
Proof.
  induction a as [|c a IH]; [done|].
  rewrite app_cons. cbn [all_chars]. by rewrite IH, andb_assoc.
Qed.

Lemma all_chars_impl (P Q : ascii → bool) (s : string) :
  (∀ c, P c = true → Q c = true) → all_chars P s = true → all_chars Q s = true.
Proof.
  intros H. induction s as [|c s IH]; [done|]. cbn [all_chars].
  intros [Hc Hs]%andb_prop. by rewrite (H c Hc), (IH Hs).
Qed.

Lemma all_chars_repeat (P : ascii → bool) (c : ascii) (n : nat) :
  P c = true → all_chars P (repeat c n) = true.
Proof. intros H. induction n as [|n IH]; [done|]. cbn. by rewrite H, IH. Qed.

Lemma take_drop (n : nat) (s : string) : take n s +:+ drop n s = s.
Proof.
  revert s. induction n as [|n IH]; intros [|c s]; try done.
  cbn [take drop]. by rewrite app_cons, IH.
Qed.

Lemma length_app (a b : string) :
  String.length (a +:+ b) = (String.length a + String.length b)%nat.
Proof. induction a as [|c a IH]; [done|]. rewrite app_cons. cbn. by rewrite IH. Qed.

Lemma length_repeat (c : ascii) (n : nat) : String.length (repeat c n) = n.
Proof. induction n as [|n IH]; [done|]. cbn. by rewrite IH. Qed.

Lemma length_drop (n : nat) (s : string) :
  String.length (drop n s) = (String.length s - n)%nat.
Proof. revert s. induction n as [|n IH]; intros [|c s]; cbn; auto. Qed.




Lemma digit_numchar (c : ascii) : isDigit c = true → numchar c = true.
Proof. unfold numchar. by intros ->. Qed.

Lemma span_digits_app (a rest : string) :
  all_chars isDigit a = true → ends_digits rest →
  span_digits (a +:+ rest) = (a, rest).
Proof.
  intros Ha Hr. induction a as [|c a IH].
  - rewrite app_nil_l. destruct rest as [|c r]; [done|]. cbn in *. by rewrite Hr.
  - rewrite app_cons. cbn [all_chars span_digits] in *.
    apply andb_prop in Ha as [Hc Ha]. by rewrite Hc, (IH Ha).
Qed.

Lemma span_digits_all (a : string) :
  all_chars isDigit a = true → span_digits a = (a, "").
Proof.
  intros Ha. rewrite <- (app_nil_r a) at 1. by apply span_digits_app.
Qed.

Lemma string_of_uint_digits (d : Decimal.uint) :
  all_chars isDigit (NilEmpty.string_of_uint d) = true.
Proof. induction d; cbn [NilEmpty.string_of_uint all_chars]; by rewrite ?IHd. Qed.

Lemma digits_all_digits (n : N) : all_chars isDigit (digits n) = true.
Proof. apply string_of_uint_digits. Qed.

Lemma digits_nonempty (n : N) : ∃ c s, digits n = String c s.
Proof.
  unfold digits. destruct n as [|p]; [by eexists _, _|]. cbn [N.to_uint].
  pose proof (DecimalPos.Unsigned.to_uint_nonnil p) as H.
  destruct (Pos.to_uint p); [done|..]; by eexists _, _.
Qed.

Lemma digits_value_acc_app (acc : N) (a b : string) :
  digits_value_acc acc (a +:+ b) = digits_value_acc (digits_value_acc acc a) b.
Proof.
  revert acc. induction a as [|c a IH]; intros acc; [done|].
  rewrite app_cons. cbn [digits_value_acc]. apply IH.
Qed.

Lemma digits_value_acc_zeros (acc : N) (j : nat) :
  digits_value_acc acc (repeat "0" j) = (acc * 10 ^ N.of_nat j)%N.
Proof.
  revert acc. induction j as [|j IH]; intros acc.
  - cbn. lia.
  - cbn [repeat digits_value_acc]. rewrite IH.
    change (N_of_ascii "0" - 48)%N with 0%N.
    rewrite Nat2N.inj_succ, N.pow_succ_r'. lia.
Qed.

Lemma digits_value_of_uint_acc (d : Decimal.uint) (p : positive) :
  digits_value_acc (Npos p) (NilEmpty.string_of_uint d) = Npos (Pos.of_uint_acc d p).
Proof.
  revert p. induction d; intros p; cbn [NilEmpty.string_of_uint digits_value_acc Pos.of_uint_acc];
    [done|..];
    match goal with
    | |- digits_value_acc ?a _ = N.pos (Pos.of_uint_acc _ ?q) =>
        replace a with (Npos q) by (vm_compute (N_of_ascii _ - 48)%N; lia); apply IHd
    end.
Qed.

Lemma digits_value_of_uint (d : Decimal.uint) :
  digits_value (NilEmpty.string_of_uint d) = Pos.of_uint d.
Proof.
  unfold digits_value.
  induction d; cbn [NilEmpty.string_of_uint digits_value_acc Pos.of_uint];
    [done| exact IHd |..]; apply (digits_value_of_uint_acc d).
Qed.

Lemma digits_value_digits (n : N) : digits_value (digits n) = n.
Proof.
  unfold digits. rewrite digits_value_of_uint. apply DecimalN.Unsigned.of_to.
Qed.

End DigitFacts.

Module NumberFacts.
Import JsString JsNumber Spec StringFacts DigitFacts.

Local Open Scope Z_scope.

Lemma all_chars_take (P : ascii → bool) (n : nat) (s : string) :
  all_chars P s = true → all_chars P (take n s) = true.
Proof.
  revert s. induction n as [|n IH]; intros [|c s]; try done.
  cbn [take all_chars]. intros [Hc Hs]%andb_prop. by rewrite Hc, (IH s Hs).
Qed.

Lemma all_chars_drop (P : ascii → bool) (n : nat) (s : string) :
  all_chars P s = true → all_chars P (drop n s) = true.
Proof.
  revert s. induction n as [|n IH]; intros [|c s]; try done.
  cbn [drop all_chars]. intros [Hc Hs]%andb_prop. by apply IH.
Qed.

(** [strip10] keeps the value and a positive mantissa. *)
Lemma strip10_spec (fuel : nat) (s : N) (e : Z) (s' : N) (e' : Z) :
  strip10 fuel s e = (s', e') → (0 < s)%N →
  (0 < s')%N ∧ e ≤ e' ∧ Z.of_N s = Z.of_N s' * 10 ^ (e' - e).
Proof.
  revert s e. induction fuel as [|fuel IH]; intros s e; cbn [strip10].
  - intros [= <- <-] Hs. rewrite Z.sub_diag. lia.
  - destruct ((s mod 10 =? 0)%N && negb (s =? 0)%N) eqn:E.
    + intros H Hs. apply andb_prop in E as [Hm%N.eqb_eq _].
      assert (Hdiv : s = (10 * (s / 10))%N).
      { rewrite (N.div_mod s 10) at 1 by lia. lia. }
      destruct (IH _ _ H) as (Hp & Hle & Hv); [lia|].
      split; [done|]. split; [lia|].
      rewrite Hdiv, N2Z.inj_mul, Hv.
      replace (e' - e) with (Z.succ (e' - (e + 1))) by lia.
      rewrite Z.pow_succ_r by lia. change (Z.of_N 10) with 10. lia.
    + intros [= <- <-] Hs. rewrite Z.sub_diag. lia.
Qed.

(** *** Reading a numeral *)



Lemma digit_not_point (c : ascii) : isDigit c = true → c ≠ "."%char.
Proof. intros H ->. discriminate. Qed.

(** The four layouts of [Number::toString], read back. *)

Lemma parse_plain (c : ascii) (r : string) (j : nat) :
  all_chars isDigit (String c r) = true →
  parse_decimal (String c r +:+ repeat "0" j)
  = Some ((digits_value (String c r) * 10 ^ N.of_nat j)%N, 0).
Proof.
  intros Hd. unfold parse_decimal.
  assert (Hall : all_chars isDigit (String c r +:+ repeat "0" j) = true).
  { rewrite all_chars_app, Hd. by apply all_chars_repeat. }
  rewrite (span_digits_all _ Hall). rewrite app_cons. cbn [parse_exponent mbind option_bind].
  rewrite <- app_cons. unfold digits_value.
  by rewrite digits_value_acc_app, digits_value_acc_zeros.
Qed.

Lemma parse_point (ds : string) (n : nat) :
  all_chars isDigit ds = true → (0 < n < String.length ds)%nat →
  parse_decimal (take n ds +:+ "." +:+ drop n ds)
  = Some (digits_value ds, - Z.of_nat (String.length ds - n)).
Proof.
  intros Hd Hn. unfold parse_decimal.
  rewrite span_digits_app; [|by apply all_chars_take|done].
  change ("." +:+ drop n ds) with (String "." (drop n ds)). cbv beta iota.
  rewrite (span_digits_all (drop n ds)) by (by apply all_chars_drop).
  rewrite take_drop.
  destruct ds as [|c r]; [simpl in Hn; lia|].
  destruct (take n (String c r)) as [|c' t'] eqn:Et.
  { destruct n; [lia|discriminate]. }
  cbn [parse_exponent mbind option_bind]. by rewrite length_drop.
Qed.

Lemma parse_small (ds : string) (j : nat) :
  all_chars isDigit ds = true →
  parse_decimal ("0." +:+ repeat "0" j +:+ ds)
  = Some (digits_value ds, - Z.of_nat (j + String.length ds)).
Proof.
  intros Hd. unfold parse_decimal.
  change ("0." +:+ repeat "0" j +:+ ds)
    with ("0" +:+ String "." (repeat "0" j +:+ ds)).
  rewrite span_digits_app; [|done..]. cbv beta iota.
  assert (Hall : all_chars isDigit (repeat "0" j +:+ ds) = true).
  { rewrite all_chars_app, Hd. by rewrite all_chars_repeat. }
  rewrite (span_digits_all _ Hall).
  change ("0" +:+ repeat "0" j +:+ ds) with (String "0" (repeat "0" j +:+ ds)).
  cbn [parse_exponent mbind option_bind].
  rewrite length_app, length_repeat. do 2 f_equal.
  unfold digits_value. cbn [digits_value_acc].
  rewrite digits_value_acc_app, digits_value_acc_zeros.
  change (0 * 10 + (N_of_ascii "0" - 48))%N with 0%N. by rewrite N.mul_0_l.
Qed.

Lemma parse_exponent_signed (x : Z) :
  parse_exponent ("e" +:+ (if 0 <=? x then "+" else "-") +:+ digits (Z.to_N (Z.abs x)))
  = Some x.
Proof.
  destruct (digits_nonempty (Z.to_N (Z.abs x))) as (d & ds & Hx).
  pose proof (digits_all_digits (Z.to_N (Z.abs x))) as Hall.
  pose proof (digits_value_digits (Z.to_N (Z.abs x))) as Hv.
  rewrite Hx in *.
  destruct (0 <=? x) eqn:E.
  - change (parse_exponent (String "e" (String "+" (String d ds))) = Some x).
    cbn [parse_exponent Ascii.eqb Bool.eqb orb andb].
    rewrite (span_digits_all _ Hall), Hv. f_equal. lia.
  - change (parse_exponent (String "e" (String "-" (String d ds))) = Some x).
    cbn [parse_exponent Ascii.eqb Bool.eqb orb andb].
    rewrite (span_digits_all _ Hall), Hv. f_equal. lia.
Qed.

Lemma parse_mantissa_exponent (c : ascii) (r t : string) (x : Z) :
  all_chars isDigit (String c r) = true →
  parse_exponent (String "e" t) = Some x →
  parse_decimal
    (match r with
     | EmptyString => String c EmptyString
     | _ => String c ("." +:+ r)
     end +:+ String "e" t)
  = Some (digits_value (String c r), x - Z.of_nat (String.length r)).
Proof.
  intros Hd Hx. unfold parse_decimal.
  cbn [all_chars] in Hd. apply andb_prop in Hd as [Hc Hr].
  destruct r as [|c2 r2].
  - rewrite span_digits_app; [|by cbn [all_chars]; rewrite Hc|done].
    cbv beta iota. rewrite Hx. cbn. do 2 f_equal. lia.
  - change (String c ("." +:+ String c2 r2) +:+ String "e" t)
      with (String c "" +:+ String "." (String c2 r2 +:+ String "e" t)).
    rewrite span_digits_app; [|by cbn [all_chars]; rewrite Hc|done].
    cbv beta iota.
    rewrite (span_digits_app (String c2 r2) (String "e" t) Hr) by done.
    change (String c "" +:+ String c2 r2) with (String c (String c2 r2)).
    cbv beta iota. rewrite Hx. reflexivity.
Qed.

Lemma parse_scientific (c : ascii) (r : string) (x : Z) :
  all_chars isDigit (String c r) = true →
  parse_decimal
    (match String c r with
     | String d EmptyString => String c r
     | String d rest => String d ("." +:+ rest)
     | EmptyString => String c r
     end +:+ "e" +:+ (if 0 <=? x then "+" else "-") +:+ digits (Z.to_N (Z.abs x)))
  = Some (digits_value (String c r), x - Z.of_nat (String.length r)).
Proof.
  intros Hd.
  rewrite <- (parse_mantissa_exponent c r
                ((if 0 <=? x then "+" else "-") +:+ digits (Z.to_N (Z.abs x))) x Hd
                (parse_exponent_signed x)).
  by destruct r.
Qed.

Lemma digits_numchar (s : string) :
  all_chars isDigit s = true → all_chars numchar s = true.
Proof. apply all_chars_impl, digit_numchar. Qed.

(** The numeral printed for a positive [m * 10^e] begins with a digit and
    reads back as [m' * 10^e'], which is [m * 10^e] written with another
    exponent. *)
Lemma toString_pos_read (m : N) (e : Z) :
  (0 < m)%N →
  ∃ (c : ascii) (r : string) (m' : N) (e' : Z),
    toString_pos m e = String c r
    ∧ isDigit c = true
    ∧ all_chars numchar (String c r) = true
    ∧ parse_decimal (String c r) = Some (m', e')
    ∧ ∃ (s : N) (e1 : Z),
        e ≤ e1 ∧ Z.of_N m = Z.of_N s * 10 ^ (e1 - e)
        ∧ ((m' = s ∧ e' = e1)
           ∨ (0 ≤ e1 ∧ Z.of_N m' = Z.of_N s * 10 ^ e1 ∧ e' = 0)).
Proof.
  intros Hm. unfold toString_pos.
  destruct (strip10 (N.to_nat (N.log2 m)) m e) as [s e1] eqn:Hs.
  destruct (strip10_spec _ _ _ _ _ Hs Hm) as (Hs0 & Hle & Hv).
  destruct (digits_nonempty s) as (c & r & Hds).
  pose proof (digits_all_digits s) as Hall.
  pose proof (digits_value_digits s) as Hval.
  rewrite Hds in *. clear Hds.
  assert (Hc : isDigit c = true).
  { cbn [all_chars] in Hall. by apply andb_prop in Hall as [-> _]. }
  set (k := Z.of_nat (String.length (String c r))).
  assert (Hk : k = 1 + Z.of_nat (String.length r)) by (subst k; cbn [String.length]; lia).
  set (n := k + e1).
  assert (Hrel : ∀ m' e', (m' = s ∧ e' = e1)
                          ∨ (0 ≤ e1 ∧ Z.of_N m' = Z.of_N s * 10 ^ e1 ∧ e' = 0) →
                  ∃ (s0 : N) (e0 : Z),
                    e ≤ e0 ∧ Z.of_N m = Z.of_N s0 * 10 ^ (e0 - e)
                    ∧ ((m' = s0 ∧ e' = e0)
                       ∨ (0 ≤ e0 ∧ Z.of_N m' = Z.of_N s0 * 10 ^ e0 ∧ e' = 0))).
  { intros m' e' H. exists s, e1. auto. }
  destruct ((k <=? n) && (n <=? 21)) eqn:EA; [|
  destruct ((0 <? n) && (n <=? 21)) eqn:EB; [|
  destruct ((-6 <? n) && (n <=? 0)) eqn:EC]].
  - (* digits followed by zeros *)
    apply andb_prop in EA as [EA1%Z.leb_le EA2%Z.leb_le].
    eexists c, _, _, _. split; [by rewrite app_cons|].
    split; [done|]. split; [|split; [rewrite <- app_cons; by apply parse_plain|]].
    + rewrite <- app_cons. apply digits_numchar.
      rewrite all_chars_app, Hall. by apply all_chars_repeat.
    + apply Hrel. right. split; [lia|]. split; [|done].
      rewrite Hval, N2Z.inj_mul, N2Z.inj_pow, nat_N_Z, Z2Nat.id by lia.
      change (Z.of_N 10) with 10. do 2 f_equal. lia.
  - (* a decimal point inside the digits *)
    apply andb_prop in EB as [EB1%Z.ltb_lt EB2%Z.leb_le].
    apply andb_false_iff in EA as [EA%Z.leb_gt|EA%Z.leb_gt]; [|lia].
    destruct (Z.to_nat n) as [|n'] eqn:En; [lia|].
    eexists c, _, _, _. split; [by cbn [take]; rewrite app_cons|].
    split; [done|]. split; [|split].
    + change (all_chars numchar (take (S n') (String c r) +:+ "." +:+
                                   drop (S n') (String c r)) = true).
      rewrite all_chars_app.
      rewrite (digits_numchar _ (all_chars_take _ _ _ Hall)).
      change ("." +:+ drop (S n') (String c r))
        with (String "." (drop (S n') (String c r))).
      cbn [all_chars]. by rewrite (digits_numchar _ (all_chars_drop _ _ _ Hall)).
    + assert (Hn : (0 < S n' < String.length (String c r))%nat) by (subst n k; lia).
      exact (parse_point (String c r) (S n') Hall Hn).
    + apply Hrel. left. split; [done|]. subst n k. lia.
  - (* a small number: zeros between the point and the digits *)
    apply andb_prop in EC as [EC1%Z.ltb_lt EC2%Z.leb_le].
    eexists "0"%char, _, _, _. split; [reflexivity|].
    split; [done|]. split; [|split].
    + change (all_chars numchar ("0." +:+ repeat "0" (Z.to_nat (- n)) +:+ String c r) = true).
      rewrite !all_chars_app. rewrite (digits_numchar _ Hall).
      by rewrite all_chars_repeat.
    + exact (parse_small (String c r) (Z.to_nat (- n)) Hall).
    + apply Hrel. left. split; [done|]. subst n k. lia.
  - (* scientific notation *)
    exists c, (match r with EmptyString => EmptyString | _ => "." +:+ r end
               +:+ "e" +:+ (if 0 <=? n - 1 then "+" else "-")
               +:+ digits (Z.to_N (Z.abs (n - 1)))).
    eexists _, _. split; [by destruct r|].
    split; [done|]. split; [|split].
    + match goal with
      | |- all_chars numchar ?t = true =>
          replace t with
            (match r with
             | EmptyString => String c EmptyString
             | _ => String c ("." +:+ r)
             end +:+ "e" +:+ (if 0 <=? n - 1 then "+" else "-")
                 +:+ digits (Z.to_N (Z.abs (n - 1)))) by (by destruct r)
      end.
      rewrite !all_chars_app.
      rewrite (digits_numchar _ (digits_all_digits _)).
      cbn [all_chars] in Hall. apply andb_prop in Hall as [_ Hr].
      assert (all_chars numchar match r with
                                | EmptyString => String c EmptyString
                                | _ => String c ("." +:+ r)
                                end = true) as ->.
      { destruct r; cbn [all_chars]; rewrite (digit_numchar _ Hc); [done|].
        change ("." +:+ String a r) with (String "." (String a r)).
        cbn [all_chars]. cbn [all_chars] in Hr.
        apply andb_prop in Hr as [Ha Hr].
        by rewrite (digit_numchar _ Ha), (digits_numchar _ Hr). }
      by destruct (0 <=? n - 1).
    + match goal with
      | |- parse_decimal ?t = _ =>
          replace t with
            (match String c r with
             | String d EmptyString => String c r
             | String d rest => String d ("." +:+ rest)
             | EmptyString => String c r
             end +:+ "e" +:+ (if 0 <=? n - 1 then "+" else "-")
                 +:+ digits (Z.to_N (Z.abs (n - 1)))) by (by destruct r)
      end.
      by apply parse_scientific.
    + apply Hrel. left. split; [done|]. subst n. lia.
Qed.

End NumberFacts.

(** ** Integers below [10^21] print as their plain decimal digits *)

Module PlainFacts.
Import JsString JsNumber Spec StringFacts DigitFacts NumberFacts.
Import DecimalString.

Local Open Scope Z_scope.

(** Every run of digits is the text of a decimal numeral, which begins
    with a nonzero digit when the run does. *)
Lemma digits_string_of_uint (t : string) :
  all_chars isDigit t = true →
  ∃ d, NilEmpty.string_of_uint d = t
       ∧ (match t with
          | String c _ => c ≠ "0"%char → Decimal.unorm d = d
          | EmptyString => True
          end).
Proof.
  induction t as [|c r IH]; [by exists Decimal.Nil|].
  cbn [all_chars]. intros [Hc Hr]%andb_prop. destruct (IH Hr) as (d & Hd & _).
  destruct c as [[] [] [] [] [] [] [] []]; try discriminate Hc;
    first
      [ exists (Decimal.D0 d); split;
        [cbn [NilEmpty.string_of_uint]; by rewrite Hd | by intros []]
      | exists (Decimal.D1 d); split; [cbn [NilEmpty.string_of_uint]; by rewrite Hd | done]
      | exists (Decimal.D2 d); split; [cbn [NilEmpty.string_of_uint]; by rewrite Hd | done]
      | exists (Decimal.D3 d); split; [cbn [NilEmpty.string_of_uint]; by rewrite Hd | done]
      | exists (Decimal.D4 d); split; [cbn [NilEmpty.string_of_uint]; by rewrite Hd | done]
      | exists (Decimal.D5 d); split; [cbn [NilEmpty.string_of_uint]; by rewrite Hd | done]
      | exists (Decimal.D6 d); split; [cbn [NilEmpty.string_of_uint]; by rewrite Hd | done]
      | exists (Decimal.D7 d); split; [cbn [NilEmpty.string_of_uint]; by rewrite Hd | done]
      | exists (Decimal.D8 d); split; [cbn [NilEmpty.string_of_uint]; by rewrite Hd | done]
      | exists (Decimal.D9 d); split; [cbn [NilEmpty.string_of_uint]; by rewrite Hd | done] ].
Qed.

(** Such a run is the text printed for its value. *)
Lemma digits_canonical (c : ascii) (r : string) :
  all_chars isDigit (String c r) = true → c ≠ "0"%char →
  digits (digits_value (String c r)) = String c r.
Proof.
  intros Hall Hc. destruct (digits_string_of_uint _ Hall) as (d & Hd & Hn).
  rewrite <- Hd at 1. rewrite digits_value_of_uint. unfold digits.
  change (Pos.of_uint d) with (N.of_uint d).
  by rewrite DecimalN.Unsigned.to_of, (Hn Hc).
Qed.

(** The text printed for a positive number begins with a nonzero digit. *)
Lemma digits_head (s : N) :
  (0 < s)%N →
  ∃ c r, digits s = String c r ∧ c ≠ "0"%char.
Proof.
  intros Hs. destruct s as [|p]; [lia|]. unfold digits. cbn [N.to_uint].
  pose proof (DecimalPos.Unsigned.to_uint_nonzero p) as Hz.
  pose proof (DecimalPos.Unsigned.to_of (Pos.to_uint p)) as Hu.
  rewrite DecimalPos.Unsigned.of_to in Hu. cbn [N.to_uint] in Hu. symmetry in Hu.
  destruct (Pos.to_uint p) as [|d|d|d|d|d|d|d|d|d|d] eqn:E;
    try (by eexists _, _; split; [reflexivity|discriminate]).
  - by destruct (DecimalPos.Unsigned.to_uint_nonnil p).
  - exfalso. destruct (Decimal.nzhead (Decimal.D0 d)) eqn:Hn;
      [ apply DecimalFacts.unorm_0 in Hn; rewrite Hn in Hu; by apply Hz
      | rewrite DecimalFacts.unorm_nzhead in Hu by (rewrite Hn; discriminate);
        rewrite Hu in Hn;
        by apply (DecimalFacts.nzhead_nonzero (Decimal.D0 d) d) .. ].
Qed.

Lemma digits_value_acc_lower (acc : N) (t : string) :
  (acc * 10 ^ N.of_nat (String.length t) ≤ digits_value_acc acc t)%N.
Proof.
  revert acc. induction t as [|c r IH]; intros acc.
  - cbn. lia.
  - cbn [String.length digits_value_acc].
    etrans; [|apply IH]. rewrite Nat2N.inj_succ, N.pow_succ_r'. nia.
Qed.

Lemma digit_value_positive (c : ascii) :
  isDigit c = true → c ≠ "0"%char → (1 ≤ N_of_ascii c - 48)%N.
Proof.
  intros Hc Hn.
  destruct c as [[] [] [] [] [] [] [] []]; try discriminate Hc; try (vm_compute; discriminate).
  by destruct Hn.
Qed.

(** A non-negative integer below [10^21] prints as its decimal digits. *)
Lemma toString_integer (z : Z) :
  0 ≤ z < 10 ^ 21 → toString (of_Z z) = digits (Z.to_N z).
Proof.
  intros Hz. unfold of_Z. destruct z as [|p|p]; [reflexivity| |lia].
  cbn [toString Z.to_N]. unfold toString_pos.
  destruct (strip10 (N.to_nat (N.log2 (N.pos p))) (N.pos p) 0) as [s e1] eqn:Hs.
  destruct (strip10_spec _ _ _ _ _ Hs) as (Hs0 & He1 & Hv); [done|].
  rewrite Z.sub_0_r in Hv.
  destruct (digits_head s Hs0) as (c & r & Hds & Hc).
  pose proof (digits_all_digits s) as Hall.
  pose proof (digits_value_digits s) as Hval.
  rewrite Hds in *.
  set (t := String c r +:+ repeat "0" (Z.to_nat e1)).
  assert (Hall_t : all_chars isDigit t = true).
  { subst t. rewrite all_chars_app, Hall. by apply all_chars_repeat. }
  assert (Hval_t : digits_value t = N.pos p).
  { subst t. unfold digits_value.
    rewrite digits_value_acc_app, digits_value_acc_zeros.
    fold (digits_value (String c r)). rewrite Hval.
    apply N2Z.inj. rewrite N2Z.inj_mul, N2Z.inj_pow, nat_N_Z, Z2Nat.id by lia.
    change (Z.of_N 10) with 10. lia. }
  assert (Hlen : Z.of_nat (String.length t)
                 = Z.of_nat (String.length (String c r)) + e1).
  { subst t. rewrite length_app, length_repeat. lia. }
  assert (Hbound : Z.of_nat (String.length t) ≤ 21).
  { assert (Hc' : isDigit c = true).
    { cbn [all_chars] in Hall. by apply andb_prop in Hall as [-> _]. }
    pose proof (digit_value_positive c Hc' Hc) as H1.
    assert (Hlow : (10 ^ N.of_nat (String.length (r +:+ repeat "0" (Z.to_nat e1)))
                    ≤ N.pos p)%N).
    { rewrite <- Hval_t. subst t. rewrite app_cons. unfold digits_value.
      cbn [digits_value_acc].
      etrans; [|apply digits_value_acc_lower]. nia. }
    assert (Hlt : (N.pos p < 10 ^ 21)%N).
    { apply N2Z.inj_lt. rewrite N2Z.inj_pow. cbn. lia. }
    assert (N.of_nat (String.length (r +:+ repeat "0" (Z.to_nat e1))) < 21)%N.
    { apply (N.pow_lt_mono_r_iff 10); lia. }
    subst t. rewrite app_cons. cbn [String.length]. lia. }
  assert (((Z.of_nat (String.length (String c r))
            <=? Z.of_nat (String.length (String c r)) + e1)
           && (Z.of_nat (String.length (String c r)) + e1 <=? 21)) = true) as ->.
  { apply andb_true_iff. split; apply Z.leb_le; lia. }
  replace (Z.of_nat (String.length (String c r)) + e1
           - Z.of_nat (String.length (String c r))) with e1 by lia.
  fold t. rewrite <- Hval_t. subst t. rewrite app_cons in *.
  symmetry. by apply digits_canonical.
Qed.


End PlainFacts.

(** ** The plan price *)

Module PriceFacts.
Import Effects Collab PlanDDOHelper PaymentsService JsNumber Spec RunFacts NumberFacts.

Local Open Scope Z_scope.

Lemma ten_nonzero : ¬ Qeq (Qmake 10 1) (Qmake 0 1).
Proof. discriminate. Qed.




Lemma same_value_div (x y : number) (k : Z) :
  same_value x y → same_value (div_pow10 x k) (div_pow10 y k).
Proof.
  destruct x as [| |m1 e1], y as [| |m2 e2]; try done.
  unfold same_value, value, div_pow10. intros H.
  unfold Z.sub. rewrite !(Qpower_plus _ _ (- k) ten_nonzero).
  rewrite !Qmult_assoc, H. reflexivity.
Qed.










(** A descriptor without price components has no sum: the price is
    [undefined], or the text "NaN" for the stablecoin. *)
Lemma planPriceOf_no_components (d : DDO) :
  price_components d = None →
  planPriceOf (Some d) = if decide (in_stablecoin d) then Some "NaN" else None.
Proof.
  unfold price_components, in_stablecoin, tokenAddressOf, planPriceOf. intros ->.
  by destruct (decide _).
Qed.

(** The two prices of the specification: a raw amount of 5000000 gives
    "5" in the stablecoin and "5000000" in another token. *)
Example getPlanCost_stablecoin :
  (run (getPlanCost Sample.world "key")).1
  = Return {| planPrice := Some "5"; planCredits := 100 |}.
Proof. vm_compute. reflexivity. Qed.

Example getPlanCost_other_token :
  (run (getPlanCost (Sample.with_plan (Sample.otherPlan [5000000]) Sample.world) "key")).1
  = Return {| planPrice := Some "5000000"; planCredits := 100 |}.
Proof. vm_compute. reflexivity. Qed.

End PriceFacts.

(** ** Normalization of a tool result *)

Module NormalizationFacts.
Import Effects Collab PaymentsService Spec RunFacts GatewayFacts.

Lemma callMcpTool_run
  (w : World) (toolName : string) (args : Json.value)
  (nvmApiKey planId agentDid accessToken : string) (result : Json.value) :
  session_opens w nvmApiKey planId agentDid accessToken →
  mcpConnect w (endpoint w) accessToken = Return () →
  mcpCallTool w toolName args = Return result →
  (run (callMcpTool w toolName args nvmApiKey)).1
  = Return {| output := extract_output result; content := Json.get "content" result |}.
Proof.
  intros Hs Hc Ht. unfold run, callMcpTool. fold (endpoint w).
  rewrite bind_eq, (getAgentAccessToken_run _ _ _ _ _ _ Hs).
  rewrite bind_eq. unfold newTransport. rewrite (so_url _ _ _ _ _ Hs).
  cbn [mret M_ret]. unfold try_finally. rewrite bind_eq. unfold call at 1.
  rewrite Hc, bind_eq. unfold call at 1. by rewrite Ht.
Qed.

Lemma stringify_truthy (v : Json.value) : JsString.truthy (Json.stringify v) = true.
Proof.
  destruct v as [|[]|[| |[|p|p] e]|s|items|props]; try reflexivity.
  cbn [Json.stringify JsNumber.toString].
  destruct (NumberFacts.toString_pos_read (Npos p) e) as (c & r & ? & ? & -> & _);
    [done|reflexivity].
Qed.

(** The first text block carries a non-empty string: that string is the
    output. *)
Lemma extract_output_text (result : Json.value) (items : list Json.value)
  (block : Json.value) (c : ascii) (s : string) :
  Json.get "content" result = Some (Json.JArr items) →
  List.find is_text_block items = Some block →
  Json.get "text" block = Some (Json.JStr (String c s)) →
  extract_output result = String c s.
Proof. intros Hc Hf Ht. unfold extract_output. by rewrite Hc, Hf, Ht. Qed.

(** The first text block carries a payload that is no string: its JSON
    text is the output. *)
Lemma extract_output_coerced (result : Json.value) (items : list Json.value)
  (block payload : Json.value) :
  Json.get "content" result = Some (Json.JArr items) →
  List.find is_text_block items = Some block →
  Json.get "text" block = Some payload →
  Json.typeof payload ≠ "string" →
  extract_output result = Json.stringify payload.
Proof.
  intros Hc Hf Ht Hty. unfold extract_output. rewrite Hc, Hf, Ht.
  pose proof (stringify_truthy payload) as H.
  destruct payload; try done; by rewrite H.
Qed.

(** No text block: the JSON text of the whole response is the output. *)
Lemma extract_output_no_text_block (result : Json.value) (items : list Json.value) :
  Json.get "content" result = Some (Json.JArr items) →
  List.find is_text_block items = None →
  extract_output result = Json.stringify result.
Proof.
  intros Hc Hf. unfold extract_output. rewrite Hc, Hf. cbn [JsString.truthy negb].
  by destruct result.
Qed.

(** C5, at the input where the code departs from it: the first text block
    of the response carries the empty string, and [callMcpTool] returns
    not that text but the JSON text of the whole response. *)
Theorem callMcpTool_empty_text :
  let result := Sample.textResult "" in
  let w := Sample.with_tool (Return result) Sample.world in
  List.find is_text_block [Json.JObj [("type", Json.JStr "text"); ("text", Json.JStr "")]]
  = Some (Json.JObj [("type", Json.JStr "text"); ("text", Json.JStr "")])
  ∧ (run (callMcpTool w "weather.today" (Json.JObj []) "key")).1
    = Return {| output := JsString.dq "{`content`:[{`type`:`text`,`text`:``}]}";
                content := Json.get "content" result |}
  ∧ JsString.dq "{`content`:[{`type`:`text`,`text`:``}]}" = Json.stringify result.
Proof. vm_compute. repeat split. Qed.

End NormalizationFacts.

(** ** Counting events *)

Module CountFacts.
Import Effects Notions.

Lemma count_nil (p : event → bool) : count p [] = 0%nat.
Proof. reflexivity. Qed.

Lemma count_cons (p : event → bool) (e : event) (t : trace) :
  count p (e :: t) = ((if p e then 1 else 0) + count p t)%nat.
Proof. unfold count. rewrite filter_cons. by destruct (p e). Qed.

Lemma count_app (p : event → bool) (t t' : trace) :
  count p (t ++ t') = (count p t + count p t')%nat.
Proof. unfold count. by rewrite filter_app, length_app. Qed.

(** [follows], event by event. *)

Lemma follows_nil (p q : event → bool) : follows p q [].
Proof. intros [|x before] e later [=]. Qed.

Lemma follows_seen (p q : event → bool) (x : event) (t : trace) :
  p x = true → q x = false → follows p q (x :: t).
Proof.
  intros Hp Hq [|y before] e later [= -> ->] He; [congruence|].
  exists y. split; [apply list_elem_of_here|done].
Qed.

Lemma follows_skip (p q : event → bool) (x : event) (t : trace) :
  q x = false → follows p q t → follows p q (x :: t).
Proof.
  intros Hq Ht [|y before] e later [= -> ->] He; [congruence|].
  destruct (Ht before e later eq_refl He) as (e' & Hin & Hp).
  exists e'. split; [by apply list_elem_of_further|done].
Qed.

End CountFacts.

(** ** Ordering a plan: every path *)

Module OrderingFacts.
Import Effects Collab BlockchainService PaymentsService Spec Notions RunFacts CountFacts.

Ltac order_unfold :=
  unfold run, orderPlanCredits, initializePayments,
    PlanDDOHelper.getPlanPrice, PlanDDOHelper.getTokenAddress,
    PlanDDOHelper.get1155ContractAddress, PlanDDOHelper.getTokenId,
    PlanDDOHelper.loadDDO, hasSufficientERC20Balance, getCurrentBlockNumber, findMintEvent;
  run_unfold.

Ltac order_step :=
  cbn -[PlanDDOHelper.planPriceOf PlanDDOHelper.tokenAddressOf
        PlanDDOHelper.contractAddressOf JsNumber.leb JsNumber.ToNumber count
        JsString.truthy JsString.truthy_opt String.app] in *.

Ltac counted :=
  rewrite ?count_cons, ?count_nil; cbn; repeat split; lia.

Ltac in_order :=
  repeat first [ apply follows_nil
               | apply follows_seen; [reflexivity|reflexivity]
               | apply follows_skip; [reflexivity|] ].

(** X1. Whatever the collaborators answer, [orderPlanCredits] places at
    most one order, queries the balance at most once and looks for the mint
    event at most once; an order is placed only after the balance was
    queried, and the mint event is looked for only after an order was
    placed; the plan is fetched at most three times. *)
Theorem orderPlanCredits_call_bounds (w : World) (planId nvmApiKey : string) :
  let t := (run (orderPlanCredits w planId nvmApiKey)).2 in
  (count PlanDDOHelper.is_getPlan t ≤ 3)%nat
  ∧ (count is_balanceOf t ≤ 1)%nat
  ∧ (count is_orderPlan t ≤ count is_balanceOf t)%nat
  ∧ (count is_mint t ≤ count is_orderPlan t)%nat
  ∧ follows is_balanceOf is_orderPlan t
  ∧ follows is_orderPlan is_mint t.
Proof.
  intros t. subst t. order_unfold.
  repeat (order_step; case_match; simplify_eq); order_step;
    (split; [counted|split; [counted|split; [counted|split;
       [counted|split; [in_order|in_order]]]]]).
Qed.

(** The run of [orderPlanCredits] up to the balance check, when the
    balance covers the price. *)
Lemma orderPlanCredits_ready
  (w : World) (planId nvmApiKey : string) (d : DDO) (token wallet : string) :
  order_ready w planId nvmApiKey d token wallet →
  run (orderPlanCredits w planId nvmApiKey)
  = match blockNumber w with
    | Throw e => (Throw e, [EGetPlan planId; EBalanceOf token wallet; EGetBlockNumber])
    | Return fromBlock =>
        let t := [EGetPlan planId; EBalanceOf token wallet; EGetBlockNumber;
                  EOrderPlan planId] in
        match orderPlan w planId with
        | Throw e =>
            (Return (failed (JsString.or_else (Some (error_message e))
                               "Failed to order credits for plan")),
             t ++ [ELogError "Error ordering plan credits:"])
        | Return false => (Return (failed "Failed to order credits for plan"), t)
        | Return true =>
            match PlanDDOHelper.contractAddressOf (Some d) with
            | Some contract =>
                if JsString.truthy contract then
                  match mintEvent w contract wallet planId fromBlock with
                  | Throw e =>
                      (Throw e, t ++ [EFindMintEvent contract wallet planId fromBlock])
                  | Return (Some ev) =>
                      (Return {| success := true;
                                 order_txHash := Some (txHash ev);
                                 order_credits := Some (value ev);
                                 message :=
                                   "Credits purchased and added to your balance. (tx: "
                                   +:+ txHash ev +:+ ")" |},
                       t ++ [EFindMintEvent contract wallet planId fromBlock])
                  | Return None =>
                      (Return {| success := true; order_txHash := None;
                                 order_credits := None;
                                 message := "Credits purchased and added to your balance." |},
                       t ++ [EFindMintEvent contract wallet planId fromBlock])
                  end
                else
                  (Return {| success := true; order_txHash := None; order_credits := None;
                             message := "Credits purchased and added to your balance." |}, t)
            | None =>
                (Return {| success := true; order_txHash := None; order_credits := None;
                           message := "Credits purchased and added to your balance." |}, t)
            end
        end
    end.
Proof.
  intros [Hk He Hl Hp Ht Hts Hw Hws (balance & Hb & Hc)].
  order_unfold. rewrite Hk.
  destruct (getenv w "NVM_ENVIRONMENT") as [environment|]; [|done].
  cbn [negb orb]. rewrite He. cbn [negb default] in *. rewrite Hl.
  order_step. rewrite Hp. order_step. rewrite Ht, Hw.
  cbn [JsString.truthy_opt JsString.or_else default]. rewrite Hts, Hws. order_step.
  rewrite Hws. order_step. rewrite Hb. order_step. rewrite Hc. order_step.
  destruct (blockNumber w) as [fromBlock|e]; [|done]. order_step.
  destruct (orderPlan w planId) as [[]|e]; [|done|done]. order_step.
  destruct (PlanDDOHelper.contractAddressOf (Some d)) as [contract|]; [|done].
  cbn [JsString.truthy_opt default]. destruct (JsString.truthy contract); [|done]. order_step.
  by destruct (mintEvent w contract wallet planId fromBlock) as [[ev|]|e].
Qed.

Lemma funded_ready (order : outcome bool) (mint : outcome (option ChainEvent)) :
  order_ready (Scenario.funded order mint) "plan-1" "key" (Sample.usdcPlan [5000000])
    PlanDDOHelper.usdcAddress "0xWallet".
Proof. split; try reflexivity. exists (JsNumber.Dec 9 0). split; reflexivity. Qed.

(** A reported success: the configuration was complete, the balance
    covered the price and the ledger accepted the order. *)
Lemma orderPlanCredits_success_inv
  (w : World) (planId nvmApiKey : string) (d : DDO) (res : OrderResult) :
  getPlan w 0 planId = Return (Some d) →
  (run (orderPlanCredits w planId nvmApiKey)).1 = Return res →
  success res = true →
  (∃ token wallet, order_ready w planId nvmApiKey d token wallet)
  ∧ orderPlan w planId = Return true.
Proof.
  intros Hp. order_unfold.
  destruct (JsString.truthy nvmApiKey) eqn:Hk; [|order_step; intros [=]].
  destruct (getenv w "NVM_ENVIRONMENT") as [environment|] eqn:He; [|order_step; intros [=]].
  cbn [negb orb JsString.truthy_opt].
  destruct (JsString.truthy environment) eqn:Het; [|order_step; intros [=]]. order_step.
  destruct (isLoggedIn w nvmApiKey environment) eqn:Hl; [|order_step; intros [=]].
  order_step. rewrite Hp. order_step.
  destruct (PlanDDOHelper.tokenAddressOf (Some d)) as [token|] eqn:Ht;
    cbn [JsString.truthy_opt default negb]; [|order_step; by intros [= <-]].
  destruct (JsString.truthy token) eqn:Hts; cbn [negb]; [|order_step; by intros [= <-]].
  destruct (accountAddress w) as [wallet|] eqn:Hw; cbn [JsString.or_else];
    [|order_step; by intros [= <-]].
  destruct (JsString.truthy wallet) eqn:Hws; cbn [negb JsString.truthy];
    [|order_step; by intros [= <-]].
  rewrite Hws. cbn [negb]. order_step.
  destruct (erc20Balance w token wallet) as [balance|e] eqn:Hb; [|order_step; intros [=]].
  order_step.
  destruct (JsNumber.leb _ balance) eqn:Hc; cbn [negb]; [|order_step; by intros [= <-]].
  order_step.
  destruct (blockNumber w) as [fromBlock|e]; [|order_step; intros [=]]. order_step.
  destruct (orderPlan w planId) as [[]|e]; order_step;
    [|by intros [= <-]|by intros [= <-]].
  intros Hres Hs. split; [|done].
  exists token, wallet. split; try done.
  - by rewrite He.
  - by rewrite He.
  - by exists balance.
Qed.

(** X2. A reported success is sound: when the plan record [d] is fetched
    and [orderPlanCredits] returns [success: true], then the configuration
    was complete, the wallet's balance of the plan's token covered the
    price, the ledger accepted the order, and the plan was fetched once,
    the balance read once and the order placed once, in this order. *)
Theorem orderPlanCredits_success_sound
  (w : World) (planId nvmApiKey : string) (d : DDO) (res : OrderResult) :
  getPlan w 0 planId = Return (Some d) →
  (run (orderPlanCredits w planId nvmApiKey)).1 = Return res →
  success res = true →
  ∃ token wallet,
    order_ready w planId nvmApiKey d token wallet
    ∧ orderPlan w planId = Return true
    ∧ ∃ rest, (run (orderPlanCredits w planId nvmApiKey)).2
              = [EGetPlan planId; EBalanceOf token wallet; EGetBlockNumber;
                 EOrderPlan planId] ++ rest
              ∧ count is_orderPlan rest = 0%nat.
Proof.
  intros Hp Hres Hs.
  destruct (orderPlanCredits_success_inv w planId nvmApiKey d res Hp Hres Hs)
    as ((token & wallet & Hr) & Ho).
  exists token, wallet. split; [done|]. split; [done|].
  rewrite (orderPlanCredits_ready _ _ _ _ _ _ Hr) in Hres |- *. rewrite Ho in Hres |- *.
  destruct (blockNumber w) as [fromBlock|e]; [|done].
  destruct (PlanDDOHelper.contractAddressOf (Some d)) as [contract|];
    [destruct (JsString.truthy contract);
     [destruct (mintEvent w contract wallet planId fromBlock) as [[ev|]|e]|]|];
    cbn [snd]; eexists; (split; [reflexivity|counted]).
Qed.

Lemma orderPlanCredits_success_sound_witness :
  let w := Scenario.funded (Return true) (Return None) in
  ∃ token wallet,
    order_ready w "plan-1" "key" (Sample.usdcPlan [5000000]) token wallet
    ∧ orderPlan w "plan-1" = Return true
    ∧ ∃ rest, (run (orderPlanCredits w "plan-1" "key")).2
              = [EGetPlan "plan-1"; EBalanceOf token wallet; EGetBlockNumber;
                 EOrderPlan "plan-1"] ++ rest
              ∧ count is_orderPlan rest = 0%nat.
Proof.
  apply (orderPlanCredits_success_sound (Scenario.funded (Return true) (Return None))
           "plan-1" "key" (Sample.usdcPlan [5000000])
           {| success := true; order_txHash := None; order_credits := None;
              message := "Credits purchased and added to your balance." |});
    reflexivity.
Defined.

(** X3. Once the balance covers the price and the chain height is read,
    an order that fails with an error object is reported, not thrown: an
    order the ledger rejects with an error that has a message gives
    [success: false] with that message (or "Failed to order credits for
    plan" when the message is empty) and is logged; an order answered
    without success gives [success: false] with "Failed to order credits
    for plan". In both cases the mint event is not looked for. (A
    rejection with a value that is no object, [null] or [undefined], has
    no message to read; [error] has no such value.) *)
Theorem orderPlanCredits_order_failure
  (w : World) (planId nvmApiKey : string) (d : DDO) (token wallet : string)
  (fromBlock : Z) :
  order_ready w planId nvmApiKey d token wallet →
  blockNumber w = Return fromBlock →
  let r := run (orderPlanCredits w planId nvmApiKey) in
  let t := [EGetPlan planId; EBalanceOf token wallet; EGetBlockNumber; EOrderPlan planId] in
  (∀ e, orderPlan w planId = Throw e →
        r = (Return (failed (match error_message e with
                             | EmptyString => "Failed to order credits for plan"
                             | m => m
                             end)),
             t ++ [ELogError "Error ordering plan credits:"]))
  ∧ (orderPlan w planId = Return false →
     r = (Return (failed "Failed to order credits for plan"), t)).
Proof.
  intros Hr Hb r t. subst r t. rewrite (orderPlanCredits_ready _ _ _ _ _ _ Hr), Hb.
  split.
  - intros e ->. cbn [JsString.or_else JsString.truthy]. by destruct (error_message e).
  - by intros ->.
Qed.

Lemma orderPlanCredits_order_failure_witness :
  run (orderPlanCredits (Scenario.funded (Throw (Rejected "nonce too low")) (Return None))
         "plan-1" "key")
  = (Return (failed "nonce too low"),
     [EGetPlan "plan-1"; EBalanceOf PlanDDOHelper.usdcAddress "0xWallet"; EGetBlockNumber;
      EOrderPlan "plan-1"; ELogError "Error ordering plan credits:"]).
Proof.
  apply (proj1 (orderPlanCredits_order_failure
                  (Scenario.funded (Throw (Rejected "nonce too low")) (Return None))
                  "plan-1" "key" (Sample.usdcPlan [5000000]) PlanDDOHelper.usdcAddress
                  "0xWallet" 1000 (funded_ready _ _) eq_refl)
               (Rejected "nonce too low")).
  reflexivity.
Defined.

(** X4. After an accepted order the result is [success: true]. When the
    plan record names a contract and the mint event is found, the result
    carries the event's transaction hash and value, and the message quotes
    the hash; when no mint event is found, or the record names no
    contract (then the chain is not queried), the result carries neither.
    A failure of the mint lookup is thrown to the caller although the
    order was placed. *)
Theorem orderPlanCredits_accepted
  (w : World) (planId nvmApiKey : string) (d : DDO) (token wallet : string)
  (fromBlock : Z) :
  order_ready w planId nvmApiKey d token wallet →
  blockNumber w = Return fromBlock →
  orderPlan w planId = Return true →
  let r := run (orderPlanCredits w planId nvmApiKey) in
  let plain := {| success := true; order_txHash := None; order_credits := None;
                  message := "Credits purchased and added to your balance." |} in
  (∀ contract, PlanDDOHelper.contractAddressOf (Some d) = Some contract →
     JsString.truthy contract = true →
     (∀ ev, mintEvent w contract wallet planId fromBlock = Return (Some ev) →
            r.1 = Return {| success := true;
                            order_txHash := Some (txHash ev);
                            order_credits := Some (value ev);
                            message := "Credits purchased and added to your balance. (tx: "
                                       +:+ txHash ev +:+ ")" |})
     ∧ (mintEvent w contract wallet planId fromBlock = Return None → r.1 = Return plain)
     ∧ (∀ e, mintEvent w contract wallet planId fromBlock = Throw e →
             r.1 = Throw e ∧ count is_orderPlan r.2 = 1%nat))
  ∧ (JsString.truthy_opt (PlanDDOHelper.contractAddressOf (Some d)) = false →
     r.1 = Return plain ∧ count is_mint r.2 = 0%nat).
Proof.
  intros Hr Hb Ho r plain. subst r plain.
  rewrite (orderPlanCredits_ready _ _ _ _ _ _ Hr), Hb, Ho. split.
  - intros contract -> ->. split; [|split].
    + by intros ev ->.
    + by intros ->.
    + intros e ->. split; [done|]. cbn [snd app]. counted.
  - destruct (PlanDDOHelper.contractAddressOf (Some d)) as [contract|];
      cbn [JsString.truthy_opt]; [intros ->|intros _]; (split; [done|cbn [snd]; counted]).
Qed.

Lemma orderPlanCredits_accepted_witness :
  (run (orderPlanCredits
          (Scenario.funded (Return true)
             (Return (Some {| txHash := "0xabc"; value := "100" |})))
          "plan-1" "key")).1
  = Return {| success := true; order_txHash := Some "0xabc"; order_credits := Some "100";
              message := "Credits purchased and added to your balance. (tx: 0xabc)" |}.
Proof.
  apply (proj1 (proj1 (orderPlanCredits_accepted
                         (Scenario.funded (Return true)
                            (Return (Some {| txHash := "0xabc"; value := "100" |})))
                         "plan-1" "key" (Sample.usdcPlan [5000000])
                         PlanDDOHelper.usdcAddress "0xWallet" 1000
                         (funded_ready _ _) eq_refl eq_refl)
                      "0xNFT" eq_refl eq_refl)
               {| txHash := "0xabc"; value := "100" |}).
  reflexivity.
Defined.

End OrderingFacts.

(** ** Burn confirmation: whatever the chain answers *)

Module PollingFacts.
Import Effects Collab BlockchainService PaymentsService Spec Notions RunFacts CountFacts.

(** The loop leaves a schedule of at most [remaining] polls behind, also
    when a poll fails. *)
Lemma pollBurnEvent_schedule (w : World) (contract wallet tokenId : string)
  (fromBlock : Z) (remaining : nat) :
  ∀ t : trace, ∃ k : nat,
    (k ≤ remaining)%nat ∧ (0 < remaining → 0 < k)%nat
    ∧ (pollBurnEvent w contract wallet tokenId fromBlock remaining t).2
      = t ++ schedule (EFindBurnEvent contract wallet tokenId fromBlock) k.
Proof.
  induction remaining as [|r IH]; intros t.
  - exists 0%nat. cbn. rewrite app_nil_r. repeat split; lia.
  - cbn [pollBurnEvent]. rewrite bind_eq. unfold findBurnEvent, call_nth.
    destruct (burnEvent w _ contract wallet tokenId fromBlock) as [[ev|]|e].
    + exists 1%nat. cbn. repeat split; lia.
    + destruct r as [|r'].
      * exists 1%nat. cbn. repeat split; lia.
      * rewrite bind_eq. unfold call at 1.
        destruct (IH ((t ++ [EFindBurnEvent contract wallet tokenId fromBlock])
                      ++ [EDelay 5000])) as (k & Hk & Hpos & ->).
        exists (S k). split; [lia|]. split; [lia|].
        destruct k as [|k']; [lia|]. cbn [schedule]. by rewrite <- !app_assoc.
    + exists 1%nat. cbn. repeat split; lia.
Qed.

Ltac burn_step :=
  cbn -[pollBurnEvent PlanDDOHelper.contractAddressOf JsString.truthy
        JsString.truthy_opt schedule replicate] in *.

Ltac no_poll n planId :=
  exists n, 0%nat, planId, "", ""; burn_step; split; [lia|]; split; [lia|]; reflexivity.

(** X5. Whatever the chain answers to a poll (no event, an event or a
    failure), the trace of [getBurnTransactionInfo] is made of at most two
    fetches of the plan followed by a schedule of at most 10 polls: the
    polls all carry the same query, a wait of 5000 ms stands between every
    two consecutive polls, and nothing, no wait either, follows the last
    poll. *)
Theorem getBurnTransactionInfo_bounded (w : World) (fromBlock : Z) (nvmApiKey : string) :
  ∃ (n k : nat) (planId contract wallet : string),
    (n ≤ 2)%nat ∧ (k ≤ 10)%nat
    ∧ (run (getBurnTransactionInfo w fromBlock nvmApiKey)).2
      = replicate n (EGetPlan planId)
        ++ schedule (EFindBurnEvent contract wallet planId fromBlock) k.
Proof.
  unfold run, getBurnTransactionInfo, initializePayments,
    PlanDDOHelper.get1155ContractAddress, PlanDDOHelper.getTokenId, PlanDDOHelper.loadDDO.
  run_unfold.
  destruct (JsString.truthy nvmApiKey); [|no_poll 0%nat ""].
  destruct (getenv w "PLAN_ID") as [planId|]; [|no_poll 0%nat ""].
  cbn [negb orb JsString.truthy_opt].
  destruct (JsString.truthy planId) eqn:Hp; [|no_poll 0%nat ""]. burn_step.
  destruct (isLoggedIn w nvmApiKey _); [|no_poll 0%nat ""]. burn_step.
  set (after := λ (pre : trace) (contractAddress : option string),
         (if negb (JsString.truthy_opt contractAddress) || negb (JsString.truthy planId)
             || negb (JsString.truthy (JsString.or_else (accountAddress w) ""))
          then (@Throw (option BurnInfo)
                  (JsError "Missing contract, tokenId or wallet"), pre)
          else
            let (o, t') :=
              pollBurnEvent w (default "" contractAddress)
                (JsString.or_else (accountAddress w) "") planId fromBlock 10 pre in
            match o with
            | Return (Some ev) =>
                (Return (Some {| burn_txHash := txHash ev; burn_credits := value ev;
                                 burn_planId := planId |}), t')
            | Return None => (Return None, t')
            | Throw e => (Throw e, t')
            end).2).
  assert (Hafter : ∀ n contractAddress, (n ≤ 2)%nat →
            ∃ (k : nat) (contract wallet : string), (k ≤ 10)%nat
              ∧ after (replicate n (EGetPlan planId)) contractAddress
                = replicate n (EGetPlan planId)
                  ++ schedule (EFindBurnEvent contract wallet planId fromBlock) k).
  { intros n c Hn. subst after. cbn beta.
    destruct (_ || _).
    - exists 0%nat, "", "". split; [lia|]. cbn. by rewrite app_nil_r.
    - destruct (pollBurnEvent_schedule w (default "" c)
                  (JsString.or_else (accountAddress w) "") planId fromBlock 10
                  (replicate n (EGetPlan planId))) as (k & Hk & _ & Ht).
      exists k, (default "" c), (JsString.or_else (accountAddress w) "").
      split; [lia|]. rewrite <- Ht.
      by destruct (pollBurnEvent _ _ _ _ _ _ _) as [[[ev|]|e] t']. }
  destruct (getPlan w 0 planId) as [[d|]|e]; burn_step.
  - destruct (Hafter 1%nat (PlanDDOHelper.contractAddressOf (Some d)))
      as (k & c & wl & Hk & Ht); [lia|].
    exists 1%nat, k, planId, c, wl. split; [lia|]. split; [lia|].
    rewrite <- Ht. subst after. cbn beta. rewrite Hp.
    destruct (_ || _); [done|].
    by destruct (pollBurnEvent _ _ _ _ _ _ _) as [[[ev|]|e] t'].
  - destruct (decide (true = true)) as [_|]; [|done]. burn_step.
    destruct (getPlan w 1 planId) as [d|e]; burn_step.
    + destruct (Hafter 2%nat (PlanDDOHelper.contractAddressOf d))
        as (k & c & wl & Hk & Ht); [lia|].
      exists 2%nat, k, planId, c, wl. split; [lia|]. split; [lia|].
      rewrite <- Ht. subst after. cbn beta. rewrite Hp.
      destruct (_ || _); [done|].
      by destruct (pollBurnEvent _ _ _ _ _ _ _) as [[[ev|]|e'] t'].
    + no_poll 2%nat planId.
  - no_poll 1%nat planId.
Qed.

(** X6. [getBurnTransactionInfo] queries the chain only when everything
    it needs is there: if its trace holds a poll, then the API key is not
    empty, [PLAN_ID] is set, the principal is logged in, the wallet address
    is known, and the poll names that wallet and, as token id, the plan
    id. *)
Theorem getBurnTransactionInfo_polls_only_when_ready
  (w : World) (fromBlock : Z) (nvmApiKey contract wallet tokenId : string) (from : Z) :
  In (EFindBurnEvent contract wallet tokenId from)
     (run (getBurnTransactionInfo w fromBlock nvmApiKey)).2 →
  JsString.truthy nvmApiKey = true
  ∧ getenv w "PLAN_ID" = Some tokenId ∧ JsString.truthy tokenId = true
  ∧ isLoggedIn w nvmApiKey (JsString.or_else (getenv w "NVM_ENVIRONMENT") "testing") = true
  ∧ accountAddress w = Some wallet ∧ JsString.truthy wallet = true
  ∧ JsString.truthy contract = true
  ∧ from = fromBlock.
Proof.
  unfold run, getBurnTransactionInfo, initializePayments,
    PlanDDOHelper.get1155ContractAddress, PlanDDOHelper.getTokenId, PlanDDOHelper.loadDDO.
  run_unfold.
  destruct (JsString.truthy nvmApiKey) eqn:Hk; [|burn_step; done].
  destruct (getenv w "PLAN_ID") as [planId|]; [|burn_step; done].
  cbn [negb orb JsString.truthy_opt].
  destruct (JsString.truthy planId) eqn:Hp; [|burn_step; done]. burn_step.
  destruct (isLoggedIn w nvmApiKey _) eqn:Hl; [|burn_step; done]. burn_step.
  assert (Hpoll : ∀ (pre : trace) (c : option string),
            ¬ In (EFindBurnEvent contract wallet tokenId from) pre →
            In (EFindBurnEvent contract wallet tokenId from)
               (if negb (JsString.truthy_opt c) || negb (JsString.truthy planId)
                   || negb (JsString.truthy (JsString.or_else (accountAddress w) ""))
                then (@Throw (option BurnInfo)
                        (JsError "Missing contract, tokenId or wallet"), pre)
                else
                  let (o, t') :=
                    pollBurnEvent w (default "" c)
                      (JsString.or_else (accountAddress w) "") planId fromBlock 10 pre in
                  match o with
                  | Return (Some ev) =>
                      (Return (Some {| burn_txHash := txHash ev; burn_credits := value ev;
                                       burn_planId := planId |}), t')
                  | Return None => (Return None, t')
                  | Throw e => (Throw e, t')
                  end).2 →
            Some planId = Some tokenId ∧ true = true
            ∧ accountAddress w = Some wallet ∧ JsString.truthy wallet = true
            ∧ JsString.truthy contract = true ∧ from = fromBlock).
  { intros pre c Hpre.
    destruct c as [c|]; cbn [JsString.truthy_opt negb orb default]; [|done].
    destruct (JsString.truthy c) eqn:Hc; cbn [negb orb]; [|done].
    rewrite Hp. cbn [negb orb].
    destruct (accountAddress w) as [wl|]; cbn [JsString.or_else JsString.truthy negb];
      [|done].
    destruct (JsString.truthy wl) eqn:Hw; cbn [negb JsString.truthy]; [|done].
    rewrite Hw. cbn [negb].
    destruct (pollBurnEvent_schedule w c wl planId fromBlock 10 pre) as (k & _ & _ & Ht).
    intros Hin.
    assert (Hin' : In (EFindBurnEvent contract wallet tokenId from)
                      (pre ++ schedule (EFindBurnEvent c wl planId fromBlock) k)).
    { rewrite <- Ht. by destruct (pollBurnEvent _ _ _ _ _ _ _) as [[[ev|]|e] t']. }
    apply in_app_or in Hin' as [Hin'|Hin']; [done|].
    assert (Hs : ∀ k, In (EFindBurnEvent contract wallet tokenId from)
                         (schedule (EFindBurnEvent c wl planId fromBlock) k) →
                      EFindBurnEvent c wl planId fromBlock
                      = EFindBurnEvent contract wallet tokenId from).
    { clear. induction k as [|k IH]; [done|]. destruct k as [|k'].
      - cbn. by intros [H|[]].
      - change (schedule ?p (S (S k'))) with (p :: EDelay 5000 :: schedule p (S k')).
        intros [H|[H|H]]; [done|done|by apply IH]. }
    apply Hs in Hin'. by simplify_eq. }
  destruct (getPlan w 0 planId) as [[d|]|e]; burn_step.
  - intros Hin. rewrite Hp in Hin.
    destruct (Hpoll [EGetPlan planId] (PlanDDOHelper.contractAddressOf (Some d)))
      as (? & ? & ? & ? & ? & ?); [by intros [|[]]| |by simplify_eq].
    rewrite Hp. destruct (_ || _); [done|].
    by destruct (pollBurnEvent _ _ _ _ _ _ _) as [[[ev|]|e] t'].
  - destruct (decide (true = true)) as [_|]; [|done]. burn_step.
    destruct (getPlan w 1 planId) as [d|e]; burn_step.
    + intros Hin. rewrite Hp in Hin.
      destruct (Hpoll [EGetPlan planId; EGetPlan planId] (PlanDDOHelper.contractAddressOf d))
        as (? & ? & ? & ? & ? & ?); [by intros [|[|[]]]| |by simplify_eq].
      rewrite Hp. destruct (_ || _); [done|].
      by destruct (pollBurnEvent _ _ _ _ _ _ _) as [[[ev|]|e'] t'].
    + by intros [|[|[]]].
  - by intros [|[]].
Qed.

Lemma getBurnTransactionInfo_polls_only_when_ready_witness :
  JsString.truthy "key" = true
  ∧ getenv Sample.world "PLAN_ID" = Some "plan-1" ∧ JsString.truthy "plan-1" = true
  ∧ isLoggedIn Sample.world "key"
      (JsString.or_else (getenv Sample.world "NVM_ENVIRONMENT") "testing") = true
  ∧ accountAddress Sample.world = Some "0xWallet" ∧ JsString.truthy "0xWallet" = true
  ∧ JsString.truthy "0xNFT" = true
  ∧ 5 = 5.
Proof.
  apply (getBurnTransactionInfo_polls_only_when_ready Sample.world 5 "key"
           "0xNFT" "0xWallet" "plan-1" 5).
  vm_compute. auto.
Defined.

End PollingFacts.

(** ** The tool gateway: sessions *)

Module SessionFacts.
Import Effects Collab PaymentsService Spec Notions RunFacts CountFacts.

Ltac gate_unfold :=
  unfold run, createTask, listMcpTools, callMcpTool, getAgentAccessToken,
    initializePayments, newTransport, closeClient;
  run_unfold.

Ltac gate_step :=
  cbn -[count JsString.truthy JsString.truthy_opt JsString.or_else Json.ToString
        Json.truthy Json.get extract_output last] in *.

Ltac gate_cases := repeat (gate_step; case_match; simplify_eq); gate_step.

Ltac tally := rewrite ?count_cons, ?count_nil; cbn; repeat split; (lia || done).

(** The part of a trace before its connect, and what follows the connect. *)
Ltac at_connect l k :=
  lazymatch l with
  | EMcpConnect ?e ?a :: ?rest => k (@nil event) e a rest
  | ?x :: ?rest => at_connect rest ltac:(fun b e a r => k (x :: b) e a r)
  end.

(** A trace without its last event. *)
Ltac but_last l :=
  lazymatch l with
  | [?x] => constr:(@nil event)
  | ?x :: ?rest => let r := but_last rest in constr:(x :: r)
  end.

Ltac bracket :=
  lazymatch goal with
  | |- bracketed ?t =>
      first
        [ left; unfold offline; tally
        | right;
          at_connect t ltac:(fun b e a r =>
            let i := but_last r in
            exists b, e, a, i; split; [reflexivity|unfold offline; tally]) ]
  end.

(** X7. Whatever the collaborators answer, [createTask], [listMcpTools]
    and [callMcpTool] either do not reach the tool server at all or hold
    exactly one session with it: they connect once, send at most one
    request, and send it after the connect and before the close; and they
    close every session they open: the close is the last thing they do,
    also when connecting or the request failed, and also when the close
    itself fails. *)
Theorem gateway_sessions_closed
  (w : World) (input : Json.value) (toolName : string) (args : Json.value)
  (nvmApiKey : string) :
  bracketed (run (createTask w input nvmApiKey)).2
  ∧ bracketed (run (listMcpTools w nvmApiKey)).2
  ∧ bracketed (run (callMcpTool w toolName args nvmApiKey)).2.
Proof.
  split; [|split]; gate_unfold; gate_cases; bracket.
Qed.

Lemma sample_session : session_opens Sample.world "key" "plan-1" "did:nv:agent" "token".
Proof. split; vm_compute; reflexivity. Qed.

(** X8. Once the access token is issued and the endpoint is a URL,
    [createTask] and [listMcpTools] return normally whatever the tool
    server does (refuse the connection, fail the request, fail the close),
    after connecting exactly once and closing exactly once. *)
Theorem gateway_absorbs_failures
  (w : World) (nvmApiKey planId agentDid accessToken : string) (input : Json.value) :
  session_opens w nvmApiKey planId agentDid accessToken →
  let task := run (createTask w input nvmApiKey) in
  let tools := run (listMcpTools w nvmApiKey) in
  (∃ out, task.1 = Return out)
  ∧ count is_connect task.2 = 1%nat ∧ count is_close task.2 = 1%nat
  ∧ (∃ list, tools.1 = Return list)
  ∧ count is_connect tools.2 = 1%nat ∧ count is_close tools.2 = 1%nat.
Proof.
  intros Hs task tools. subst task tools. unfold run, createTask, listMcpTools.
  fold (endpoint w).
  rewrite !bind_eq, !(GatewayFacts.getAgentAccessToken_run _ _ _ _ _ _ Hs).
  rewrite !bind_eq. unfold newTransport. rewrite (so_url _ _ _ _ _ Hs).
  unfold closeClient. run_unfold.
  repeat split; gate_cases; try (by eexists); rewrite ?count_cons, ?count_nil; cbn; lia.
Qed.

Lemma gateway_absorbs_failures_witness :
  let w := Sample.with_connect (Throw (Rejected "ECONNREFUSED")) Sample.world in
  let task := run (createTask w (Json.JStr "Lima") "key") in
  let tools := run (listMcpTools w "key") in
  (∃ out, task.1 = Return out)
  ∧ count is_connect task.2 = 1%nat ∧ count is_close task.2 = 1%nat
  ∧ (∃ list, tools.1 = Return list)
  ∧ count is_connect tools.2 = 1%nat ∧ count is_close tools.2 = 1%nat.
Proof.
  apply (gateway_absorbs_failures
           (Sample.with_connect (Throw (Rejected "ECONNREFUSED")) Sample.world)
           "key" "plan-1" "did:nv:agent" "token").
  split; vm_compute; reflexivity.
Defined.

(** X9. Given an object, [createTask] looks at its [tool] property only.
    When that is a string, exactly that tool is called, with the object's
    [args] when they are truthy and with [{}] otherwise; the configured
    default tool plays no part. When it is anything else and the object
    has no [toString] property of its own (with one, [String(input)]
    throws), the object is taken for a text: the default tool is called
    with the city "[object Object]". *)
Theorem createTask_object_input
  (w : World) (props : list (string * Json.value))
  (nvmApiKey planId agentDid accessToken : string) :
  session_opens w nvmApiKey planId agentDid accessToken →
  mcpConnect w (endpoint w) accessToken = Return () →
  let calls := filter (λ e, is_callTool e = true)
                 (run (createTask w (Json.JObj props) nvmApiKey)).2 in
  (∀ tool, Json.assoc "tool" props = Some (Json.JStr tool) →
     calls = [EMcpCallTool tool
                (match Json.assoc "args" props with
                 | Some a => if Json.truthy a then a else Json.JObj []
                 | None => Json.JObj []
                 end)])
  ∧ (Json.typeof_opt (Json.assoc "tool" props) ≠ "string" →
     Json.assoc "toString" props = None →
     calls = [EMcpCallTool (default_tool (getenv w "MCP_TOOL") (getenv w "RAW"))
                (Json.JObj [("city", Json.JStr "[object Object]")])]).
Proof.
  intros Hs Hc calls. subst calls. unfold run, createTask. fold (endpoint w).
  rewrite bind_eq, (GatewayFacts.getAgentAccessToken_run _ _ _ _ _ _ Hs).
  rewrite bind_eq. unfold newTransport. rewrite (so_url _ _ _ _ _ Hs).
  cbn [mret M_ret]. unfold try_finally, try_catch.
  rewrite bind_eq. unfold call at 1. rewrite Hc.
  rewrite GatewayFacts.default_tool_eq. cbn [Json.get].
  unfold closeClient, swallow, try_catch, log. split.
  - intros tool ->. rewrite bind_eq. unfold call.
    destruct (mcpCallTool w tool _) as [result|e]; run_unfold;
      destruct (mcpClose w); reflexivity.
  - intros Hty _.
    destruct (Json.assoc "tool" props) as [[| | |tool| |]|]; try (by destruct Hty);
      cbn [Json.truthy Json.ToString JsString.truthy]; run_unfold;
      destruct (mcpCallTool w _ _) as [result|e];
      destruct (mcpClose w); reflexivity.
Qed.

Lemma createTask_object_input_witness :
  filter (λ e, is_callTool e = true)
    (run (createTask Sample.world
            (Json.JObj [("tool", Json.JStr "weather.forecast");
                        ("args", Json.JObj [("days", Json.JNum (JsNumber.Dec 3 0))])])
            "key")).2
  = [EMcpCallTool "weather.forecast" (Json.JObj [("days", Json.JNum (JsNumber.Dec 3 0))])]
  ∧ filter (λ e, is_callTool e = true)
      (run (createTask Sample.world (Json.JObj [("city", Json.JStr "Lima")]) "key")).2
    = [EMcpCallTool "weather.today" (Json.JObj [("city", Json.JStr "[object Object]")])].
Proof.
  split.
  - apply (proj1 (createTask_object_input Sample.world
                    [("tool", Json.JStr "weather.forecast");
                     ("args", Json.JObj [("days", Json.JNum (JsNumber.Dec 3 0))])]
                    "key" "plan-1" "did:nv:agent" "token" sample_session eq_refl)
                 "weather.forecast").
    reflexivity.
  - apply (proj2 (createTask_object_input Sample.world [("city", Json.JStr "Lima")]
                    "key" "plan-1" "did:nv:agent" "token" sample_session eq_refl)).
    + vm_compute. congruence.
    + reflexivity.
Defined.

(** X10. When the tool answers with content blocks and the first block of
    type "text" carries a non-empty string, that string is the output of
    both [callMcpTool] and [createTask]; blocks before it that are no text
    blocks, and any block after it, play no part. [callMcpTool] also hands
    the content array back unchanged. *)
Theorem gateway_text_output
  (w : World) (toolName : string) (args : Json.value)
  (nvmApiKey planId agentDid accessToken : string)
  (result : Json.value) (items : list Json.value) (block : Json.value)
  (c : ascii) (s : string) :
  session_opens w nvmApiKey planId agentDid accessToken →
  mcpConnect w (endpoint w) accessToken = Return () →
  mcpCallTool w toolName args = Return result →
  Json.get "content" result = Some (Json.JArr items) →
  List.find is_text_block items = Some block →
  Json.get "text" block = Some (Json.JStr (String c s)) →
  (run (callMcpTool w toolName args nvmApiKey)).1
  = Return {| output := String c s; content := Some (Json.JArr items) |}
  ∧ (Json.truthy args = true →
     (run (createTask w (Json.JObj [("tool", Json.JStr toolName); ("args", args)])
             nvmApiKey)).1
     = Return {| task_output := String c s |}).
Proof.
  intros Hs Hc Ht Hcontent Hfind Htext.
  assert (Hout : extract_output result = String c s).
  { unfold extract_output. by rewrite Hcontent, Hfind, Htext. }
  split.
  - unfold run, callMcpTool. fold (endpoint w).
    rewrite bind_eq, (GatewayFacts.getAgentAccessToken_run _ _ _ _ _ _ Hs).
    rewrite bind_eq. unfold newTransport. rewrite (so_url _ _ _ _ _ Hs).
    cbn [mret M_ret]. unfold try_finally. rewrite bind_eq. unfold call at 1.
    rewrite Hc, bind_eq. unfold call at 1. by rewrite Ht, Hout, Hcontent.
  - unfold run, createTask. fold (endpoint w).
    rewrite !bind_eq, !(GatewayFacts.getAgentAccessToken_run _ _ _ _ _ _ Hs).
    rewrite !bind_eq. unfold newTransport. rewrite (so_url _ _ _ _ _ Hs).
    cbn [mret M_ret]. unfold try_finally, try_catch.
    intros Hargs.
    rewrite !bind_eq. unfold call at 1.
    rewrite Hc. cbn [Json.get Json.assoc String.eqb Ascii.eqb Bool.eqb].
    rewrite Hargs, bind_eq. unfold call at 1. by rewrite Ht, Hout.
Qed.

Lemma gateway_text_output_witness :
  (run (callMcpTool Sample.world "weather.today"
          (Json.JObj [("city", Json.JStr "Lima")]) "key")).1
  = Return {| output := "72F";
              content := Some (Json.JArr [Json.JObj [("type", Json.JStr "text");
                                                     ("text", Json.JStr "72F")]]) |}.
Proof.
  apply (proj1 (gateway_text_output Sample.world "weather.today"
                  (Json.JObj [("city", Json.JStr "Lima")])
                  "key" "plan-1" "did:nv:agent" "token" (Sample.textResult "72F")
                  [Json.JObj [("type", Json.JStr "text"); ("text", Json.JStr "72F")]]
                  (Json.JObj [("type", Json.JStr "text"); ("text", Json.JStr "72F")])
                  "7" "2F" sample_session eq_refl eq_refl eq_refl eq_refl eq_refl)).
Defined.

End SessionFacts.

(** ** The plan record: what is not cached *)

Module RefetchFacts.
Import Effects Collab PlanDDOHelper Notions RunFacts CountFacts.

Lemma invoke_absent (w : World) (pid : string) (m : method) (tr : trace) :
  (∀ n d, getPlan w n pid ≠ Return (Some d)) →
  ∃ o, (match o with Return (a, h) => h = new pid | Throw _ => True end)
       ∧ invoke w m (new pid) tr
         = (o, tr ++ if loads m then [EGetPlan pid] else []).
Proof.
  intros Habsent.
  destruct m; unfold invoke, getTokenAddress, getPlanPrice, getPlanCredits, getTokenId,
    get1155ContractAddress, loadDDO; cbn [ddo new planId loads]; run_unfold;
    try (destruct (getPlan w _ pid) as [[d|]|e] eqn:E;
         [by destruct (Habsent _ _ E)|eexists; split; [|reflexivity]; done..]).
  eexists. split; [|by rewrite app_nil_r]. done.
Qed.

(** X11. A fetch that brings no plan record is not remembered. On a fresh
    instance, as long as the ledger answers every fetch without a record
    (with a falsy value or with a failure), every call of [loadDDO] or of
    an accessor that goes through it fetches the plan again: [n] such
    calls make [n] fetches, and the instance stays without a record. Only
    [getTokenId] fetches nothing. *)
Theorem plan_absence_not_cached
  (w : World) (pid : string) (ms : list method) (tr : trace) :
  (∀ n d, getPlan w n pid ≠ Return (Some d)) →
  let r := invoke_all w ms (new pid) tr in
  r.1.2 = new pid
  ∧ r.2 = tr ++ replicate (length (filter (λ m, loads m = true) ms)) (EGetPlan pid).
Proof.
  intros Habsent. cbn zeta. revert tr.
  induction ms as [|m ms IH]; intros tr; [by rewrite app_nil_r|].
  cbn [invoke_all].
  destruct (invoke_absent w pid m tr Habsent) as (o & Ho & ->).
  assert (Hrep : ∀ t : trace,
            (tr ++ (if loads m then [EGetPlan pid] else []))
            ++ replicate (length (filter (λ m, loads m = true) ms)) (EGetPlan pid)
            = tr ++ replicate (length (filter (λ m, loads m = true) (m :: ms)))
                      (EGetPlan pid)).
  { intros _. rewrite filter_cons. destruct (loads m); cbn.
    - by rewrite <- app_assoc.
    - by rewrite app_nil_r. }
  destruct o as [[a h]|e].
  - subst h. specialize (IH (tr ++ if loads m then [EGetPlan pid] else [])).
    destruct (invoke_all w ms (new pid) _) as [[answers h''] tr''].
    cbn [fst snd] in *. destruct IH as [-> ->]. split; [done|]. by apply Hrep.
  - specialize (IH (tr ++ if loads m then [EGetPlan pid] else [])).
    destruct (invoke_all w ms (new pid) _) as [[answers h''] tr''].
    cbn [fst snd] in *. destruct IH as [-> ->]. split; [done|]. by apply Hrep.
Qed.

Lemma plan_absence_not_cached_witness :
  let w := Scenario.with_getPlan (λ _, Return None) Sample.world in
  let r := invoke_all w [GetPlanPrice; GetTokenId; GetTokenAddress; LoadDDO]
             (new "plan-1") [] in
  r.1.2 = new "plan-1"
  ∧ r.2 = [] ++ replicate 3 (EGetPlan "plan-1").
Proof.
  apply (plan_absence_not_cached
           (Scenario.with_getPlan (λ _, Return None) Sample.world) "plan-1"
           [GetPlanPrice; GetTokenId; GetTokenAddress; LoadDDO] []).
  intros n d. discriminate.
Defined.

End RefetchFacts.

(** ** The route handlers *)

Module HandlerFacts.
Import Effects Collab PaymentsService Handlers Spec Notions RunFacts CountFacts.

Lemma bearer_denied (auth : option string) (deny : Routes.Response) :
  bearer auth = inl deny → Routes.status deny = 401.
Proof.
  unfold bearer. destruct auth as [a|]; [|by intros [= <-]].
  destruct (_ && _); [|by intros [= <-]].
  destruct (JsString.truthy _); [done|by intros [= <-]].
Qed.

(** X12. No protected route does anything for a request without a bearer
    key: when the [Authorization] header is missing, does not start with
    "Bearer " or carries no key, the handlers of [/api/credit],
    [/api/order-plan], [/api/agent], [/api/mcp/tools], [/api/mcp/tool],
    [/api/task] and [/api/plan/cost] contact no collaborator, and whatever
    they answer has the status 400, 401 or 500, never 200. *)
Theorem protected_routes_need_key
  (w : World) (req : Request) (deny : Routes.Response)
  (handler : World → Request → M Routes.Response) :
  In handler protected →
  bearer (req_authorization req) = inl deny →
  (run (handler w req)).2 = []
  ∧ ∀ resp, (run (handler w req)).1 = Return resp →
            In (Routes.status resp) [400; 401; 500].
Proof.
  intros Hin Hdeny. pose proof (bearer_denied _ _ Hdeny) as H401.
  unfold protected in Hin. cbn [In] in Hin.
  destruct Hin as [<-|[<-|[<-|[<-|[<-|[<-|[<-|[]]]]]]]];
    unfold run, api_credit, api_order_plan, api_agent, api_mcp_tools, api_mcp_tool,
      api_task, api_plan_cost, destructure; rewrite ?Hdeny; run_unfold;
    repeat (cbn -[bearer JsString.truthy_opt Json.get Json.typeof_opt Json.truthy_opt
                  or_empty]; case_match; simplify_eq);
    cbn; (split; [done|]); intros resp [= <-]; cbn; rewrite ?H401; auto.
Qed.

Lemma protected_routes_need_key_witness :
  (run (api_credit Sample.world
          {| req_body := None; req_query := ∅; req_authorization := Some "Basic abc" |})).2
  = []
  ∧ ∀ resp,
      (run (api_credit Sample.world
              {| req_body := None; req_query := ∅;
                 req_authorization := Some "Basic abc" |})).1 = Return resp →
      In (Routes.status resp) [400; 401; 500].
Proof.
  apply (protected_routes_need_key Sample.world
           {| req_body := None; req_query := ∅; req_authorization := Some "Basic abc" |}
           (respond 401 (Routes.error_body "Missing or invalid Authorization header"))).
  - left. reflexivity.
  - reflexivity.
Defined.

(** X13. The handlers of [/api/credit], [/api/mcp/tools], [/api/mcp/tool],
    [/api/latest-block], [/api/task] and [/api/plan/cost] always answer:
    whatever the request and whatever the collaborators do, they return a
    response, with the status 200, 400, 401 or 500, and throw nothing. *)
Theorem guarded_routes_always_answer
  (w : World) (req : Request) (handler : World → Request → M Routes.Response) :
  In handler guarded →
  ∃ resp, (run (handler w req)).1 = Return resp
          ∧ In (Routes.status resp) [200; 400; 401; 500].
Proof.
  intros Hin. unfold guarded in Hin. cbn [In] in Hin.
  destruct Hin as [<-|[<-|[<-|[<-|[<-|[<-|[]]]]]]];
    unfold run, api_credit, api_mcp_tools, api_mcp_tool, api_latest_block, api_task,
      api_plan_cost, PaymentsTasks.getTask;
    try (destruct (bearer (req_authorization req)) as [deny|key] eqn:Hb;
         [pose proof (bearer_denied _ _ Hb) as H401|]);
    run_unfold;
    repeat (cbn -[bearer JsString.truthy_opt Json.get Json.typeof_opt Json.truthy_opt
                  or_empty getUserCredits listMcpTools callMcpTool getPlanCost
                  BlockchainService.getCurrentBlockNumber];
            case_match; simplify_eq);
    cbn; eexists; (split; [reflexivity|]); cbn; rewrite ?H401; auto.
Qed.

Lemma guarded_routes_always_answer_witness :
  ∃ resp,
    (run (api_mcp_tools (Sample.with_connect (Throw (Rejected "ECONNREFUSED")) Sample.world)
            {| req_body := None; req_query := ∅;
               req_authorization := Some "Bearer key" |})).1 = Return resp
    ∧ In (Routes.status resp) [200; 400; 401; 500].
Proof.
  apply (guarded_routes_always_answer
           (Sample.with_connect (Throw (Rejected "ECONNREFUSED")) Sample.world)
           {| req_body := None; req_query := ∅; req_authorization := Some "Bearer key" |}).
  right. left. reflexivity.
Defined.

(** X14. [/api/mcp/tool] hands the tool server nothing but objects: every
    tool call in the trace of the handler names the [tool] string of the
    body and carries arguments that are the body's [args] when those are
    an object or an array, and the empty object [{}] otherwise; a body
    whose [args] is a truthy value of another type is refused with 400
    before anything is contacted. *)
Theorem mcp_tool_forwards_objects
  (w : World) (req : Request) (name : string) (args : Json.value) :
  In (EMcpCallTool name args) (run (api_mcp_tool w req)).2 →
  Json.get "tool" (or_empty (req_body req)) = Some (Json.JStr name)
  ∧ args = or_empty (Json.get "args" (or_empty (req_body req)))
  ∧ Json.typeof args = "object" ∧ Json.truthy args = true.
Proof.
  unfold run, api_mcp_tool.
  destruct (Json.get "tool" (or_empty (req_body req))) as [[| | |tool| |]|]; try (by intros []).
  set (a := Json.get "args" (or_empty (req_body req))).
  destruct (Json.truthy_opt a && negb (String.eqb (Json.typeof_opt a) "object")) eqn:Ha;
    [by intros []|].
  assert (Hobj : Json.typeof (or_empty a) = "object" ∧ Json.truthy (or_empty a) = true).
  { destruct a as [[|[]|[| |[]]|[]| |]|]; cbn in Ha |- *; done. }
  destruct (bearer (req_authorization req)) as [deny|key]; [by intros []|].
  unfold callMcpTool, getAgentAccessToken, initializePayments, newTransport, closeClient.
  run_unfold.
  repeat (cbn -[JsString.truthy JsString.truthy_opt JsString.or_else or_empty
                extract_output Json.get];
          case_match; simplify_eq);
    cbn -[or_empty]; intros Hin;
    repeat (destruct Hin as [Hin|Hin]; [simplify_eq|]); try done;
    by destruct Hobj.
Qed.

Lemma mcp_tool_forwards_objects_witness :
  let req := {| req_body := Some (Json.JObj [("tool", Json.JStr "weather.today");
                                               ("args", Json.JNum (JsNumber.Dec 0 0))]);
                req_query := ∅; req_authorization := Some "Bearer key" |} in
  Json.get "tool" (or_empty (req_body req)) = Some (Json.JStr "weather.today")
  ∧ Json.JObj [] = or_empty (Json.get "args" (or_empty (req_body req)))
  ∧ Json.typeof (Json.JObj []) = "object" ∧ Json.truthy (Json.JObj []) = true.
Proof.
  apply (mcp_tool_forwards_objects Sample.world
           {| req_body := Some (Json.JObj [("tool", Json.JStr "weather.today");
                                           ("args", Json.JNum (JsNumber.Dec 0 0))]);
              req_query := ∅; req_authorization := Some "Bearer key" |}
           "weather.today" (Json.JObj [])).
  vm_compute. auto.
Defined.

(** X15. [/api/agent] refuses with 400, before anything is contacted, a
    body whose [input_query] is neither a string nor an object with a
    string [tool]. For a text, once the access token is issued and the
    endpoint is a URL, it answers 200 whatever the tool server does: a
    connection or a request that fails shows only in the output
    "Error creating task". *)
Theorem agent_route_answers
  (w : World) (req : Request) (body : Json.value)
  (nvmApiKey planId agentDid accessToken : string) :
  req_body req = Some body → body ≠ Json.JNull →
  bearer (req_authorization req) = inr nvmApiKey →
  let r := run (api_agent w req) in
  (Json.typeof_opt (Json.get "input_query" body) ≠ "string"
   → Json.typeof_opt (Json.get "input_query" body ≫= Json.get "tool") ≠ "string"
   → r = (Return (respond 400 (Routes.error_body "Missing or invalid input_query")), []))
  ∧ (∀ text, Json.get "input_query" body = Some (Json.JStr text) →
       session_opens w nvmApiKey planId agentDid accessToken →
       (∃ out, r.1 = Return (respond 200 (Json.JObj [("output", Json.JStr out)])))
       ∧ ∀ e, transport_fails w accessToken e →
              r.1 = Return (respond 200
                              (Json.JObj [("output", Json.JStr "Error creating task")]))).
Proof.
  intros Hbody Hnull Hkey r. subst r. unfold run, api_agent, destructure.
  rewrite Hbody, Hkey.
  assert (∀ A (x y : A), match body with Json.JNull => x | _ => y end = y) as ->
    by (intros; by destruct body).
  rewrite bind_eq. cbn [mret M_ret]. split.
  - intros H1 H2.
    destruct (Json.get "input_query" body) as [q|]; cbn in H1, H2 |- *.
    + destruct q as [|b|x| |items|props]; cbn in H1, H2 |- *; try done.
      * by rewrite !andb_false_r.
      * by rewrite !andb_false_r.
      * destruct (Json.assoc "tool" props) as [[]|]; done.
    + done.
  - intros text -> Hs. cbn [Json.typeof_opt Json.typeof String.eqb Ascii.eqb Bool.eqb
                             negb andb default].
    unfold try_catch, createTask. fold (endpoint w).
    rewrite !bind_eq, !(GatewayFacts.getAgentAccessToken_run _ _ _ _ _ _ Hs).
    rewrite !bind_eq. unfold newTransport. rewrite (so_url _ _ _ _ _ Hs).
    cbn [mret M_ret]. unfold try_finally, try_catch. rewrite !bind_eq. unfold call at 1.
    split.
    + destruct (mcpConnect w (endpoint w) accessToken); run_unfold;
        [|by eexists].
      cbn. destruct (mcpCallTool w _ _); by eexists.
    + intros e [Hc | (Hc & _ & Ht)]; rewrite Hc; [done|].
      run_unfold.
      cbn -[JsString.or_else JsString.truthy_opt JsString.truthy extract_output
            Json.ToString Json.truthy].
      by rewrite Ht.
Qed.

Lemma agent_route_answers_witness :
  (run (api_agent (Sample.with_connect (Throw (Rejected "ECONNREFUSED")) Sample.world)
          {| req_body := Some (Json.JObj [("input_query", Json.JStr "Lima")]);
             req_query := ∅; req_authorization := Some "Bearer key" |})).1
  = Return (respond 200 (Json.JObj [("output", Json.JStr "Error creating task")])).
Proof.
  refine (proj2 (proj2 (agent_route_answers
                   (Sample.with_connect (Throw (Rejected "ECONNREFUSED")) Sample.world)
                   {| req_body := Some (Json.JObj [("input_query", Json.JStr "Lima")]);
                      req_query := ∅; req_authorization := Some "Bearer key" |}
                   (Json.JObj [("input_query", Json.JStr "Lima")])
                   "key" "plan-1" "did:nv:agent" "token" eq_refl _ eq_refl)
                  "Lima" eq_refl _) (Rejected "ECONNREFUSED") _).
  - discriminate.
  - split; vm_compute; reflexivity.
  - left. reflexivity.
Defined.

(** X16. [/api/order-plan], for a request with a bearer key and with
    [PLAN_ID] set, answers with what [orderPlanCredits] reports: 402 with
    the failure's message, or 200. A 200 means that the order was placed
    and accepted: when the plan record [d] is fetched, the configuration
    was complete, the balance covered the price and the ledger accepted
    the order. What [orderPlanCredits] throws is not caught: it leaves the
    handler. *)
Theorem order_plan_route_status
  (w : World) (req : Request) (planId nvmApiKey : string) (d : DDO) :
  getenv w "PLAN_ID" = Some planId → JsString.truthy planId = true →
  bearer (req_authorization req) = inr nvmApiKey →
  getPlan w 0 planId = Return (Some d) →
  let r := run (api_order_plan w req) in
  (∀ resp, r.1 = Return resp →
     (Routes.status resp = 200
      ∧ (∃ token wallet, order_ready w planId nvmApiKey d token wallet)
      ∧ orderPlan w planId = Return true
      ∧ Json.get "planId" (Routes.body resp) = Some (Json.JStr planId))
     ∨ (Routes.status resp = 402
        ∧ ∃ res, (run (orderPlanCredits w planId nvmApiKey)).1 = Return res
                 ∧ success res = false
                 ∧ Routes.body resp = Routes.error_body (message res)))
  ∧ (∀ e, (run (orderPlanCredits w planId nvmApiKey)).1 = Throw e → r.1 = Throw e).
Proof.
  intros Hplan Hset Hkey Hd r. subst r. unfold run, api_order_plan.
  rewrite Hplan, Hkey. cbn [JsString.truthy_opt default from_option id].
  rewrite Hset. cbn [negb]. rewrite bind_eq.
  pose proof (OrderingFacts.orderPlanCredits_success_inv w planId nvmApiKey d) as Hinv.
  unfold run in Hinv.
  destruct (orderPlanCredits w planId nvmApiKey []) as [[res|e] t]; cbn [fst] in *.
  - split; [|done]. intros resp. run_unfold.
    destruct (success res) eqn:Hs; cbn [fst]; intros [= <-].
    + left. destruct (Hinv res Hd eq_refl Hs) as [Hr Ho].
      split; [done|]. split; [done|]. split; [done|].
      cbn. by destruct (order_txHash res), (order_credits res).
    + right. split; [done|]. by exists res.
  - split; [done|]. by intros e' [= <-].
Qed.

Lemma order_plan_route_status_witness :
  let w := Scenario.funded (Throw (Rejected "ledger down")) (Return None) in
  let resp := respond 402 (Routes.error_body "ledger down") in
  (Routes.status resp = 200
   ∧ (∃ token wallet,
        order_ready w "plan-1" "key" (Sample.usdcPlan [5000000]) token wallet)
   ∧ orderPlan w "plan-1" = Return true
   ∧ Json.get "planId" (Routes.body resp) = Some (Json.JStr "plan-1"))
  ∨ (Routes.status resp = 402
     ∧ ∃ res, (run (orderPlanCredits w "plan-1" "key")).1 = Return res
              ∧ success res = false
              ∧ Routes.body resp = Routes.error_body (message res)).
Proof.
  exact (proj1 (order_plan_route_status
                  (Scenario.funded (Throw (Rejected "ledger down")) (Return None))
                  {| req_body := None; req_query := ∅;
                     req_authorization := Some "Bearer key" |}
                  "plan-1" "key" (Sample.usdcPlan [5000000])
                  eq_refl eq_refl eq_refl eq_refl)
               (respond 402 (Routes.error_body "ledger down")) eq_refl).
Defined.

End HandlerFacts.

(** ** Trimming, and the title of a conversation *)

Module TitleFacts.
Import Effects Collab LlmService TitleService RunFacts.
Import JsString.

Lemma trimStart_fixed (s : string) : trimStart (trimStart s) = trimStart s.
Proof.
  induction s as [|c s IH]; [done|]. cbn [trimStart].
  destruct (isWhiteSpace c) eqn:E; [done|]. cbn [trimStart]. by rewrite E.
Qed.

Lemma trimEnd_fixed (s : string) : trimEnd (trimEnd s) = trimEnd s.
Proof.
  induction s as [|c s IH]; [done|]. cbn [trimEnd].
  destruct (trimEnd s) as [|d t] eqn:E.
  - destruct (isWhiteSpace c) eqn:Ec; [done|]. cbn [trimEnd]. by rewrite Ec.
  - cbn [trimEnd]. cbn [trimEnd] in IH. rewrite IH. done.
Qed.

(** What [trimEnd] leaves alone, it leaves alone in every suffix. *)
Lemma trimEnd_tail (c : ascii) (s : string) :
  trimEnd (String c s) = String c s → trimEnd s = s.
Proof.
  cbn [trimEnd]. destruct (trimEnd s) as [|d t].
  - destruct (isWhiteSpace c); [done|]. by intros [= <-].
  - by intros [= <-].
Qed.

Lemma trimEnd_trimStart (s : string) : trimEnd s = s → trimEnd (trimStart s) = trimStart s.
Proof.
  induction s as [|c s IH]; [done|]. intros H. cbn [trimStart].
  destruct (isWhiteSpace c); [|done]. apply IH. by apply trimEnd_tail in H.
Qed.

Lemma trim_fixed (s : string) : trim (trim s) = trim s.
Proof.
  unfold trim. rewrite (trimEnd_trimStart (trimEnd s)) by apply trimEnd_fixed.
  apply trimStart_fixed.
Qed.

Lemma trim_blank (s : string) : all_chars isWhiteSpace s = true → trim s = "".
Proof.
  intros H. unfold trim.
  assert (trimEnd s = "") as ->; [|done].
  induction s as [|c s IH]; [done|]. cbn [all_chars] in H.
  apply andb_prop in H as [Hc Hs]. cbn [trimEnd]. by rewrite (IH Hs), Hc.
Qed.

(** X17. A title is never empty. Whenever the completion provider
    answers with ASCII text, or with no content, [llmTitleSummarizer]
    returns a title that is not the empty string and has no white space at
    either end; the title is "Untitled" when the provider gives no content
    or only white space. *)
Theorem llmTitleSummarizer_never_empty
  (w : World) (history : list ConversationMessage) (content : option string) :
  completion w title_system (title_prompt history) 16 = Return content →
  match content with Some c => Notions.ascii_text c = true | None => True end →
  ∃ title,
    (run (llmTitleSummarizer w history)).1 = Return title
    ∧ title ≠ "" ∧ trim title = title
    ∧ (match content with
       | Some c => all_chars isWhiteSpace c = true
       | None => True
       end → title = "Untitled").
Proof.
  intros Hc _. unfold run, llmTitleSummarizer. rewrite bind_eq. unfold call. rewrite Hc.
  cbn [fst mret M_ret]. eexists. split; [reflexivity|].
  destruct content as [c|]; cbn [fmap option_fmap option_map or_else]; [|done].
  destruct (truthy (trim c)) eqn:E.
  - split; [by destruct (trim c)|]. split; [apply trim_fixed|].
    intros Hb. rewrite (trim_blank c Hb) in E. done.
  - done.
Qed.

Lemma llmTitleSummarizer_never_empty_witness :
  ∃ title,
    (run (llmTitleSummarizer (Sample.with_completion (Return (Some "  ")) Sample.world)
            [])).1 = Return title
    ∧ title ≠ "" ∧ trim title = title
    ∧ (all_chars isWhiteSpace "  " = true → title = "Untitled").
Proof.
  apply (llmTitleSummarizer_never_empty
           (Sample.with_completion (Return (Some "  ")) Sample.world) [] (Some "  "));
    reflexivity.
Defined.

End TitleFacts.

(** ** The prompt cache *)

Module PromptFacts.
Import PromptService.
Import Scenario (disk, no_disk).

Lemma fallback_nonempty (filename : string) : fallback filename ≠ "".
Proof.
  unfold fallback. destruct (String.eqb filename "agent.prompt"); [done|].
  destruct (String.eqb filename "llm-router.prompt"); done.
Qed.

(** X18. A prompt read from its file is remembered and served from memory
    while the file is not newer: after a load that read the text [p] of a
    file modified at [m], [getCachedPrompt] gives [p], and a further load
    that finds the file modified at [m' <= m] returns [p] and leaves the
    state as it is, without reading the file, whatever the file holds by
    then. *)
Theorem loadPrompt_serves_cache
  (fs fs' : Files) (filename : string) (st : State) (m m' : Z) (p : string) :
  mtime fs filename = Some m →
  readFile fs filename = Some p →
  unchanged m (promptCache st !! filename) = None →
  mtime fs' filename = Some m' → m' ≤ m →
  let r := loadPrompt fs filename st in
  r.1 = p
  ∧ reads r.2 = reads st ++ [filename]
  ∧ getCachedPrompt filename r.2 = Some p
  ∧ loadPrompt fs' filename r.2 = (p, r.2).
Proof.
  intros Hm Hp Hc Hm' Hle r. subst r.
  assert (loadPrompt fs filename st
          = (p, {| promptCache := <[filename := {| content := p; lastModified := m |}]>
                                    (promptCache st);
                   reads := reads st ++ [filename] |})) as ->.
  { unfold loadPrompt. by rewrite Hm, Hc, Hp. }
  cbn [fst snd reads]. split; [done|]. split; [done|]. split.
  - unfold getCachedPrompt. cbn [promptCache]. by rewrite lookup_insert_eq.
  - unfold loadPrompt. rewrite Hm'. cbn [promptCache]. rewrite lookup_insert_eq.
    cbn [unchanged lastModified content].
    by destruct (Z.leb_spec m' m); [|lia].
Qed.

Lemma loadPrompt_serves_cache_witness :
  let r := loadPrompt (disk 10 "v1") "agent.prompt" empty in
  r.1 = "v1"
  ∧ reads r.2 = reads empty ++ ["agent.prompt"]
  ∧ getCachedPrompt "agent.prompt" r.2 = Some "v1"
  ∧ loadPrompt (disk 10 "v2") "agent.prompt" r.2 = ("v1", r.2).
Proof.
  apply (loadPrompt_serves_cache (disk 10 "v1") (disk 10 "v2") "agent.prompt" empty
           10 10 "v1"); first [reflexivity | lia].
Defined.

(** X19. A load that fails answers with the fallback text and forgets
    nothing: when the file cannot be inspected, or is newer than what is
    remembered and cannot be read, [loadPrompt] returns the fallback text
    of that file name, which is never empty, and leaves the cache as it
    is. A remembered prompt is not served in place of a file that cannot
    be inspected. *)
Theorem loadPrompt_failure
  (fs : Files) (filename : string) (st : State) :
  mtime fs filename = None
  ∨ (∃ m, mtime fs filename = Some m
          ∧ unchanged m (promptCache st !! filename) = None
          ∧ readFile fs filename = None) →
  let r := loadPrompt fs filename st in
  r.1 = fallback filename ∧ r.1 ≠ ""
  ∧ promptCache r.2 = promptCache st.
Proof.
  intros H r. subst r. unfold loadPrompt.
  destruct H as [-> | (m & -> & -> & ->)]; cbn [fst snd promptCache];
    auto using fallback_nonempty.
Qed.

Lemma loadPrompt_failure_witness :
  let st := (loadPrompt (disk 10 "v1") "agent.prompt" empty).2 in
  let r := loadPrompt no_disk "agent.prompt" st in
  r.1 = fallback "agent.prompt" ∧ r.1 ≠ ""
  ∧ promptCache r.2 = promptCache st.
Proof.
  apply (loadPrompt_failure no_disk "agent.prompt"
           (loadPrompt (disk 10 "v1") "agent.prompt" empty).2).
  left. reflexivity.
Defined.

(** X20. A reload does not look at what is remembered. When the file can
    be inspected and read, [reloadPrompt] reads it and returns its text,
    which it remembers with the file's modification time, also when a
    newer entry was cached; when the file cannot be inspected or read, it
    returns the fallback text and the file name is left without an entry,
    so that [getCachedPrompt] gives [null]. *)
Theorem reloadPrompt_replaces
  (fs : Files) (filename : string) (st : State) :
  let r := reloadPrompt fs filename st in
  (∀ m p, mtime fs filename = Some m → readFile fs filename = Some p →
          r.1 = p
          ∧ promptCache r.2 !! filename = Some {| content := p; lastModified := m |}
          ∧ reads r.2 = reads st ++ [filename])
  ∧ (mtime fs filename = None ∨ readFile fs filename = None →
     r.1 = fallback filename ∧ getCachedPrompt filename r.2 = None).
Proof.
  intros r. subst r. unfold reloadPrompt, loadPrompt, getCachedPrompt.
  cbn [promptCache reads]. rewrite lookup_delete_eq. cbn [unchanged]. split.
  - intros m p -> ->. cbn [fst snd promptCache reads]. by rewrite lookup_insert_eq.
  - intros [-> | ->].
    + cbn [fst snd promptCache]. by rewrite lookup_delete_eq.
    + destruct (mtime fs filename); cbn [fst snd promptCache];
        by rewrite lookup_delete_eq.
Qed.

(** X21. Loading never loses or ages an entry. Over any sequence of
    [loadPrompt] calls, each made with the files as they are at that
    moment, a file name that has an entry keeps one, the modification
    time of its entry never decreases, and the entry is the same at the
    end when the sequence loads no file of that name. *)
Theorem loadAll_keeps_entries
  (calls : list (Files * string)) (st : State) (g : string) (c : CachedPrompt) :
  promptCache st !! g = Some c →
  ∃ c', promptCache (loadAll calls st).2 !! g = Some c'
        ∧ lastModified c ≤ lastModified c'
        ∧ (¬ In g (map snd calls) → c' = c).
Proof.
  revert st c. induction calls as [|[fs filename] calls IH]; intros st c Hc.
  - exists c. cbn. split; [done|]. split; [lia|done].
  - cbn [loadAll].
    assert (Hstep : ∃ c1, promptCache (loadPrompt fs filename st).2 !! g = Some c1
                          ∧ lastModified c ≤ lastModified c1
                          ∧ (filename ≠ g → c1 = c)).
    { unfold loadPrompt. destruct (mtime fs filename) as [m|]; [|by exists c; split; [|split; [lia|]]].
      destruct (unchanged m (promptCache st !! filename)) as [text|] eqn:Hu;
        [by exists c; split; [|split; [lia|]]|].
      destruct (readFile fs filename) as [p|]; [|by exists c; split; [|split; [lia|]]].
      cbn [snd promptCache]. destruct (decide (filename = g)) as [->|Hne].
      - rewrite lookup_insert_eq. eexists. split; [reflexivity|]. cbn [lastModified].
        rewrite Hc in Hu. cbn [unchanged] in Hu.
        destruct (Z.leb_spec m (lastModified c)); [done|]. split; [lia|done].
      - rewrite lookup_insert_ne by done. exists c. split; [done|]. split; [lia|done]. }
    destruct Hstep as (c1 & Hc1 & Hle1 & Hsame1).
    destruct (loadPrompt fs filename st) as [p st1]. cbn [snd] in Hc1.
    destruct (IH st1 c1 Hc1) as (c' & Hc' & Hle' & Hsame').
    destruct (loadAll calls st1) as [ps st2]. cbn [snd] in *.
    exists c'. split; [done|]. split; [lia|].
    intros Hnot. cbn [map In snd] in Hnot.
    rewrite Hsame' by (intros Hg; apply Hnot; right; done).
    apply Hsame1. intros Hg. apply Hnot. left. done.
Qed.

Lemma loadAll_keeps_entries_witness :
  let st := (loadPrompt (disk 10 "v1") "agent.prompt" empty).2 in
  ∃ c', promptCache
          (loadAll [(disk 12 "v2", "agent.prompt"); (disk 11 "v3", "agent.prompt")] st).2
        !! "agent.prompt" = Some c'
        ∧ lastModified {| content := "v1"; lastModified := 10 |} ≤ lastModified c'
        ∧ (¬ In "agent.prompt"
               (map snd [(disk 12 "v2", "agent.prompt"); (disk 11 "v3", "agent.prompt")])
           → c' = {| content := "v1"; lastModified := 10 |}).
Proof.
  apply (loadAll_keeps_entries
           [(disk 12 "v2", "agent.prompt"); (disk 11 "v3", "agent.prompt")]
           (loadPrompt (disk 10 "v1") "agent.prompt" empty).2 "agent.prompt"
           {| content := "v1"; lastModified := 10 |}).
  reflexivity.
Defined.

End PromptFacts.

(** ** Writing a JSON value and reading it back *)

Module JsonFacts.
Import Json JsonText StringFacts.
Import JsString (dquote).

Section ValueInduction.
Variable P : value → Prop.
Hypothesis Hnull : P JNull.
Hypothesis Hbool : ∀ b, P (JBool b).
Hypothesis Hnum : ∀ x, P (JNum x).
Hypothesis Hstr : ∀ s, P (JStr s).
Hypothesis Harr : ∀ items, Forall P items → P (JArr items).
Hypothesis Hobj : ∀ props, Forall (λ kv, P (snd kv)) props → P (JObj props).

Fixpoint value_induction (v : value) : P v :=
  match v with
  | JNull => Hnull
  | JBool b => Hbool b
  | JNum x => Hnum x
  | JStr s => Hstr s
  | JArr items =>
      Harr items
        ((fix go (l : list value) : Forall P l :=
            match l with
            | [] => @List.Forall_nil _ P
            | x :: r => @List.Forall_cons _ P x r (value_induction x) (go r)
            end) items)
  | JObj props =>
      Hobj props
        ((fix go (l : list (string * value)) : Forall (λ kv, P (snd kv)) l :=
            match l with
            | [] => @List.Forall_nil _ (λ kv, P (snd kv))
            | kv :: r => @List.Forall_cons _ (λ kv, P (snd kv)) kv r (value_induction (snd kv)) (go r)
            end) props)
  end.

End ValueInduction.

(** *** The scanner on the text of a string *)

Lemma lex_escape (c : ascii) (acc tail : string) (out : list token) :
  lex_go (LStr acc) (quote_chars (String c "") +:+ tail) out
  = lex_go (LStr (String c acc)) tail out.
Proof.
  destruct c as [[] [] [] [] [] [] [] []]; reflexivity.
Qed.

Lemma quote_chars_cons (c : ascii) (s : string) :
  quote_chars (String c s) = quote_chars (String c "") +:+ quote_chars s.
Proof.
  cbn [quote_chars]. by rewrite app_nil_r.
Qed.

Lemma lex_quote_chars (s : string) :
  ∀ (acc rest : string) (out : list token),
    lex_go (LStr acc) (quote_chars s +:+ String dquote rest) out
    = lex_go LTop rest (TStr (String.rev_app acc s) :: out).
Proof.
  induction s as [|c s IH]; intros acc rest out.
  - reflexivity.
  - rewrite quote_chars_cons, app_assoc, lex_escape, IH. reflexivity.
Qed.

Lemma lex_string (s rest : string) (out : list token) :
  lex_go LTop (quote s +:+ rest) out = lex_go LTop rest (TStr s :: out).
Proof.
  unfold quote. rewrite app_cons, app_assoc, app_cons, app_nil_l.
  change (lex_go LTop (String dquote ?t) out) with (lex_go (LStr "") t out).
  by rewrite lex_quote_chars.
Qed.

(** *** The scanner on the text of an integer *)

Lemma digit_value (c : ascii) :
  JsNumber.isDigit c = true → c ≠ "0"%char → (N_of_ascii c - 48 ≠ 0)%N.
Proof. destruct c as [[] [] [] [] [] [] [] []]; done. Qed.

Lemma top_step_digit (c : ascii) :
  JsNumber.isDigit c = true → c ≠ "0"%char →
  top_step c = Some ([], LNum NInt (num0 false (N_of_ascii c - 48))).
Proof. destruct c as [[] [] [] [] [] [] [] []]; done. Qed.

Lemma num_step_digit (a : numacc) (c : ascii) :
  JsNumber.isDigit c = true →
  num_step NInt a c = Some (NInt, push_mant a (N_of_ascii c - 48)).
Proof. intros H. unfold num_step, digit_of. by rewrite H. Qed.

Lemma num_step_first_digit (a : numacc) (c : ascii) :
  JsNumber.isDigit c = true → c ≠ "0"%char →
  num_step NMinus a c = Some (NInt, push_mant a (N_of_ascii c - 48)).
Proof.
  intros H H0. unfold num_step, digit_of. rewrite H.
  by destruct (N_of_ascii c - 48)%N eqn:E; [destruct (digit_value c H H0)|].
Qed.

Lemma lex_digits (ds : string) :
  ∀ (a : numacc) (rest : string) (out : list token),
    JsString.all_chars JsNumber.isDigit ds = true →
    lex_go (LNum NInt a) (ds +:+ rest) out
    = lex_go (LNum NInt (NumAcc (n_neg a) (JsNumber.digits_value_acc (n_mant a) ds)
                           (n_frac a) (n_eneg a) (n_exp a)))
             rest out.
Proof.
  induction ds as [|c ds IH]; intros a rest out H.
  - by destruct a.
  - cbn [JsString.all_chars] in H. apply andb_prop in H as [Hc Hds].
    rewrite app_cons. cbn [lex_go lex_step]. rewrite (num_step_digit a c Hc).
    cbn [mbind option_bind mret option_ret rev_append]. by rewrite (IH _ _ _ Hds).
Qed.

Lemma lex_number_end (ph : nphase) (a : numacc) (rest : string) (out : list token) :
  ph = NInt ∨ ph = NZero → delimited rest →
  lex_go (LNum ph a) rest out = lex_go LTop rest (TNum (num_finish a) :: out).
Proof.
  intros Hph Hrest. destruct rest as [|c rest].
  - by destruct Hph as [-> | ->].
  - cbn in Hrest. destruct Hrest as [->|[->| ->]], Hph as [-> | ->]; reflexivity.
Qed.

Lemma toString_pos_digits (p : positive) :
  Z.pos p < 10 ^ 21 → JsNumber.toString_pos (Npos p) 0 = JsNumber.digits (Npos p).
Proof.
  intros H. exact (PlainFacts.toString_integer (Z.pos p) (conj (Pos2Z.is_nonneg p) H)).
Qed.

Lemma lex_natural (p : positive) (neg : bool) (rest : string) (out : list token) :
  delimited rest →
  ∀ st c r, JsNumber.digits (Npos p) = String c r →
    lex_step st c = Some ([], LNum NInt (num0 neg (N_of_ascii c - 48))) →
    lex_go st (JsNumber.digits (Npos p) +:+ rest) out
    = lex_go LTop rest
        (TNum (JsNumber.Dec (if neg then Z.neg p else Z.pos p) 0) :: out).
Proof.
  intros Hrest st c r Hd Hstep.
  pose proof (DigitFacts.digits_all_digits (Npos p)) as Hall.
  pose proof (DigitFacts.digits_value_digits (Npos p)) as Hval.
  rewrite Hd in Hall, Hval |- *. cbn [JsString.all_chars] in Hall.
  apply andb_prop in Hall as [Hc Hr].
  rewrite app_cons. cbn [lex_go]. rewrite Hstep.
  cbn [mbind option_bind rev_append]. rewrite (lex_digits r _ _ _ Hr).
  rewrite lex_number_end by auto.
  unfold JsNumber.digits_value in Hval. cbn [JsNumber.digits_value_acc] in Hval.
  cbn [num0 n_mant n_neg n_frac n_eneg n_exp]. rewrite N.mul_0_l, N.add_0_l in Hval.
  rewrite Hval. unfold num_finish. cbn [n_mant n_neg n_frac n_eneg n_exp].
  by destruct neg.
Qed.

Lemma lex_integer (m : Z) (rest : string) (out : list token) :
  Z.abs m < 10 ^ 21 → delimited rest →
  lex_go LTop (JsNumber.toString (JsNumber.Dec m 0) +:+ rest) out
  = lex_go LTop rest (TNum (JsNumber.Dec m 0) :: out).
Proof.
  intros Hm Hrest. destruct m as [|p|p]; cbn [JsNumber.toString].
  - change ("0" +:+ rest) with (String "0" rest). cbn [lex_go lex_step top_step].
    cbn [mbind option_bind rev_append]. by rewrite lex_number_end by auto.
  - rewrite toString_pos_digits by lia.
    destruct (PlainFacts.digits_head (Npos p)) as (c & r & Hd & Hc); [lia|].
    pose proof (DigitFacts.digits_all_digits (Npos p)) as Hall.
    rewrite Hd in Hall. cbn [JsString.all_chars] in Hall.
    apply andb_prop in Hall as [Hdig _].
    apply (lex_natural p false rest out Hrest LTop c r Hd).
    cbn [lex_step]. by apply top_step_digit.
  - rewrite toString_pos_digits by lia. rewrite app_cons, app_nil_l.
    cbn [lex_go lex_step top_step]. cbn [mbind option_bind rev_append].
    destruct (PlainFacts.digits_head (Npos p)) as (c & r & Hd & Hc); [lia|].
    pose proof (DigitFacts.digits_all_digits (Npos p)) as Hall.
    rewrite Hd in Hall. cbn [JsString.all_chars] in Hall.
    apply andb_prop in Hall as [Hdig _].
    apply (lex_natural p true rest out Hrest (LNum NMinus (num0 true 0)) c r Hd).
    cbn [lex_step]. rewrite (num_step_first_digit _ c Hdig Hc). reflexivity.
Qed.

(** *** The scanner on the text of a value *)

Lemma rev_append_app {A} (l1 l2 acc : list A) :
  rev_append (l1 ++ l2) acc = rev_append l2 (rev_append l1 acc).
Proof. revert acc. induction l1 as [|x l1 IH]; intros acc; [done|]. cbn. apply IH. Qed.

(** A value is scanned to its tokens wherever it stands in a text. *)
Definition scans (v : value) : Prop :=
  ∀ (rest : string) (out : list token), delimited rest →
    lex_go LTop (stringify v +:+ rest) out = lex_go LTop rest (rev_append (tokens v) out).

Lemma lex_members {A} (text : A → string) (toks : A → list token) (members : list A) :
  Forall (λ m, ∀ rest out, delimited rest →
                 lex_go LTop (text m +:+ rest) out
                 = lex_go LTop rest (rev_append (toks m) out)) members →
  ∀ (rest : string) (out : list token), delimited rest →
    lex_go LTop (join "," (List.map text members) +:+ rest) out
    = lex_go LTop rest (rev_append (commas (List.map toks members)) out).
Proof.
  induction 1 as [|m members Hm Hrest IH]; intros rest out Hd; [done|].
  destruct members as [|m' members].
  - cbn [List.map join commas]. by apply Hm.
  - change (join "," (List.map text (m :: m' :: members)))
      with (text m +:+ "," +:+ join "," (List.map text (m' :: members))).
    change (commas (List.map toks (m :: m' :: members)))
      with (toks m ++ TComma :: commas (List.map toks (m' :: members))).
    rewrite !app_assoc, app_cons, app_nil_l.
    rewrite Hm by (cbn; auto). cbn [lex_go lex_step top_step].
    cbn [mbind option_bind rev_append]. rewrite IH by done.
    by rewrite rev_append_app.
Qed.

Lemma enclosed (o c : ascii) (mid rest : string) :
  (String o "" +:+ mid +:+ String c "") +:+ rest = String o (mid +:+ String c rest).
Proof.
  change ((String o "" +:+ mid +:+ String c "") +:+ rest)
    with (String o ((mid +:+ String c "") +:+ rest)).
  by rewrite app_assoc.
Qed.

Lemma lex_value (v : value) : canonical v = true → scans v.
Proof.
  induction v as [|b|x|s|items IH|props IH] using value_induction;
    intros Hc rest out Hd.
  - reflexivity.
  - by destruct b.
  - destruct x as [| |m e]; try done. destruct e; try done.
    cbn [canonical] in Hc. apply Z.ltb_lt in Hc.
    assert (Hm : Z.abs m < 10 ^ 21).
    { change (2 ^ 53) with 9007199254740992 in Hc.
      change (10 ^ 21) with 1000000000000000000000. lia. }
    cbn [stringify tokens rev_append]. by apply lex_integer.
  - cbn [stringify tokens rev_append]. apply lex_string.
  - cbn [stringify tokens]. rewrite enclosed. cbn [lex_go lex_step top_step].
    cbn [mbind option_bind rev_append].
    rewrite (lex_members stringify tokens items).
    + cbn [lex_go lex_step top_step].
      cbn [mbind option_bind]. by rewrite rev_append_app.
    + cbn [canonical] in Hc. rewrite forallb_forall in Hc.
      rewrite List.Forall_forall in IH |- *. intros x Hx. apply IH; [done|].
      by apply Hc.
    + cbn. auto.
  - cbn [stringify tokens]. rewrite enclosed. cbn [lex_go lex_step top_step].
    cbn [mbind option_bind rev_append].
    rewrite (lex_members (λ kv, quote (fst kv) +:+ ":" +:+ stringify (snd kv))
               (λ kv, TStr (fst kv) :: TColon :: tokens (snd kv)) props).
    + cbn [lex_go lex_step top_step].
      cbn [mbind option_bind]. by rewrite rev_append_app.
    + cbn [canonical] in Hc. apply andb_prop in Hc as [Hc _].
      rewrite forallb_forall in Hc.
      rewrite List.Forall_forall in IH |- *. intros kv Hkv rest' out' Hd'.
      rewrite !app_assoc, lex_string, app_cons, app_nil_l.
      cbn [lex_go lex_step top_step]. cbn [mbind option_bind rev_append].
      rewrite (IH kv Hkv (Hc kv Hkv)) by done. done.
    + cbn. auto.
Qed.

(** *** The parser on the tokens of a value *)

(** A value is parsed from its tokens wherever they stand. *)
Definition parses (v : value) : Prop :=
  ∀ (stk : list frame) (rest : list token),
    parse_go (PValue stk) (tokens v ++ rest) = parse_go (complete v stk) rest.

Lemma commas_cons (m : list token) (ms : list (list token)) :
  commas (m :: ms) = m ++ concat (List.map (λ m', TComma :: m') ms).
Proof.
  revert m. induction ms as [|m' ms IH]; intros m.
  - by rewrite List.app_nil_r.
  - change (commas (m :: m' :: ms)) with (m ++ TComma :: commas (m' :: ms)).
    by rewrite IH.
Qed.

Lemma parse_first_item (x : value) (stk : list frame) (rest : list token) :
  parse_go (PArrFirst stk) (tokens x ++ rest)
  = parse_go (PValue (FArr [] :: stk)) (tokens x ++ rest).
Proof. by destruct x. Qed.

Lemma parse_items (items : list value) :
  Forall parses items →
  ∀ (acc : list value) (stk : list frame) (rest : list token),
    parse_go (PArrNext acc stk)
      (concat (List.map (λ m, TComma :: m) (List.map tokens items)) ++ TRBrack :: rest)
    = parse_go (complete (JArr (List.rev acc ++ items)) stk) rest.
Proof.
  induction 1 as [|x items Hx Hitems IH]; intros acc stk rest.
  - cbn. by rewrite List.app_nil_r.
  - cbn [List.map concat]. rewrite <- !List.app_assoc, <- List.app_comm_cons.
    cbn [parse_go pstep mbind option_bind]. rewrite Hx.
    cbn [complete]. rewrite IH. cbn [List.rev]. by rewrite <- List.app_assoc.
Qed.

Lemma plain_keys_fresh (l1 : list string) (k : string) (l2 : list string) :
  plain_keys (l1 ++ k :: l2) = true →
  (∀ k', In k' l1 → String.eqb k' k = false) ∧ array_index k = None.
Proof.
  induction l1 as [|k1 l1 IH]; cbn [app plain_keys]; intros H.
  - split; [by intros k' []|].
    apply andb_prop in H as [H _]. apply andb_prop in H as [_ H].
    by destruct (array_index k).
  - apply andb_prop in H as [H Hrest]. apply andb_prop in H as [H _].
    destruct (IH Hrest) as [Hfresh Hindex]. split; [|done].
    intros k' [<- | Hin]; [|by apply Hfresh].
    rewrite existsb_app in H. cbn [existsb] in H.
    destruct (String.eqb k1 k); [|done].
    by rewrite orb_true_r in H.
Qed.

Lemma obj_set_fresh (acc : list (string * value)) (k : string) (v : value)
  (ms : list (string * value)) :
  plain_keys (List.map fst (acc ++ (k, v) :: ms)) = true →
  obj_set acc k v = acc ++ [(k, v)].
Proof.
  intros H. rewrite List.map_app in H. cbn [List.map fst] in H.
  destruct (plain_keys_fresh _ _ _ H) as [Hfresh Hindex].
  unfold obj_set. rewrite Hindex.
  assert (assoc k acc = None) as ->; [|done].
  clear H. induction acc as [|[k' v'] acc IH]; [done|]. cbn [assoc].
  rewrite String.eqb_sym, (Hfresh k') by (cbn; auto).
  apply IH. intros k'' Hin. apply Hfresh. cbn. auto.
Qed.

Lemma parse_members (members : list (string * value)) :
  Forall (λ kv, parses (snd kv)) members →
  ∀ (acc : list (string * value)) (stk : list frame) (rest : list token),
    plain_keys (List.map fst (acc ++ members)) = true →
    parse_go (PObjNext acc stk)
      (concat (List.map (λ m, TComma :: m)
                 (List.map (λ kv, TStr (fst kv) :: TColon :: tokens (snd kv)) members))
       ++ TRBrace :: rest)
    = parse_go (complete (JObj (acc ++ members)) stk) rest.
Proof.
  induction 1 as [|[k v] members Hv Hmembers IH]; intros acc stk rest Hkeys.
  - cbn. by rewrite List.app_nil_r.
  - cbn [List.map concat fst snd]. rewrite <- !List.app_assoc, <- !List.app_comm_cons.
    cbn [parse_go pstep mbind option_bind]. rewrite Hv.
    cbn [complete snd]. rewrite (obj_set_fresh acc k v members Hkeys).
    rewrite IH by (by rewrite <- List.app_assoc). by rewrite <- List.app_assoc.
Qed.

Lemma parse_value (v : value) : canonical v = true → parses v.
Proof.
  induction v as [|b|x|s|items IH|props IH] using value_induction;
    intros Hc stk rest; try reflexivity.
  - cbn [canonical] in Hc. rewrite forallb_forall in Hc.
    assert (Hall : Forall parses items).
    { rewrite List.Forall_forall in IH |- *. intros x Hx. apply IH; [done|]. by apply Hc. }
    destruct items as [|x items]; [reflexivity|].
    cbn [tokens List.map]. rewrite commas_cons.
    rewrite <- !List.app_comm_cons, <- !List.app_assoc.
    cbn [parse_go pstep value_start mbind option_bind].
    rewrite parse_first_item. inversion Hall as [|? ? Hx Hitems]; subst.
    rewrite Hx. cbn [complete]. change ([TRBrack] ++ rest) with (TRBrack :: rest).
    by rewrite (parse_items items Hitems [x]).
  - cbn [canonical] in Hc. apply andb_prop in Hc as [Hc Hkeys].
    rewrite forallb_forall in Hc.
    assert (Hall : Forall (λ kv, parses (snd kv)) props).
    { rewrite List.Forall_forall in IH |- *. intros kv Hkv. apply IH; [done|].
      by apply Hc. }
    destruct props as [|[k v] props]; [reflexivity|].
    cbn [tokens List.map]. rewrite commas_cons.
    rewrite <- !List.app_comm_cons, <- !List.app_assoc.
    cbn [parse_go pstep value_start mbind option_bind fst snd].
    rewrite <- List.app_comm_cons.
    cbn [parse_go pstep value_start mbind option_bind fst snd].
    inversion Hall as [|? ? Hv Hprops]; subst. cbn [snd] in Hv.
    rewrite Hv. cbn [complete].
    rewrite (obj_set_fresh [] k v props Hkeys).
    change ([TRBrace] ++ rest) with (TRBrace :: rest).
    by rewrite (parse_members props Hprops [(k, v)]).
Qed.

(** Reading back what was written. *)
Lemma parse_stringify (v : value) : canonical v = true → parse (stringify v) = Some v.
Proof.
  intros Hc. unfold parse, lex.
  rewrite <- (app_nil_r (stringify v)), (lex_value v Hc "" []) by done.
  cbn [lex_go mbind option_bind]. rewrite rev_append_rev, List.app_nil_r, List.rev_involutive.
  rewrite <- (List.app_nil_r (tokens v)), (parse_value v Hc). reflexivity.
Qed.

End JsonFacts.

(** ** Answers written as JSON texts *)

Module AnswerFacts.
Import Effects Collab LlmService Spec RunFacts StringFacts JsonText.
Import JsString (trim, trimStart, trimEnd, all_chars, isWhiteSpace).

Lemma trimStart_blank (s : string) : all_chars isWhiteSpace s = true → trimStart s = "".
Proof.
  induction s as [|c s IH]; [done|]. cbn [all_chars trimStart].
  intros [Hc Hs]%andb_prop. rewrite Hc. by apply IH.
Qed.

Lemma trimEnd_blank (s : string) : all_chars isWhiteSpace s = true → trimEnd s = "".
Proof.
  induction s as [|c s IH]; [done|]. cbn [all_chars trimEnd].
  intros [Hc Hs]%andb_prop. by rewrite (IH Hs), Hc.
Qed.

(** The text of an object, with white space around it, trimmed. *)
Lemma trim_object_text (props : list (string * Json.value)) (lead trail : string) :
  all_chars isWhiteSpace lead = true → all_chars isWhiteSpace trail = true →
  trim (lead +:+ Json.stringify (Json.JObj props) +:+ trail)
  = Json.stringify (Json.JObj props).
Proof.
  intros Hl Ht. cbn [Json.stringify].
  set (mid := Json.join "," _).
  change (("{" +:+ mid +:+ "}") +:+ trail) with (String "{" ((mid +:+ "}") +:+ trail)).
  rewrite app_assoc.
  change ("}" +:+ trail) with (String "}" trail).
  rewrite ParsingFacts.trim_around_braces, (trimStart_blank _ Hl), (trimEnd_blank _ Ht).
  reflexivity.
Qed.

(** X22. The router reads back what [JSON.stringify] writes. When the
    completion provider answers with the JSON text of an object, as
    [JSON.stringify] writes it, with any white space before and after it,
    [llmRouter] returns exactly that object, provided the object is
    canonical: its numbers are integers below [2^53] in absolute value
    and the keys of each of its objects are pairwise distinct and no array
    indices. *)
Theorem llmRouter_reads_written_decision
  (w : World) (message : string) (history : option Json.value)
  (credits : JsNumber.number) (props : list (string * Json.value))
  (lead trail : string) :
  canonical (Json.JObj props) = true →
  all_chars isWhiteSpace lead = true → all_chars isWhiteSpace trail = true →
  completion w router_system (router_prompt (routerPrompt w) message history credits) 512
  = Return (Some (lead +:+ Json.stringify (Json.JObj props) +:+ trail)) →
  (run (llmRouter w message history credits)).1 = Return (Json.JObj props).
Proof.
  intros Hc Hl Ht Hanswer. unfold run. rewrite RouterFacts.llmRouter_run. cbn [fst].
  unfold router_outcome. rewrite Hanswer, content_text_some.
  rewrite (trim_object_text props lead trail Hl Ht).
  unfold parse_decision. by rewrite (JsonFacts.parse_stringify _ Hc).
Qed.

Lemma llmRouter_reads_written_decision_witness :
  (run (llmRouter
          (Sample.with_completion
             (Return (Some (" " +:+ Json.stringify
                                      (Json.JObj [("action", Json.JStr "order_plan");
                                                  ("credits", Json.JNum (JsNumber.Dec 5 0))])
                            +:+ LlmService.nl)))
             Sample.world)
          "hi" None (JsNumber.of_Z 0))).1
  = Return (Json.JObj [("action", Json.JStr "order_plan");
                       ("credits", Json.JNum (JsNumber.Dec 5 0))]).
Proof.
  apply (llmRouter_reads_written_decision _ "hi" None (JsNumber.of_Z 0)
           [("action", Json.JStr "order_plan"); ("credits", Json.JNum (JsNumber.Dec 5 0))]
           " " LlmService.nl); reflexivity.
Defined.

(** X23. The synthesizer reads back a written tool call. With a tool
    catalog supplied, when the completion provider answers with the JSON
    text of [{tool: name, args: {...}}] as [JSON.stringify] writes it,
    with any white space around it, [llmIntentSynthesizer] returns that
    object as the tool call, provided the arguments are canonical. *)
Theorem synthesizer_reads_written_tool_call
  (w : World) (history : list ConversationMessage) (agentContext : string)
  (catalog : Json.value) (name : string) (fields : list (string * Json.value))
  (lead trail : string) :
  Json.truthy catalog = true →
  canonical (Json.JObj fields) = true →
  all_chars isWhiteSpace lead = true → all_chars isWhiteSpace trail = true →
  let call := Json.JObj [("tool", Json.JStr name); ("args", Json.JObj fields)] in
  completion w tools_system (synth_prompt history agentContext (Some catalog)) 64
  = Return (Some (lead +:+ Json.stringify call +:+ trail)) →
  (run (llmIntentSynthesizer w history agentContext (Some catalog))).1
  = Return (ITool call).
Proof.
  intros Hcat Hc Hl Ht call Hanswer.
  pose proof (RouterFacts.llmIntentSynthesizer_run w history agentContext (Some catalog)
                (Some (lead +:+ Json.stringify call +:+ trail))) as Hrun.
  cbn [Json.truthy_opt] in Hrun. rewrite Hcat in Hrun. rewrite (Hrun Hanswer). cbn [fst].
  rewrite content_text_some. subst call.
  rewrite (trim_object_text _ lead trail Hl Ht).
  unfold select_intent. cbn [Json.truthy_opt]. rewrite Hcat.
  rewrite JsonFacts.parse_stringify; [done|].
  cbn [canonical forallb snd List.map fst plain_keys existsb] in Hc |- *.
  by rewrite Hc.
Qed.

Lemma synthesizer_reads_written_tool_call_witness :
  let call := Json.JObj [("tool", Json.JStr "weather.today");
                         ("args", Json.JObj [("city", Json.JStr "Lima")])] in
  (run (llmIntentSynthesizer
          (Sample.with_completion (Return (Some (Json.stringify call +:+ " ")))
             Sample.world)
          [] "agent" (Some (Json.JArr [])))).1
  = Return (ITool call).
Proof.
  apply (synthesizer_reads_written_tool_call _ [] "agent" (Json.JArr []) "weather.today"
           [("city", Json.JStr "Lima")] "" " "); reflexivity.
Defined.

End AnswerFacts.

(** ** Redeeming credits *)

Module RedeemFacts.
Import Effects Collab Redemption.

(** X24. Once the configuration is complete, the principal is logged in
    and the wallet address is known, [redeemCredits] sends exactly one
    redeem request, for the agent of [AGENT_DID], the plan, the wallet and
    the amount it was given, and returns normally whatever the ledger
    does: a rejection, a falsy answer and an answer without success all
    give [success: false] and no transaction hash; [success: true] is
    returned exactly when the ledger answered with success; and the
    message is never empty. *)
Theorem redeemCredits_reports
  (w : World) (l : Ledger) (planId creditsAmount nvmApiKey agentId wallet : string) :
  JsString.truthy nvmApiKey = true → JsString.truthy planId = true →
  getenv w "AGENT_DID" = Some agentId → JsString.truthy agentId = true →
  isLoggedIn w nvmApiKey (JsString.or_else (getenv w "NVM_ENVIRONMENT") "testing") = true →
  accountAddress w = Some wallet → JsString.truthy wallet = true →
  ∃ res,
    execute (redeemCredits w l planId creditsAmount nvmApiKey)
    = (Return res, [ERedeemCredits agentId planId wallet creditsAmount])
    ∧ redeem_message res ≠ ""
    ∧ (redeem_success res = true
       ↔ ∃ r, redeemAnswer l agentId planId wallet creditsAmount = Return (Some r)
              ∧ receipt_success r = true)
    ∧ (redeem_success res = false → redeem_txHash res = None).
Proof.
  intros Hk Hp Ha Hat Hl Hw Hwt. unfold execute, redeemCredits.
  rewrite Hk, Hp, Ha, Hw. cbn [negb orb JsString.truthy_opt default from_option id].
  rewrite Hat, Hwt. cbn [negb].
  unfold PaymentsService.initializePayments. rewrite Hl.
  unfold lift, attempt, request, mbind, R_bind, mret, R_ret, M_ret.
  cbn [earlier omap length drop fmap list_fmap app].
  destruct (redeemAnswer l agentId planId wallet creditsAmount) as [[r|]|e].
  - destruct (receipt_success r) eqn:Hs; eexists; (split; [reflexivity|]);
      cbn [redeem_message redeem_success redeem_txHash].
    + split; [by destruct (receipt_message r) as [[]|]|]. split; [|done].
      split; [by exists r|done].
    + split; [by destruct (receipt_message r) as [[]|]|]. split; [|done].
      split; [done|]. intros (r' & [= <-] & Hr'). congruence.
  - eexists. split; [reflexivity|]. cbn. split; [done|]. split; [|done].
    split; [done|]. by intros (r' & [=] & _).
  - eexists. split; [reflexivity|]. cbn [redeem_message redeem_success redeem_txHash].
    split; [by destruct (error_message e)|]. split; [|done].
    split; [done|]. by intros (r' & [=] & _).
Qed.

Lemma redeemCredits_reports_witness :
  ∃ res,
    execute (redeemCredits Sample.world
               (Scenario.ledger (Throw (Rejected "insufficient credits")))
               "plan-1" "2" "key")
    = (Return res, [ERedeemCredits "did:nv:agent" "plan-1" "0xWallet" "2"])
    ∧ redeem_message res ≠ ""
    ∧ (redeem_success res = true
       ↔ ∃ r, redeemAnswer (Scenario.ledger (Throw (Rejected "insufficient credits")))
                "did:nv:agent" "plan-1" "0xWallet" "2" = Return (Some r)
              ∧ receipt_success r = true)
    ∧ (redeem_success res = false → redeem_txHash res = None).
Proof.
  apply (redeemCredits_reports Sample.world
           (Scenario.ledger (Throw (Rejected "insufficient credits")))
           "plan-1" "2" "key" "did:nv:agent" "0xWallet"); reflexivity.
Defined.

Lemma positive_number (x : JsNumber.number) :
  isNaN x = false → JsNumber.leb x (JsNumber.Dec 0 0) = false →
  JsNumber.ltb (JsNumber.Dec 0 0) x = true.
Proof.
  destruct x as [|[]|m e]; try done. cbn [JsNumber.leb JsNumber.ltb].
  rewrite (Z.min_comm 0 e). intros _ H%Z.leb_gt. apply Z.ltb_lt. lia.
Qed.

(** X25. [/api/burn-credits] sends the ledger nothing it has not checked.
    For a request whose [credits] is a plain scalar ([null], a boolean, an
    ASCII string or a number of at most 15 significant digits), every
    redeem request in the trace of the handler is for the plan of
    [PLAN_ID], was made for a request with a bearer key, and carries as
    amount the text [String(credits)] of a [credits] value of the body
    that is truthy and whose number, as a double, is greater than zero. *)
Theorem burn_credits_checked
  (w : World) (l : Ledger) (req : Handlers.Request)
  (agentId planId redeemFrom amount : string) :
  Notions.plain_credits req = true →
  In (ERedeemCredits agentId planId redeemFrom amount)
     (execute (api_burn_credits w l req)).2 →
  ∃ body credits nvmApiKey,
    Handlers.req_body req = Some body
    ∧ Json.get "credits" body = Some credits
    ∧ Json.truthy credits = true
    ∧ JsNumber.ltb (JsNumber.Dec 0 0) (ToNumber credits) = true
    ∧ amount = Json.ToString credits
    ∧ getenv w "PLAN_ID" = Some planId
    ∧ Handlers.bearer (Handlers.req_authorization req) = inr nvmApiKey.
Proof.
  intros _. unfold execute, api_burn_credits, Handlers.destructure.
  destruct (Handlers.req_body req) as [body|] eqn:Hreq_body; [|by intros []].
  unfold lift at 1. unfold mbind at 1, R_bind.
  assert (Hnull : body = Json.JNull ∨ body ≠ Json.JNull) by (destruct body; auto).
  destruct Hnull as [-> | Hbody]; [by intros []|].
  assert (∀ A (x y : A), match body with Json.JNull => x | _ => y end = y) as ->
    by (intros; by destruct body).
  cbn [mret M_ret earlier omap length drop fmap list_fmap app].
  destruct (Json.get "credits" body) as [credits|] eqn:Hget; [|by intros []].
  cbn [Json.truthy_opt default from_option id].
  destruct (Json.truthy credits) eqn:Ht; [|by intros []]. cbn [negb orb].
  destruct (isNaN (ToNumber credits)) eqn:Hn; [by intros []|]. cbn [orb].
  destruct (JsNumber.leb (ToNumber credits) (JsNumber.Dec 0 0)) eqn:Hle; [by intros []|].
  destruct (getenv w "PLAN_ID") as [plan|] eqn:Hplan; [|by intros []].
  cbn [JsString.truthy_opt default from_option id].
  destruct (JsString.truthy plan); [|by intros []]. cbn [negb].
  destruct (Handlers.bearer (Handlers.req_authorization req)) as [deny|key] eqn:Hkey;
    [by intros []|].
  intros Hin. exists body, credits, key.
  assert (Hreq : amount = Json.ToString credits ∧ plan = planId).
  { revert Hin. unfold redeemCredits, PaymentsService.initializePayments, lift, attempt,
      request, fail, mbind, R_bind, mret, R_ret, M_ret, throw.
    repeat (cbn -[JsString.truthy JsString.truthy_opt JsString.or_else Json.ToString
                  Handlers.respond];
            case_match; simplify_eq);
      cbn -[Json.ToString]; intros Hin;
      repeat (destruct Hin as [Hin|Hin]; [by simplify_eq|]); done. }
  destruct Hreq as [-> ->].
  split; [done|]. split; [done|]. split; [done|].
  split; [by apply positive_number|]. done.
Qed.

Lemma burn_credits_checked_witness :
  let req := {| Handlers.req_body := Some (Json.JObj [("credits", Json.JStr "2")]);
                Handlers.req_query := ∅;
                Handlers.req_authorization := Some "Bearer key" |} in
  ∃ body credits nvmApiKey,
    Handlers.req_body req = Some body
    ∧ Json.get "credits" body = Some credits
    ∧ Json.truthy credits = true
    ∧ JsNumber.ltb (JsNumber.Dec 0 0) (ToNumber credits) = true
    ∧ "2" = Json.ToString credits
    ∧ getenv Sample.world "PLAN_ID" = Some "plan-1"
    ∧ Handlers.bearer (Handlers.req_authorization req) = inr nvmApiKey.
Proof.
  apply (burn_credits_checked Sample.world (Scenario.ledger (Return None))
           {| Handlers.req_body := Some (Json.JObj [("credits", Json.JStr "2")]);
              Handlers.req_query := ∅;
              Handlers.req_authorization := Some "Bearer key" |}
           "did:nv:agent" "plan-1" "0xWallet" "2").
  - reflexivity.
  - vm_compute. auto.
Defined.

End RedeemFacts.

(** ** The purchase script *)

Module BuyPlanFacts.
Import Effects Collab BuyPlan Spec Notions RunFacts CountFacts.

Lemma main_plan (w : World) (argv2 : option string) :
  match JsString.trim <$> argv2 with
  | Some a => if JsString.truthy a then a
              else JsString.trim (JsString.or_else (getenv w "PLAN_ID") "")
  | None => JsString.trim (JsString.or_else (getenv w "PLAN_ID") "")
  end = buyer_plan w argv2.
Proof. by destruct argv2. Qed.

(** The run of the script once the key and the plan are there and the
    buyer is logged in. *)
Lemma script_run (w : World) (order : string → outcome (option OrderReceipt))
  (argv2 : option string) :
  JsString.truthy (buyer_key w) = true →
  JsString.truthy (buyer_plan w argv2) = true →
  isLoggedIn w (buyer_key w) (buyer_environment w) = true →
  run (script w order argv2)
  = let plan := buyer_plan w argv2 in
    let t := [EGetPlan plan; EOrderPlan plan] in
    match order plan with
    | Return (Some r) =>
        if receipt_success r then (Return Completed, t)
        else (Return (Exit 1),
              t ++ [ELogError (JsString.or_else (receipt_message r)
                                 "Failed to order credits for plan")])
    | Return None => (Return (Exit 1), t ++ [ELogError "Failed to order credits for plan"])
    | Throw e => (Return (Exit 1), t ++ [ELogError (error_message e)])
    end.
Proof.
  intros Hk Hp Hl. unfold run, script, main. rewrite main_plan.
  fold (buyer_key w). fold (buyer_environment w). rewrite Hk, Hp, Hl. cbn [negb].
  run_unfold. rewrite filter_nil. cbn [length].
  destruct (getPlan w 0 (buyer_plan w argv2)) as [d|e];
    cbn [app]; destruct (order (buyer_plan w argv2)) as [[r|]|e'];
    try destruct (receipt_success r); reflexivity.
Qed.

(** X26. The purchase does not depend on the plan details. Once the
    buyer's key and the plan are there and the buyer is logged in, the
    script fetches the plan once and then places exactly one order, for
    the plan of the command line, else of [PLAN_ID], whatever the fetch
    gave (a record, nothing or a failure). It runs to its end exactly when
    the ledger answers the order with success; otherwise it logs the
    failure and exits with code 1. *)
Theorem buy_plan_orders_once
  (w : World) (order : string → outcome (option OrderReceipt)) (argv2 : option string) :
  JsString.truthy (buyer_key w) = true →
  JsString.truthy (buyer_plan w argv2) = true →
  isLoggedIn w (buyer_key w) (buyer_environment w) = true →
  let r := run (script w order argv2) in
  let plan := buyer_plan w argv2 in
  (∃ logged, r.2 = [EGetPlan plan; EOrderPlan plan] ++ logged ∧ count is_orderPlan logged = 0%nat)
  ∧ (r.1 = Return Completed
     ↔ ∃ rc, order plan = Return (Some rc) ∧ receipt_success rc = true)
  ∧ (r.1 ≠ Return Completed → r.1 = Return (Exit 1) ∧ count is_log r.2 = 1%nat).
Proof.
  intros Hk Hp Hl r plan. subst r plan. rewrite (script_run w order argv2 Hk Hp Hl).
  cbn zeta. destruct (order (buyer_plan w argv2)) as [[rc|]|e].
  - destruct (receipt_success rc) eqn:Hs; cbn [fst snd app].
    + split; [by exists []|]. split; [|done]. split; [by exists rc|done].
    + split; [by eexists|]. split.
      * split; [done|]. intros (rc' & [= <-] & Hrc). congruence.
      * intros _. split; [done|]. rewrite !count_cons, count_nil. done.
  - cbn [fst snd app]. split; [by eexists|]. split.
    + split; [done|]. by intros (rc' & [=] & _).
    + intros _. split; [done|]. rewrite !count_cons, count_nil. done.
  - cbn [fst snd app]. split; [by eexists|]. split.
    + split; [done|]. by intros (rc' & [=] & _).
    + intros _. split; [done|]. rewrite !count_cons, count_nil. done.
Qed.

Lemma buy_plan_orders_once_witness :
  let w := Scenario.with_getPlan (λ _, Throw (Rejected "not found")) Scenario.buyer in
  let order := λ _ : string,
    Return (Some {| receipt_success := true; receipt_message := None;
                    receipt_txHash := Some "0xabc" |}) in
  let r := run (script w order (Some " plan-9 ")) in
  let plan := buyer_plan w (Some " plan-9 ") in
  (∃ logged, r.2 = [EGetPlan plan; EOrderPlan plan] ++ logged ∧ count is_orderPlan logged = 0%nat)
  ∧ (r.1 = Return Completed
     ↔ ∃ rc, order plan = Return (Some rc) ∧ receipt_success rc = true)
  ∧ (r.1 ≠ Return Completed → r.1 = Return (Exit 1) ∧ count is_log r.2 = 1%nat).
Proof.
  apply (buy_plan_orders_once
           (Scenario.with_getPlan (λ _, Throw (Rejected "not found")) Scenario.buyer)
           (λ _, Return (Some {| receipt_success := true; receipt_message := None;
                                 receipt_txHash := Some "0xabc" |}))
           (Some " plan-9 ")); vm_compute; reflexivity.
Defined.

(** X27. The script never fails silently and never orders unasked.
    Whatever the environment and the ledger, it ends in one of two ways,
    running to its end or exiting with code 1, and places at most one
    order; when it places one, the buyer's key and the plan were not blank
    and the buyer was logged in; and when it does not run to its end, it
    has written exactly one line with [console.error]. *)
Theorem buy_plan_ends
  (w : World) (order : string → outcome (option OrderReceipt)) (argv2 : option string) :
  let r := run (script w order argv2) in
  (r.1 = Return Completed ∨ r.1 = Return (Exit 1))
  ∧ (count is_orderPlan r.2 ≤ 1)%nat
  ∧ (count is_orderPlan r.2 = 1%nat →
     JsString.truthy (buyer_key w) = true
     ∧ JsString.truthy (buyer_plan w argv2) = true
     ∧ isLoggedIn w (buyer_key w) (buyer_environment w) = true)
  ∧ (r.1 = Return (Exit 1) → count is_log r.2 = 1%nat).
Proof.
  intros r. subst r.
  destruct (JsString.truthy (buyer_key w)) eqn:Hk;
    [destruct (JsString.truthy (buyer_plan w argv2)) eqn:Hp;
     [destruct (isLoggedIn w (buyer_key w) (buyer_environment w)) eqn:Hl|]|].
  - rewrite (script_run w order argv2 Hk Hp Hl). cbn zeta.
    destruct (order (buyer_plan w argv2)) as [[rc|]|e];
      try destruct (receipt_success rc); cbn [fst snd app];
      rewrite ?count_cons, ?count_nil; cbn; repeat split; auto; done.
  - unfold run, script, main. rewrite main_plan.
    fold (buyer_key w). fold (buyer_environment w). rewrite Hk, Hp, Hl. run_unfold.
    cbn [negb fst snd app]. rewrite ?count_cons, ?count_nil. cbn.
    repeat split; auto; done.
  - unfold run, script, main. rewrite main_plan.
    fold (buyer_key w). rewrite Hk, Hp. run_unfold.
    cbn [negb fst snd app]. rewrite ?count_cons, ?count_nil. cbn.
    repeat split; auto; done.
  - unfold run, script, main. fold (buyer_key w). rewrite Hk. run_unfold.
    cbn [negb fst snd app]. rewrite ?count_cons, ?count_nil. cbn.
    repeat split; auto; done.
Qed.

End BuyPlanFacts.

(** ** The key in the address bar *)

Module ClientFacts.
Import ClientUtils Notions.

Lemma deleted_all (params : list (string * string)) :
  delete "nvm_api_key" (delete "nvmApiKey" (delete "api_key" params))
  = List.filter (λ kv, negb (bool_decide (kv.1 ∈ key_names))) params.
Proof.
  unfold delete. induction params as [|[k v] rest IH]; [done|].
  cbn [List.filter fst].
  assert (bool_decide (k ∈ key_names)
          = (k =? "api_key")%string || (k =? "nvmApiKey")%string
            || (k =? "nvm_api_key")%string) as ->.
  { unfold key_names.
    destruct (String.eqb_spec k "api_key") as [->|H1]; [done|].
    destruct (String.eqb_spec k "nvmApiKey") as [->|H2]; [done|].
    destruct (String.eqb_spec k "nvm_api_key") as [->|H3]; [done|].
    apply bool_decide_eq_false. rewrite !elem_of_cons, elem_of_nil. tauto. }
  destruct (k =? "api_key")%string; cbn [negb orb List.filter fst]; [exact IH|].
  destruct (k =? "nvmApiKey")%string; cbn [negb orb List.filter fst]; [exact IH|].
  destruct (k =? "nvm_api_key")%string; cbn [negb orb List.filter fst]; [exact IH|].
  by rewrite IH.
Qed.

(** X28. Taking the key out of the address bar. When
    [extractApiKeyFromUrl] is asked to clean and returns a non-empty key,
    that key is the first value of one of [api_key], [nvmApiKey],
    [nvm_api_key], the first of the three, in that order, that has a
    non-empty value; and the address handed to [replaceState] has the same
    origin, path and fragment and the same query parameters in the same
    order, less every occurrence of those three names. *)
Theorem extractApiKeyFromUrl_cleans
  (serialize : list (string * string) → string) (url : Url) (key : string) :
  (extractApiKeyFromUrl serialize (Some url) true).1 = Some key →
  JsString.truthy key = true →
  let params := List.filter (λ kv, negb (bool_decide (kv.1 ∈ key_names))) (searchParams url) in
  (∃ before name after,
      key_names = before ++ name :: after
      ∧ get name (searchParams url) = Some key
      ∧ ∀ earlier, earlier ∈ before →
          JsString.truthy_opt (get earlier (searchParams url)) = false)
  ∧ (extractApiKeyFromUrl serialize (Some url) true).2
    = Some (origin url +:+ pathname url
            +:+ match params with [] => "" | _ => "?" +:+ serialize params end
            +:+ hash url).
Proof.
  intros Hkey Htruthy params. subst params.
  unfold extractApiKeyFromUrl in *. cbn zeta in *. rewrite deleted_all.
  set (a := get "api_key" (searchParams url)) in *.
  set (b := get "nvmApiKey" (searchParams url)) in *.
  set (c := get "nvm_api_key" (searchParams url)) in *.
  assert (JsString.truthy_opt (or_null (or_null a b) c) = true) as Ht.
  { destruct (JsString.truthy_opt _ && true) eqn:E; cbn [fst] in Hkey;
      rewrite Hkey; exact Htruthy. }
  rewrite Ht in *. cbn [andb fst snd] in *. split; [|done].
  destruct a as [ka|] eqn:Ha; cbn [or_null] in Hkey.
  - destruct (JsString.truthy ka) eqn:Hka; cbn [or_null] in Hkey.
    + rewrite Hka in Hkey. exists [], "api_key", ["nvmApiKey"; "nvm_api_key"]. split; [done|]. split.
      * cbn. fold a. rewrite Ha. done.
      * intros name Hin. by apply elem_of_nil in Hin.
    + destruct b as [kb|] eqn:Hb; cbn [or_null] in Hkey.
      * destruct (JsString.truthy kb) eqn:Hkb.
        -- exists ["api_key"], "nvmApiKey", ["nvm_api_key"]. split; [done|]. split.
           ++ cbn. fold b. by rewrite Hb.
           ++ intros name Hin. apply list_elem_of_singleton in Hin as ->.
              fold a. by rewrite Ha.
        -- exists ["api_key"; "nvmApiKey"], "nvm_api_key", []. split; [done|]. split.
           ++ cbn. fold c. by rewrite Hkey.
           ++ intros name Hin. rewrite !elem_of_cons, elem_of_nil in Hin.
              destruct Hin as [->|[->|[]]]; [fold a; by rewrite Ha|fold b; by rewrite Hb].
      * exists ["api_key"; "nvmApiKey"], "nvm_api_key", []. split; [done|]. split.
        -- cbn. fold c. by rewrite Hkey.
        -- intros name Hin. rewrite !elem_of_cons, elem_of_nil in Hin.
           destruct Hin as [->|[->|[]]]; [fold a; by rewrite Ha|fold b; by rewrite Hb].
  - destruct b as [kb|] eqn:Hb; cbn [or_null] in Hkey.
    + destruct (JsString.truthy kb) eqn:Hkb.
      * exists ["api_key"], "nvmApiKey", ["nvm_api_key"]. split; [done|]. split.
        -- cbn. fold b. by rewrite Hb.
        -- intros name Hin. apply list_elem_of_singleton in Hin as ->.
           fold a. by rewrite Ha.
      * exists ["api_key"; "nvmApiKey"], "nvm_api_key", []. split; [done|]. split.
        -- cbn. fold c. by rewrite Hkey.
        -- intros name Hin. rewrite !elem_of_cons, elem_of_nil in Hin.
           destruct Hin as [->|[->|[]]]; [fold a; by rewrite Ha|fold b; by rewrite Hb].
    + exists ["api_key"; "nvmApiKey"], "nvm_api_key", []. split; [done|]. split.
      * cbn. fold c. by rewrite Hkey.
      * intros name Hin. rewrite !elem_of_cons, elem_of_nil in Hin.
        destruct Hin as [->|[->|[]]]; [fold a; by rewrite Ha|fold b; by rewrite Hb].
Qed.

Lemma extractApiKeyFromUrl_cleans_witness :
  let url := Scenario.returned in
  let params := List.filter (λ kv, negb (bool_decide (kv.1 ∈ key_names))) (searchParams url) in
  (∃ before name after,
      key_names = before ++ name :: after
      ∧ get name (searchParams url) = Some "k-1"
      ∧ ∀ earlier, earlier ∈ before →
          JsString.truthy_opt (get earlier (searchParams url)) = false)
  ∧ (extractApiKeyFromUrl Scenario.plain_query (Some url) true).2
    = Some (origin url +:+ pathname url
            +:+ match params with [] => "" | _ => "?" +:+ Scenario.plain_query params end
            +:+ hash url).
Proof.
  apply (extractApiKeyFromUrl_cleans Scenario.plain_query Scenario.returned "k-1");
    vm_compute; reflexivity.
Defined.

End ClientFacts.
